(** * Job queue and worker of go-echo-sample: a shallow embedding

    Sources embedded here:
    - [queries.sql]  (the sqlc queries CreateUser, CreateJob,
      GetNextPendingJob, UpdateJobStatus, IncrementJobRetry);
    - [pkg/database/database.go]  (the schema of [initSchema] and
      [DatabaseService.CreateUser]);
    - package [jobs]  ([JobQueueService.EnqueueJob], [GetNextJob],
      [CompleteJob], [FailJob]);
    - the worker  ([Worker.processNextJob] and the goroutine it starts);
    - the rest of [queries.sql] and of package [jobs]  (GetJobStats,
      ListJobs, the user queries), [DatabaseService.GetUserByID], the two
      HTTP handlers ([UserHandler], [InMemoryUserHandler]), [enqueueTestJob]
      of the worker-manager tool and [formatErrorMessage] of the validation
      middleware.

    Conventions.  The SQLite database is a value of type [DB]: one list of
    rows per table, in rowid order, plus the AUTOINCREMENT counters.  A
    nullable column (sql.NullInt64, sql.NullString, sql.NullTime) is an
    [option].  A DATETIME column holds the text SQLite stores in it: the
    text of [CURRENT_TIMESTAMP] ('YYYY-MM-DD HH:MM:SS', in UTC) where the
    schema or a query writes it, and, where the code binds a Go [time.Time],
    the text under which the driver modernc.org/sqlite stores it, that of
    [t.String()]: the zone of the host and fractions of a second, as in
    '2024-01-01 21:00:00.5 +0900 JST m=+0.1'.  None of these texts reads
    as a number, so SQLite keeps, compares and sorts them as texts.  Every
    reading of Go's [time.Now()] and of SQL's [CURRENT_TIMESTAMP] is an
    explicit argument ([time_Now] and [current_timestamp]), and it is given
    as the text that reaches the database; a row is the row as the table
    holds it.  Go's [(value, error)] results are values of [result].  Lines
    written with the [log] package are left out; the line [CreateUser]
    prints with [fmt.Printf] is kept. *)

From Stdlib Require Import ZArith List Ascii String Bool Lia.
From Stdlib Require Import Permutation Sorted.
From Stdlib Require OrderedTypeEx.
From stdpp Require Import base option strings pretty gmap.
Import ListNotations.

Local Open Scope string_scope.
Local Open Scope Z_scope.

(** ** Errors and results *)

(** Go [error] values.  [Errorf p e] is [fmt.Errorf(p + ": %w", e)]. *)
Inductive error : Type :=
| sql_ErrNoRows
| sql_ErrConstraint (msg : string)
| json_Err (msg : string)
| process_Err (msg : string)
| Errorf (prefix : string) (wrapped : error).

(** [err.Error()] *)
Fixpoint Error (e : error) : string :=
  match e with
  | sql_ErrNoRows => "sql: no rows in result set"
  | sql_ErrConstraint msg => msg
  | json_Err msg => msg
  | process_Err msg => msg
  | Errorf prefix wrapped => String.append prefix (String.append ": " (Error wrapped))
  end.

Inductive result (A : Type) : Type :=
| Ok (a : A)
| Err (e : error).
Arguments Ok {A} a.
Arguments Err {A} e.

(** ** Rows (the structs sqlc generates from the schema of [initSchema]) *)

Record JobQueue : Type := mkJobQueue {
  ID : Z;
  JobType : string;
  Payload : string;
  Status : string;
  Priority : option Z;
  MaxRetries : option Z;
  RetryCount : option Z;
  ErrorMessage : option string;
  ScheduledAt : option string;
  StartedAt : option string;
  CompletedAt : option string;
  CreatedAt : option string
}.

Record User : Type := mkUser {
  User_ID : Z;
  User_Email : string;
  User_Age : Z;
  User_Name : option string;
  User_Bio : option string;
  User_IsActive : bool;
  User_AdditionalData : option string;
  User_CreatedAt : option string;
  User_UpdatedAt : option string
}.

Record DB : Type := mkDB {
  users : list User;
  users_seq : Z;
  job_queue : list JobQueue;
  job_queue_seq : Z
}.

(** The database right after [initSchema]. *)
Definition empty_db : DB :=
  {| users := []; users_seq := 0; job_queue := []; job_queue_seq := 0 |}.

(** ** Parameter structs of the queries *)

Record CreateJobParams : Type := mkCreateJobParams {
  cj_JobType : string;
  cj_Payload : string;
  cj_Priority : option Z;
  cj_MaxRetries : option Z;
  cj_ScheduledAt : option string
}.

Record UpdateJobStatusParams : Type := mkUpdateJobStatusParams {
  uj_Status : string;
  uj_StartedAt : option string;
  uj_CompletedAt : option string;
  uj_ErrorMessage : option string;
  uj_ID : Z
}.

Record IncrementJobRetryParams : Type := mkIncrementJobRetryParams {
  ir_ErrorMessage : option string;
  ir_ID : Z
}.

Record CreateUserParams : Type := mkCreateUserParams {
  cu_Email : string;
  cu_Age : Z;
  cu_Name : option string;
  cu_Bio : option string;
  cu_IsActive : bool;
  cu_AdditionalData : option string
}.

(** ** SQL expressions over nullable integers and texts *)

(** [a < b]: NULL when an operand is NULL, and a WHERE clause keeps a row
    only when its condition is true. *)
Definition sql_lt (a b : option Z) : bool :=
  match a, b with
  | Some x, Some y => x <? y
  | _, _ => false
  end.

(** [a <= b] on two texts: SQLite compares them byte by byte (the collation
    BINARY), and a text stands before every text it is a proper prefix
    of. *)
Definition sql_text_le (a b : option string) : bool :=
  match a, b with
  | Some x, Some y => String.leb x y
  | _, _ => false
  end.

(** [a + n] *)
Definition sql_add (a : option Z) (n : Z) : option Z :=
  match a with
  | Some x => Some (x + n)
  | None => None
  end.

(** [a * n] *)
Definition sql_mul (a : option Z) (n : Z) : option Z :=
  match a with
  | Some x => Some (x * n)
  | None => None
  end.

(** The number SQLite reads from the text ['+' || a] where it stands as an
    operand of [*]: its longest numeric prefix, which is [a] when [a] is not
    negative and 0 otherwise (the text ['+-1'] starts with no number). *)
Definition plus_text_number (a : option Z) : option Z :=
  match a with
  | Some x => Some (if 0 <=? x then x else 0)
  | None => None
  end.

(** [datetime(t, n)] for a second argument [n] that is a number: read as a
    modifier, a bare number is none of the forms SQLite accepts ('+5
    minutes', 'start of day', ...), and datetime answers NULL, as it does
    for a NULL argument. *)
Definition datetime_number_modifier (t : string) (n : option Z)
    : option string :=
  match n with
  | Some _ => None
  | None => None
  end.

(** The order ORDER BY uses on a nullable column: NULL sorts before every
    value in ascending order. *)
Definition null_compare (a b : option Z) : comparison :=
  match a, b with
  | None, None => Eq
  | None, Some _ => Lt
  | Some _, None => Gt
  | Some x, Some y => x ?= y
  end.

(** The same order on a nullable text column, texts in the order of the
    collation BINARY. *)
Definition null_compare_text (a b : option string) : comparison :=
  match a, b with
  | None, None => Eq
  | None, Some _ => Lt
  | Some _, None => Gt
  | Some x, Some y => String.compare x y
  end.

(** ** Generic pieces of the statements *)

(** [UPDATE job_queue SET ... WHERE id = ?] *)
Definition update_where_id (id : Z) (set : JobQueue -> JobQueue)
    (rows : list JobQueue) : list JobQueue :=
  map (fun j => if ID j =? id then set j else j) rows.

(** [RETURNING *] of a [:one] query: the first row the statement touched,
    [sql.ErrNoRows] when it touched none. *)
Definition returning_one (id : Z) (set : JobQueue -> JobQueue)
    (rows : list JobQueue) : result JobQueue :=
  match List.filter (fun j => ID j =? id) rows with
  | j :: _ => Ok (set j)
  | [] => Err sql_ErrNoRows
  end.

(** ** queries.sql *)

(** -- name: CreateJob :one
    The columns the INSERT does not list take the defaults of the schema:
    status 'pending', retry_count 0, created_at CURRENT_TIMESTAMP, and
    NULL for error_message, started_at and completed_at. *)
Definition CreateJob (arg : CreateJobParams) (current_timestamp : string) (db : DB)
    : result JobQueue * DB :=
  let id := job_queue_seq db + 1 in
  let row := {| ID := id;
                JobType := cj_JobType arg;
                Payload := cj_Payload arg;
                Status := "pending";
                Priority := cj_Priority arg;
                MaxRetries := cj_MaxRetries arg;
                RetryCount := Some 0;
                ErrorMessage := None;
                ScheduledAt := cj_ScheduledAt arg;
                StartedAt := None;
                CompletedAt := None;
                CreatedAt := Some current_timestamp |} in
  (Ok row,
   {| users := users db; users_seq := users_seq db;
      job_queue := job_queue db ++ [row]; job_queue_seq := id |}).

(** The WHERE clause of GetNextPendingJob.  Its second condition compares
    the text stored in scheduled_at with the text of CURRENT_TIMESTAMP. *)
Definition eligible (current_timestamp : string) (j : JobQueue) : bool :=
  String.eqb (Status j) "pending"
  && sql_text_le (ScheduledAt j) (Some current_timestamp)
  && sql_lt (RetryCount j) (MaxRetries j).

(** [a] may stand before [b] under ORDER BY priority DESC, scheduled_at ASC. *)
Definition order_le (a b : JobQueue) : bool :=
  match null_compare (Priority b) (Priority a) with
  | Lt => true
  | Gt => false
  | Eq => match null_compare_text (ScheduledAt a) (ScheduledAt b) with
          | Gt => false
          | _ => true
          end
  end.

Fixpoint order_insert (x : JobQueue) (l : list JobQueue) : list JobQueue :=
  match l with
  | [] => [x]
  | y :: l' => if order_le x y then x :: y :: l' else y :: order_insert x l'
  end.

(** ORDER BY priority DESC, scheduled_at ASC, as a stable sort: rows that
    tie on both keys stay in rowid order. *)
Fixpoint order_by (l : list JobQueue) : list JobQueue :=
  match l with
  | [] => []
  | x :: l' => order_insert x (order_by l')
  end.

(** -- name: GetNextPendingJob :one *)
Definition GetNextPendingJob (current_timestamp : string) (db : DB) : result JobQueue :=
  match order_by (List.filter (eligible current_timestamp) (job_queue db)) with
  | j :: _ => Ok j
  | [] => Err sql_ErrNoRows
  end.

(** The SET clause of UpdateJobStatus: all four columns are assigned from
    the parameters, the other columns are kept. *)
Definition UpdateJobStatus_set (arg : UpdateJobStatusParams) (j : JobQueue)
    : JobQueue :=
  {| ID := ID j; JobType := JobType j; Payload := Payload j;
     Status := uj_Status arg;
     Priority := Priority j; MaxRetries := MaxRetries j;
     RetryCount := RetryCount j;
     ErrorMessage := uj_ErrorMessage arg;
     ScheduledAt := ScheduledAt j;
     StartedAt := uj_StartedAt arg;
     CompletedAt := uj_CompletedAt arg;
     CreatedAt := CreatedAt j |}.

(** -- name: UpdateJobStatus :one *)
Definition UpdateJobStatus (arg : UpdateJobStatusParams) (db : DB)
    : result JobQueue * DB :=
  (returning_one (uj_ID arg) (UpdateJobStatus_set arg) (job_queue db),
   {| users := users db; users_seq := users_seq db;
      job_queue :=
        update_where_id (uj_ID arg) (UpdateJobStatus_set arg) (job_queue db);
      job_queue_seq := job_queue_seq db |}).

(** The SET clause of IncrementJobRetry.  Every right-hand side reads the
    row as it was before the statement.  In
    [datetime(CURRENT_TIMESTAMP, '+' || (retry_count + 1) * 5 || ' minutes')]
    the operator [||] binds tighter than [*]: the second argument is the
    product [('+' || (retry_count + 1)) * (5 || ' minutes')], whose operands
    SQLite reads as the numbers [retry_count + 1] and 5.  It is a number,
    not a modifier text. *)
Definition IncrementJobRetry_set (arg : IncrementJobRetryParams)
    (current_timestamp : string) (j : JobQueue) : JobQueue :=
  {| ID := ID j; JobType := JobType j; Payload := Payload j;
     Status := "pending";
     Priority := Priority j; MaxRetries := MaxRetries j;
     RetryCount := sql_add (RetryCount j) 1;
     ErrorMessage := ir_ErrorMessage arg;
     ScheduledAt :=
       datetime_number_modifier current_timestamp
         (sql_mul (plus_text_number (sql_add (RetryCount j) 1)) 5);
     StartedAt := StartedAt j;
     CompletedAt := CompletedAt j;
     CreatedAt := CreatedAt j |}.

(** -- name: IncrementJobRetry :one *)
Definition IncrementJobRetry (arg : IncrementJobRetryParams)
    (current_timestamp : string) (db : DB) : result JobQueue * DB :=
  (returning_one (ir_ID arg) (IncrementJobRetry_set arg current_timestamp)
     (job_queue db),
   {| users := users db; users_seq := users_seq db;
      job_queue :=
        update_where_id (ir_ID arg)
          (IncrementJobRetry_set arg current_timestamp) (job_queue db);
      job_queue_seq := job_queue_seq db |}).

(** -- name: GetJobByID :one *)
Definition GetJobByID (id : Z) (db : DB) : result JobQueue :=
  match List.filter (fun j => ID j =? id) (job_queue db) with
  | j :: _ => Ok j
  | [] => Err sql_ErrNoRows
  end.

(** -- name: CreateUser :one
    The schema rejects a negative age (CHECK) and a duplicate email
    (UNIQUE); SQLite tests the CHECK first, and the driver reports either
    as 'constraint failed', the message of SQLite and the result code.
    created_at and updated_at default to CURRENT_TIMESTAMP. *)
Definition CreateUser_query (arg : CreateUserParams) (current_timestamp : string)
    (db : DB) : result User * DB :=
  if cu_Age arg <? 0 then
    (Err (sql_ErrConstraint
            "constraint failed: CHECK constraint failed: age >= 0 (275)"), db)
  else if existsb (fun u => String.eqb (User_Email u) (cu_Email arg))
            (users db) then
    (Err (sql_ErrConstraint
            "constraint failed: UNIQUE constraint failed: users.email (2067)"),
     db)
  else
    let id := users_seq db + 1 in
    let row := {| User_ID := id;
                  User_Email := cu_Email arg;
                  User_Age := cu_Age arg;
                  User_Name := cu_Name arg;
                  User_Bio := cu_Bio arg;
                  User_IsActive := cu_IsActive arg;
                  User_AdditionalData := cu_AdditionalData arg;
                  User_CreatedAt := Some current_timestamp;
                  User_UpdatedAt := Some current_timestamp |} in
    (Ok row,
     {| users := users db ++ [row]; users_seq := id;
        job_queue := job_queue db; job_queue_seq := job_queue_seq db |}).

(** ** Package jobs *)

Definition JobUserCreated : string := "user_created".
Definition JobDataAnalysis : string := "data_analysis".
Definition JobEmailNotification : string := "email_notification".
Definition JobDataExport : string := "data_export".

(** Values of Go's [interface{}] that reach a payload: what a decoded JSON
    request body holds, and the fields [CreateUser] copies from the user. *)
#[local] Unset Elimination Schemes.
Inductive any : Type :=
| AnyNil
| AnyBool (b : bool)
| AnyInt (n : Z)
| AnyString (s : string)
| AnyStringPtr (p : option string)
| AnyBoolPtr (p : option bool)
| AnySlice (l : list any)
| AnyMap (m : list (string * any)).
#[local] Set Elimination Schemes.

Record JobPayload : Type := mkJobPayload {
  UserID : option Z;
  UserData : list (string * any);
  AdditionalProps : list (string * any);
  Message : string;
  Recipients : list string;
  ValidationMode : string
}.

(** The package encoding/json is not part of the repository: its three uses
    are the operations of this interface. *)
Class EncodingJson : Type := {
  json_Marshal : JobPayload -> result string;
  json_Marshal_map : list (string * any) -> result string;
  json_Unmarshal : string -> result JobPayload
}.

Section Jobs.
Context {EJ : EncodingJson}.

(** func (jq *JobQueueService) EnqueueJob *)
Definition EnqueueJob (jobType : string) (payload : JobPayload) (priority : Z)
    (time_Now current_timestamp : string) (db : DB) : result JobQueue * DB :=
  match json_Marshal payload with
  | Err err => (Err (Errorf "failed to marshal payload" err), db)
  | Ok payloadJSON =>
      match CreateJob {| cj_JobType := jobType;
                         cj_Payload := payloadJSON;
                         cj_Priority := Some priority;
                         cj_MaxRetries := Some 3;
                         cj_ScheduledAt := Some time_Now |}
                      current_timestamp db with
      | (Err err, db') => (Err (Errorf "failed to create job" err), db')
      | (Ok job, db') => (Ok job, db')
      end
  end.

End Jobs.

(** The copy of the row that GetNextJob hands to its caller: the row as
    SELECTed, with [job.Status = "processing"] assigned in memory. *)
Definition mark_processing (job : JobQueue) : JobQueue :=
  {| ID := ID job; JobType := JobType job; Payload := Payload job;
     Status := "processing";
     Priority := Priority job; MaxRetries := MaxRetries job;
     RetryCount := RetryCount job; ErrorMessage := ErrorMessage job;
     ScheduledAt := ScheduledAt job; StartedAt := StartedAt job;
     CompletedAt := CompletedAt job; CreatedAt := CreatedAt job |}.

(** The parameters of the UPDATE GetNextJob issues. *)
Definition claim_params (id : Z) (time_Now : string)
    : UpdateJobStatusParams :=
  {| uj_ID := id;
     uj_Status := "processing";
     uj_StartedAt := Some time_Now;
     uj_CompletedAt := None;
     uj_ErrorMessage := None |}.

(** func (jq *JobQueueService) GetNextJob.  [Ok None] is Go's [nil, nil]. *)
Definition GetNextJob (time_Now current_timestamp : string) (db : DB)
    : result (option JobQueue) * DB :=
  match GetNextPendingJob current_timestamp db with
  | Err sql_ErrNoRows => (Ok None, db)
  | Err err => (Err (Errorf "failed to get next job" err), db)
  | Ok job =>
      match UpdateJobStatus (claim_params (ID job) time_Now) db with
      | (Err err, db') => (Err (Errorf "failed to update job status" err), db')
      | (Ok _, db') => (Ok (Some (mark_processing job)), db')
      end
  end.

(** func (jq *JobQueueService) CompleteJob.  [None] is the nil error. *)
Definition CompleteJob (jobID : Z) (time_Now : string) (db : DB) : option error * DB :=
  match UpdateJobStatus {| uj_ID := jobID;
                           uj_Status := "completed";
                           uj_StartedAt := None;
                           uj_CompletedAt := Some time_Now;
                           uj_ErrorMessage := None |} db with
  | (Err err, db') => (Some err, db')
  | (Ok _, db') => (None, db')
  end.

(** func (jq *JobQueueService) FailJob *)
Definition FailJob (jobID : Z) (errorMessage : string) (retry : bool)
    (time_Now current_timestamp : string) (db : DB) : option error * DB :=
  if retry then
    match IncrementJobRetry {| ir_ID := jobID;
                               ir_ErrorMessage := Some errorMessage |}
                            current_timestamp db with
    | (Err err, db') => (Some err, db')
    | (Ok _, db') => (None, db')
    end
  else
    match UpdateJobStatus {| uj_ID := jobID;
                             uj_Status := "failed";
                             uj_StartedAt := None;
                             uj_CompletedAt := Some time_Now;
                             uj_ErrorMessage := Some errorMessage |} db with
    | (Err err, db') => (Some err, db')
    | (Ok _, db') => (None, db')
    end.

(** ** GetNextJob, one statement at a time

    Each worker calls GetNextJob from its own goroutine on the one shared
    database, and GetNextJob issues its SELECT and its UPDATE as two separate
    statements, outside any transaction.  The database runs one statement at
    a time; between the two statements of one caller, statements of other
    callers may run. *)

Inductive claim_state : Type :=
| ClaimStart
| ClaimSelected (job : JobQueue)
| ClaimReturned (r : result (option JobQueue)).

(** The next statement of a call of GetNextJob. *)
Definition GetNextJob_step (time_Now current_timestamp : string)
    (st : claim_state) (db : DB) : claim_state * DB :=
  match st with
  | ClaimStart =>
      match GetNextPendingJob current_timestamp db with
      | Err sql_ErrNoRows => (ClaimReturned (Ok None), db)
      | Err err => (ClaimReturned (Err (Errorf "failed to get next job" err)), db)
      | Ok job => (ClaimSelected job, db)
      end
  | ClaimSelected job =>
      match UpdateJobStatus (claim_params (ID job) time_Now) db with
      | (Err err, db') =>
          (ClaimReturned (Err (Errorf "failed to update job status" err)), db')
      | (Ok _, db') => (ClaimReturned (Ok (Some (mark_processing job))), db')
      end
  | ClaimReturned r => (st, db)
  end.

(** A schedule names, statement by statement, the caller that runs next and
    the reading of the clock that statement takes: CURRENT_TIMESTAMP for
    the SELECT, time.Now() for the UPDATE. *)
Fixpoint run_schedule (schedule : list (nat * string))
    (callers : list claim_state)
    (db : DB) : list claim_state * DB :=
  match schedule with
  | [] => (callers, db)
  | (w, t) :: rest =>
      match nth_error callers w with
      | None => run_schedule rest callers db
      | Some st =>
          let '(st', db') := GetNextJob_step t t st db in
          run_schedule rest (firstn w callers ++ st' :: skipn (S w) callers) db'
      end
  end.

(** ** pkg/database: DatabaseService.CreateUser *)

(** generated.UserRequest *)
Record UserRequest : Type := mkUserRequest {
  req_Email : string;
  req_Age : Z;
  req_Name : option string;
  req_Bio : option string;
  req_IsActive : option bool
}.

(** generated.User *)
Record GeneratedUser : Type := mkGeneratedUser {
  gen_Id : Z;
  gen_Email : string;
  gen_Age : Z;
  gen_Name : option string;
  gen_Bio : option string;
  gen_IsActive : option bool
}.

(** func (ds *DatabaseService) convertDBUserToGenerated *)
Definition convertDBUserToGenerated (dbUser : User) : result GeneratedUser :=
  Ok {| gen_Id := User_ID dbUser;
        gen_Email := User_Email dbUser;
        gen_Age := User_Age dbUser;
        gen_Name := User_Name dbUser;
        gen_Bio := User_Bio dbUser;
        gen_IsActive := Some (User_IsActive dbUser) |}.

(** The payload CreateUser builds for the user_created job. *)
Definition user_created_payload (user : GeneratedUser)
    (additionalProps : list (string * any)) : JobPayload :=
  {| UserID := Some (gen_Id user);
     UserData := [ ("id", AnyInt (gen_Id user));
                   ("email", AnyString (gen_Email user));
                   ("age", AnyInt (gen_Age user));
                   ("name", AnyStringPtr (gen_Name user));
                   ("bio", AnyStringPtr (gen_Bio user));
                   ("is_active", AnyBoolPtr (gen_IsActive user)) ];
     AdditionalProps := additionalProps;
     Message := "";
     Recipients := [];
     ValidationMode := "" |}.

(** fmt.Printf("Failed to enqueue job for user %d: %v\n", user.Id, jobErr) *)
Definition enqueue_failure_line (userId : Z) (jobErr : error) : string :=
  String.append "Failed to enqueue job for user "
    (String.append (pretty userId)
       (String.append ": "
          (String.append (Error jobErr) (String "010"%char EmptyString)))).

Section Database.
Context {EJ : EncodingJson}.

(** The first statement of CreateUser: additional properties are stored as
    JSON text when there are any. *)
Definition marshal_additional (additionalProps : list (string * any))
    : result (option string) :=
  if (0 <? Z.of_nat (length additionalProps)) then
    match json_Marshal_map additionalProps with
    | Err err => Err (Errorf "failed to marshal additional properties" err)
    | Ok jsonData => Ok (Some jsonData)
    end
  else Ok None.

(** The parameters of the INSERT. *)
Definition create_user_params (userReq : UserRequest)
    (additionalData : option string) : CreateUserParams :=
  {| cu_Email := req_Email userReq;
     cu_Age := req_Age userReq;
     cu_Name := req_Name userReq;
     cu_Bio := req_Bio userReq;
     cu_IsActive := match req_IsActive userReq with
                    | Some b => b
                    | None => true
                    end;
     cu_AdditionalData := additionalData |}.

(** func (ds *DatabaseService) CreateUser.  The third component is what the
    call wrote to standard output. *)
Definition CreateUser (userReq : UserRequest)
    (additionalProps : list (string * any))
    (time_Now current_timestamp : string) (db : DB)
    : result GeneratedUser * DB * list string :=
  match marshal_additional additionalProps with
  | Err err => (Err err, db, [])
  | Ok additionalData =>
      match CreateUser_query (create_user_params userReq additionalData)
                             current_timestamp db with
      | (Err err, db1) => (Err (Errorf "failed to create user" err), db1, [])
      | (Ok dbUser, db1) =>
          match convertDBUserToGenerated dbUser with
          | Err err => (Err err, db1, [])
          | Ok user =>
              match EnqueueJob JobUserCreated
                      (user_created_payload user additionalProps) 1
                      time_Now current_timestamp db1 with
              | (Err jobErr, db2) =>
                  (Ok user, db2, [enqueue_failure_line (gen_Id user) jobErr])
              | (Ok _, db2) => (Ok user, db2, [])
              end
          end
      end
  end.

End Database.

(** ** The worker *)

(** type JobProcessor interface.  [Process] returns [None] for a nil error. *)
Record JobProcessor : Type := mkJobProcessor {
  Process : JobQueue -> JobPayload -> option error;
  processor_JobType : string
}.

(** [x] when the nullable integer is valid, Go's zero value otherwise. *)
Definition int64_or_zero (x : option Z) : Z :=
  match x with
  | Some v => v
  | None => 0
  end.

Section Worker.
Context {EJ : EncodingJson}.

(** The goroutine processNextJob starts for a claimed job.  [job] is the copy
    GetNextJob returned; the database is the shared one, as it is when the
    goroutine reports. *)
Definition process_claimed (processors : gmap string JobProcessor)
    (job : JobQueue) (time_Now current_timestamp : string) (db : DB) : DB :=
  match json_Unmarshal (Payload job) with
  | Err err =>
      snd (FailJob (ID job)
             (String.append "Failed to parse payload: " (Error err)) false
             time_Now current_timestamp db)
  | Ok payload =>
      match processors !! JobType job with
      | None =>
          snd (FailJob (ID job)
                 (String.append "No processor for job type: " (JobType job))
                 false time_Now current_timestamp db)
      | Some processor =>
          match Process processor job payload with
          | Some err =>
              let retryCount := int64_or_zero (RetryCount job) in
              let maxRetries := int64_or_zero (MaxRetries job) in
              let shouldRetry := retryCount <? maxRetries in
              snd (FailJob (ID job) (Error err) shouldRetry
                     time_Now current_timestamp db)
          | None => snd (CompleteJob (ID job) time_Now db)
          end
      end
  end.

(** func (w *Worker) processNextJob, with the goroutine run to its end
    before anything else touches the database: [claim_Now] and
    [claim_timestamp] are the two clocks as the claim reads them,
    [report_Now] and [report_timestamp] as the report reads them. *)
Definition processNextJob (processors : gmap string JobProcessor)
    (claim_Now claim_timestamp report_Now report_timestamp : string) (db : DB)
    : DB :=
  match GetNextJob claim_Now claim_timestamp db with
  | (Err _, db') => db'
  | (Ok None, db') => db'
  | (Ok (Some job), db') =>
      process_claimed processors job report_Now report_timestamp db'
  end.

End Worker.

(** ** The listing and counting queries of queries.sql *)

(** ORDER BY as a stable insertion sort: [le a b] says that [a] may stand
    before [b]; rows that tie stay in rowid order. *)
Fixpoint sort_insert {A : Type} (le : A -> A -> bool) (x : A) (l : list A)
    : list A :=
  match l with
  | [] => [x]
  | y :: l' => if le x y then x :: y :: l' else y :: sort_insert le x l'
  end.

Fixpoint sort_by {A : Type} (le : A -> A -> bool) (l : list A) : list A :=
  match l with
  | [] => []
  | x :: l' => sort_insert le x (sort_by le l')
  end.

(** LIMIT ?: the first [n] rows; SQLite puts no bound when [n] is negative. *)
Definition sql_limit {A : Type} (n : Z) (l : list A) : list A :=
  if n <? 0 then l else firstn (Z.to_nat n) l.

(** [a] may stand before [b] under ORDER BY created_at DESC. *)
Definition created_desc (a b : option string) : bool :=
  match null_compare_text a b with
  | Lt => false
  | _ => true
  end.

Record ListJobsParams : Type := mkListJobsParams {
  lj_Status : string;
  lj_Limit : Z
}.

(** -- name: ListJobs :many *)
Definition ListJobs_query (arg : ListJobsParams) (db : DB)
    : result (list JobQueue) :=
  Ok (sql_limit (lj_Limit arg)
        (sort_by (fun a b => created_desc (CreatedAt a) (CreatedAt b))
           (List.filter (fun j => String.eqb (Status j) (lj_Status arg))
              (job_queue db)))).

Record GetJobStatsRow : Type := mkGetJobStatsRow {
  PendingCount : Z;
  ProcessingCount : Z;
  CompletedCount : Z;
  FailedCount : Z
}.

(** COUNT(CASE WHEN status = ? THEN 1 END) *)
Definition count_status (status : string) (rows : list JobQueue) : Z :=
  Z.of_nat (length (List.filter (fun j => String.eqb (Status j) status) rows)).

(** -- name: GetJobStats :one *)
Definition GetJobStats_query (db : DB) : result GetJobStatsRow :=
  Ok {| PendingCount := count_status "pending" (job_queue db);
        ProcessingCount := count_status "processing" (job_queue db);
        CompletedCount := count_status "completed" (job_queue db);
        FailedCount := count_status "failed" (job_queue db) |}.

(** func (jq *JobQueueService) GetJobStats *)
Definition GetJobStats (db : DB) : result GetJobStatsRow :=
  match GetJobStats_query db with
  | Err err => Err (Errorf "failed to get job stats" err)
  | Ok stats => Ok stats
  end.

(** func (jq *JobQueueService) ListJobs *)
Definition ListJobs (status : string) (limit : Z) (db : DB)
    : result (list JobQueue) :=
  match ListJobs_query {| lj_Status := status; lj_Limit := limit |} db with
  | Err err => Err (Errorf "failed to list jobs" err)
  | Ok jobs => Ok jobs
  end.

(** The total showJobStats prints in its last line. *)
Definition stats_total (stats : GetJobStatsRow) : Z :=
  PendingCount stats + ProcessingCount stats + CompletedCount stats
  + FailedCount stats.

(** ** The user queries of queries.sql *)

(** -- name: GetUserByID :one *)
Definition GetUserByID_query (id : Z) (db : DB) : result User :=
  match List.filter (fun u => User_ID u =? id) (users db) with
  | u :: _ => Ok u
  | [] => Err sql_ErrNoRows
  end.

(** -- name: GetUserByEmail :one *)
Definition GetUserByEmail (email : string) (db : DB) : result User :=
  match List.filter (fun u => String.eqb (User_Email u) email) (users db) with
  | u :: _ => Ok u
  | [] => Err sql_ErrNoRows
  end.

(** -- name: ListUsers :many *)
Definition ListUsers (limit : Z) (db : DB) : result (list User) :=
  Ok (sql_limit limit
        (sort_by (fun a b => created_desc (User_CreatedAt a) (User_CreatedAt b))
           (List.filter User_IsActive (users db)))).

Record UpdateUserParams : Type := mkUpdateUserParams {
  uu_Email : string;
  uu_Age : Z;
  uu_Name : option string;
  uu_Bio : option string;
  uu_IsActive : bool;
  uu_AdditionalData : option string;
  uu_ID : Z
}.

(** The SET clause of UpdateUser: id and created_at are kept. *)
Definition UpdateUser_set (arg : UpdateUserParams) (current_timestamp : string)
    (u : User) : User :=
  {| User_ID := User_ID u;
     User_Email := uu_Email arg;
     User_Age := uu_Age arg;
     User_Name := uu_Name arg;
     User_Bio := uu_Bio arg;
     User_IsActive := uu_IsActive arg;
     User_AdditionalData := uu_AdditionalData arg;
     User_CreatedAt := User_CreatedAt u;
     User_UpdatedAt := Some current_timestamp |}.

(** -- name: UpdateUser :one
    With no row of that id the statement touches nothing and the query
    reports sql.ErrNoRows.  Otherwise the schema rejects a negative age
    (CHECK) and an email that another row holds (UNIQUE), the CHECK first,
    and nothing is written. *)
Definition UpdateUser (arg : UpdateUserParams) (current_timestamp : string) (db : DB)
    : result User * DB :=
  match List.filter (fun u => User_ID u =? uu_ID arg) (users db) with
  | [] => (Err sql_ErrNoRows, db)
  | u :: _ =>
      if uu_Age arg <? 0 then
        (Err (sql_ErrConstraint
                "constraint failed: CHECK constraint failed: age >= 0 (275)"),
         db)
      else if existsb (fun v => negb (User_ID v =? uu_ID arg)
                                && String.eqb (User_Email v) (uu_Email arg))
                (users db) then
        (Err (sql_ErrConstraint
                "constraint failed: UNIQUE constraint failed: users.email (2067)"),
         db)
      else
        (Ok (UpdateUser_set arg current_timestamp u),
         {| users := map (fun v => if User_ID v =? uu_ID arg
                                   then UpdateUser_set arg current_timestamp v
                                   else v) (users db);
            users_seq := users_seq db;
            job_queue := job_queue db; job_queue_seq := job_queue_seq db |})
  end.

(** -- name: DeleteUser :exec
    The AUTOINCREMENT counter stays where it is. *)
Definition DeleteUser (id : Z) (db : DB) : option error * DB :=
  (None,
   {| users := List.filter (fun u => negb (User_ID u =? id)) (users db);
      users_seq := users_seq db;
      job_queue := job_queue db; job_queue_seq := job_queue_seq db |}).

(** ** pkg/database: DatabaseService.GetUserByID *)

(** The errors GetUserByID returns: a fresh [fmt.Errorf("user not found")],
    the query's error wrapped, or the error of the conversion as it is. *)
Inductive lookup_error : Type :=
| errors_New (msg : string)
| lookup_Errorf (prefix : string) (wrapped : error)
| lookup_plain (e : error).

(** [err.Error()] *)
Definition lookup_error_Error (e : lookup_error) : string :=
  match e with
  | errors_New msg => msg
  | lookup_Errorf prefix wrapped =>
      String.append prefix (String.append ": " (Error wrapped))
  | lookup_plain e => Error e
  end.

(** func (ds *DatabaseService) GetUserByID *)
Definition GetUserByID (id : Z) (db : DB) : lookup_error + GeneratedUser :=
  match GetUserByID_query id db with
  | Err sql_ErrNoRows => inl (errors_New "user not found")
  | Err err => inl (lookup_Errorf "failed to get user" err)
  | Ok dbUser =>
      match convertDBUserToGenerated dbUser with
      | Ok user => inr user
      | Err err => inl (lookup_plain err)
      end
  end.

(** ** cmd/server-variants: UserHandler *)

Definition StatusOK : Z := 200.
Definition StatusCreated : Z := 201.
Definition StatusBadRequest : Z := 400.
Definition StatusNotFound : Z := 404.
Definition StatusInternalServerError : Z := 500.

(** What a handler answers with [ctx.JSON]: a status code and either the
    object with the one key "error" or a user. *)
Inductive response : Type :=
| JSON_error (code : Z) (message : string)
| JSON_user (code : Z) (user : GeneratedUser).

Definition knownFields : gmap string bool :=
  <["email" := true]> (<["age" := true]> (<["name" := true]>
    (<["bio" := true]> (<["is_active" := true]> ∅)))).

(** [knownFields[key]]: false for a key the map does not hold. *)
Definition is_known (key : string) : bool :=
  default false (knownFields !! key).

(** The loop that copies every entry of the body whose key is not a known
    field. *)
Definition additional_props (rawBody : gmap string any) : gmap string any :=
  filter (fun kv => is_known (fst kv) = false) rawBody.

(** Reading the body into generated.UserRequest goes through encoding/json
    ([json.Marshal] of the raw body, then [json.Unmarshal]); the two calls
    together are the operation of this interface. *)
Class RequestDecoder : Type := {
  decode_UserRequest : gmap string any -> result UserRequest
}.

Section Handlers.
Context {EJ : EncodingJson} {RD : RequestDecoder}.

(** func (h *UserHandler) CreateUser.  [bound] is what [ctx.Bind(&rawBody)]
    gave. *)
Definition UserHandler_CreateUser (bound : result (gmap string any))
    (time_Now current_timestamp : string) (db : DB) : response * DB * list string :=
  match bound with
  | Err _ => (JSON_error StatusBadRequest "Invalid JSON format", db, [])
  | Ok rawBody =>
      match decode_UserRequest rawBody with
      | Err _ => (JSON_error StatusBadRequest "Invalid request format", db, [])
      | Ok userReq =>
          match CreateUser userReq (map_to_list (additional_props rawBody))
                           time_Now current_timestamp db with
          | (Err err, db', out) =>
              (JSON_error StatusInternalServerError
                 (String.append "Failed to create user: " (Error err)),
               db', out)
          | (Ok user, db', out) => (JSON_user StatusCreated user, db', out)
          end
      end
  end.

End Handlers.

(** func (h *UserHandler) GetUserById *)
Definition UserHandler_GetUserById (id : Z) (db : DB) : response :=
  match GetUserByID id db with
  | inl err =>
      if String.eqb (lookup_error_Error err) "user not found" then
        JSON_error StatusNotFound "User not found"
      else
        JSON_error StatusInternalServerError
          (String.append "Failed to get user: " (lookup_error_Error err))
  | inr user => JSON_user StatusOK user
  end.

(** ** The in-memory server: InMemoryUserHandler *)

Record InMemoryUserHandler : Type := mkInMemoryUserHandler {
  mem_users : gmap Z GeneratedUser;
  nextID : Z
}.

(** func NewInMemoryUserHandler *)
Definition NewInMemoryUserHandler : InMemoryUserHandler :=
  {| mem_users := ∅; nextID := 1 |}.

(** func (h *InMemoryUserHandler) CreateUser.  [bound] is what
    [ctx.Bind(&req)] gave. *)
Definition InMemory_CreateUser (bound : result UserRequest)
    (h : InMemoryUserHandler) : response * InMemoryUserHandler :=
  match bound with
  | Err _ => (JSON_error StatusBadRequest "Invalid JSON format", h)
  | Ok req =>
      let user := {| gen_Id := nextID h;
                     gen_Email := req_Email req;
                     gen_Age := req_Age req;
                     gen_Name := req_Name req;
                     gen_Bio := req_Bio req;
                     gen_IsActive := req_IsActive req |} in
      (JSON_user StatusCreated user,
       {| mem_users := <[nextID h := user]> (mem_users h);
          nextID := nextID h + 1 |})
  end.

(** func (h *InMemoryUserHandler) GetUserById *)
Definition InMemory_GetUserById (id : Z) (h : InMemoryUserHandler) : response :=
  match mem_users h !! id with
  | None => JSON_error StatusNotFound "User not found"
  | Some user => JSON_user StatusOK user
  end.

(** ** cmd/worker-manager: enqueueTestJob *)

(** strconv.Atoi is not part of the repository. *)
Class Strconv : Type := {
  strconv_Atoi : string -> result Z
}.

(** How a command of the tool ends: it returns, it leaves through
    [os.Exit], or it leaves through [log.Fatalf]. *)
Inductive cli_end : Type :=
| cli_return
| cli_Exit (code : Z)
| cli_Fatalf (message : string).

(** The first switch of enqueueTestJob: the four names it accepts. *)
Definition parse_job_type (jobTypeStr : string) : option string :=
  if String.eqb jobTypeStr "user_created" then Some JobUserCreated
  else if String.eqb jobTypeStr "data_analysis" then Some JobDataAnalysis
  else if String.eqb jobTypeStr "email_notification" then Some JobEmailNotification
  else if String.eqb jobTypeStr "data_export" then Some JobDataExport
  else None.

(** The payload enqueueTestJob builds for a job type. *)
Definition test_payload (jobType message : string) : JobPayload :=
  if String.eqb jobType JobUserCreated then
    {| UserID := Some 999;
       UserData := [("id", AnyInt 999); ("email", AnyString "test@example.com");
                    ("age", AnyInt 25)];
       AdditionalProps := [("test_data", AnyBool true);
                           ("source", AnyString "worker-manager")];
       Message := message; Recipients := []; ValidationMode := "" |}
  else if String.eqb jobType JobEmailNotification then
    {| UserID := None; UserData := []; AdditionalProps := [];
       Message := message;
       Recipients := ["admin@example.com"; "user@example.com"];
       ValidationMode := "" |}
  else
    {| UserID := None; UserData := []; AdditionalProps := [];
       Message := message; Recipients := []; ValidationMode := "" |}.

Section WorkerManager.
Context {EJ : EncodingJson} {SC : Strconv}.

(** The priority enqueueTestJob reads from its optional argument: 0 when the
    argument is missing or is not a number. *)
Definition test_priority (args : list string) : Z :=
  match args with
  | [] => 0
  | a :: _ => match strconv_Atoi a with
              | Ok p => p
              | Err _ => 0
              end
  end.

(** func enqueueTestJob, without the lines it prints. *)
Definition enqueueTestJob (jobTypeStr message : string) (args : list string)
    (time_Now current_timestamp : string) (db : DB) : cli_end * DB :=
  let priority := test_priority args in
  match parse_job_type jobTypeStr with
  | None => (cli_Exit 1, db)
  | Some jobType =>
      match EnqueueJob jobType (test_payload jobType message) priority
                       time_Now current_timestamp db with
      | (Err err, db') =>
          (cli_Fatalf (String.append "Failed to enqueue job: " (Error err)), db')
      | (Ok _, db') => (cli_return, db')
      end
  end.

End WorkerManager.

(** ** pkg/validation: formatErrorMessage *)

(** strings.Contains(s, substr) *)
Fixpoint strings_Contains (s substr : string) : bool :=
  String.prefix substr s
  || match s with
     | EmptyString => false
     | String _ s' => strings_Contains s' substr
     end.

(** The scan of strings.ReplaceAll for a non-empty [old]: left to right,
    each occurrence of [old] that starts outside the previous one is
    replaced; [skip] counts the characters of a replaced occurrence still to
    pass over. *)
Fixpoint replace_from (old new : string) (skip : nat) (s : string) : string :=
  match s with
  | EmptyString => EmptyString
  | String c s' =>
      match skip with
      | S k => replace_from old new k s'
      | O =>
          if String.prefix old s then
            String.append new (replace_from old new (String.length old - 1) s')
          else String c (replace_from old new 0 s')
      end
  end.

(** strings.ReplaceAll(s, old, new), for the non-empty [old] that every call
    in the code passes. *)
Definition strings_ReplaceAll (s old new : string) : string :=
  replace_from old new 0 s.

(** func (v *ValidationMiddleware) formatErrorMessage *)
Definition formatErrorMessage (message : string) : string :=
  let message := strings_ReplaceAll message "doesn't match schema"
                   "does not match the required format" in
  let message := strings_ReplaceAll message "Error at" "Error in field" in
  let message := strings_ReplaceAll message "Property" "Field" in
  let message :=
    if strings_Contains message "minimum" then
      strings_ReplaceAll message "minimum" "must be at least"
    else message in
  let message :=
    if strings_Contains message "format" && strings_Contains message "email"
    then "Email address format is invalid"
    else message in
  let message :=
    if strings_Contains message "required" then
      strings_ReplaceAll message "property" "field"
    else message in
  message.

(** ** Concrete instances, used to run the definitions *)

(** A stand-in codec: a payload is written as an opening brace followed by
    its message, and only such texts are read back. *)
Definition sample_json : EncodingJson :=
  {| json_Marshal := fun p => Ok (String "{"%char (Message p));
     json_Marshal_map := fun _ => Ok "{}";
     json_Unmarshal := fun s =>
       match s with
       | String "{"%char m =>
           Ok {| UserID := None; UserData := []; AdditionalProps := [];
                 Message := m; Recipients := []; ValidationMode := "" |}
       | _ => Err (json_Err "invalid character looking for beginning of value")
       end |}.

(** A codec under which no payload can be serialized. *)
Definition failing_json : EncodingJson :=
  {| json_Marshal := fun _ => Err (json_Err "json: unsupported value");
     json_Marshal_map := fun _ => Ok "{}";
     json_Unmarshal := fun _ => Err (json_Err "unexpected end of JSON input") |}.

Definition sample_payload : JobPayload :=
  {| UserID := None; UserData := []; AdditionalProps := [];
     Message := "hello"; Recipients := ["a@example.com"]; ValidationMode := "" |}.

(** A processor whose handler always reports an error, and one that never
    does. *)
Definition failing_processor : JobProcessor :=
  {| Process := fun _ _ => Some (process_Err "smtp: connection refused");
     processor_JobType := JobEmailNotification |}.

Definition succeeding_processor : JobProcessor :=
  {| Process := fun _ _ => None;
     processor_JobType := JobDataAnalysis |}.

Definition sample_processors : gmap string JobProcessor :=
  <[JobEmailNotification := failing_processor]>
    (<[JobDataAnalysis := succeeding_processor]> ∅).

(** Readings of the two clocks on a host whose zone is UTC, in second [ss]
    of the minute 12:00 of 2024-01-01: the text the driver stores for a
    time.Now() read half a second into that second, and the text of
    CURRENT_TIMESTAMP. *)
Definition time_Now_at (ss : string) : string :=
  String.append "2024-01-01 12:00:"
    (String.append ss ".5 +0000 UTC m=+0.100000001").

Definition current_timestamp_at (ss : string) : string :=
  String.append "2024-01-01 12:00:" ss.

(** One email job enqueued in second 00 into the fresh database. *)
Definition db_one_pending : DB :=
  snd (EnqueueJob (EJ := sample_json) JobEmailNotification sample_payload 0
         (time_Now_at "00") (current_timestamp_at "00") empty_db).

(** The row of that job. *)
Definition email_job : JobQueue :=
  {| ID := 1; JobType := "email_notification"; Payload := "{hello";
     Status := "pending"; Priority := Some 0; MaxRetries := Some 3;
     RetryCount := Some 0; ErrorMessage := None;
     ScheduledAt := Some "2024-01-01 12:00:00.5 +0000 UTC m=+0.100000001";
     StartedAt := None; CompletedAt := None;
     CreatedAt := Some "2024-01-01 12:00:00" |}.

(** The same job, claimed in second 10. *)
Definition db_one_processing : DB :=
  snd (GetNextJob (time_Now_at "10") (current_timestamp_at "10") db_one_pending).

(** One round of the worker on that job, with a handler that fails: the
    claim in second 10, the report in second 12. *)
Definition db_failed_once : DB :=
  processNextJob (EJ := sample_json) sample_processors
    (time_Now_at "10") (current_timestamp_at "10")
    (time_Now_at "12") (current_timestamp_at "12") db_one_pending.

(** The claimed job, reported twice through FailJob with retry, in seconds
    20 and 30. *)
Definition db_retried_twice : DB :=
  snd (FailJob 1 "timeout" true (time_Now_at "30") (current_timestamp_at "30")
         (snd (FailJob 1 "timeout" true
                 (time_Now_at "20") (current_timestamp_at "20")
                 db_one_processing))).

(** The job, failed for good in second 20 after its claim in second 10. *)
Definition db_one_failed : DB :=
  snd (FailJob 1 "permanent" false
         (time_Now_at "20") (current_timestamp_at "20") db_one_processing).

(** The row of the failed job. *)
Definition failed_job : JobQueue :=
  {| ID := 1; JobType := "email_notification"; Payload := "{hello";
     Status := "failed"; Priority := Some 0; MaxRetries := Some 3;
     RetryCount := Some 0; ErrorMessage := Some "permanent";
     ScheduledAt := Some "2024-01-01 12:00:00.5 +0000 UTC m=+0.100000001";
     StartedAt := None;
     CompletedAt := Some "2024-01-01 12:00:20.5 +0000 UTC m=+0.100000001";
     CreatedAt := Some "2024-01-01 12:00:00" |}.

(** Two more jobs next to the first: priorities 0, 5 and 5, enqueued in
    seconds 00, 02 and 01. *)
Definition db_three_pending : DB :=
  snd (EnqueueJob (EJ := sample_json) JobDataAnalysis sample_payload 5
         (time_Now_at "01") (current_timestamp_at "01")
    (snd (EnqueueJob (EJ := sample_json) JobDataExport sample_payload 5
            (time_Now_at "02") (current_timestamp_at "02")
       db_one_pending))).

(** The email job enqueued on a host nine hours east of UTC, at the same
    moment: the driver stores the local time of the host, CURRENT_TIMESTAMP
    is UTC. *)
Definition db_one_pending_jst : DB :=
  snd (EnqueueJob (EJ := sample_json) JobEmailNotification sample_payload 0
         "2024-01-01 21:00:00.5 +0900 JST m=+0.100000001"
         "2024-01-01 12:00:00" empty_db).

(** The row of that job. *)
Definition email_job_jst : JobQueue :=
  {| ID := 1; JobType := "email_notification"; Payload := "{hello";
     Status := "pending"; Priority := Some 0; MaxRetries := Some 3;
     RetryCount := Some 0; ErrorMessage := None;
     ScheduledAt := Some "2024-01-01 21:00:00.5 +0900 JST m=+0.100000001";
     StartedAt := None; CompletedAt := None;
     CreatedAt := Some "2024-01-01 12:00:00" |}.

Definition sample_request : UserRequest :=
  {| req_Email := "a@example.com"; req_Age := 30; req_Name := Some "A";
     req_Bio := None; req_IsActive := None |}.

(** The PRIMARY KEY constraint on job_queue.id. *)
Definition primary_key_ok (db : DB) : Prop :=
  List.NoDup (map ID (job_queue db)).

(** A retry counter as the code leaves it: not NULL and not negative. *)
Definition retry_count_ok (j : JobQueue) : Prop :=
  exists n, RetryCount j = Some n /\ 0 <= n.

(** What holds of the job table besides the primary key: AUTOINCREMENT keeps
    every id at or below its counter, and every retry counter is a number
    from 0 up. *)
Definition db_invariant (db : DB) : Prop :=
  primary_key_ok db
  /\ Forall (fun j => ID j <= job_queue_seq db) (job_queue db)
  /\ Forall retry_count_ok (job_queue db).

(** Completed and Failed, the two terminal states. *)
Definition is_terminal (status : string) : bool :=
  String.eqb status "completed" || String.eqb status "failed".

(** The status column of the job with the given id, when there is one. *)
Definition job_status (id : Z) (db : DB) : option string :=
  match GetJobByID id db with
  | Ok j => Some (Status j)
  | Err _ => None
  end.

(** Job 2 of [db_three_pending], of a type without a processor, as a claim
    hands it out. *)
Definition export_job : JobQueue :=
  {| ID := 2; JobType := "data_export"; Payload := "{hello";
     Status := "processing"; Priority := Some 5; MaxRetries := Some 3;
     RetryCount := Some 0; ErrorMessage := None;
     ScheduledAt := Some "2024-01-01 12:00:02.5 +0000 UTC m=+0.100000001";
     StartedAt := None; CompletedAt := None;
     CreatedAt := Some "2024-01-01 12:00:02" |}.

(** ** Sequences of calls *)

(** One call of the job queue service, of the worker or of CreateUser, with
    its arguments and the clock readings it sees. *)
Inductive call : Type :=
| call_EnqueueJob (jobType : string) (payload : JobPayload)
    (priority : Z) (time_Now current_timestamp : string)
| call_GetNextJob (time_Now current_timestamp : string)
| call_CompleteJob (jobID : Z) (time_Now : string)
| call_FailJob (jobID : Z) (errorMessage : string) (retry : bool)
    (time_Now current_timestamp : string)
| call_process_claimed (processors : gmap string JobProcessor) (job : JobQueue)
    (time_Now current_timestamp : string)
| call_processNextJob (processors : gmap string JobProcessor)
    (claim_Now claim_timestamp report_Now report_timestamp : string)
| call_CreateUser (userReq : UserRequest) (additionalProps : list (string * any))
    (time_Now current_timestamp : string).

Section Calls.
Context {EJ : EncodingJson}.

(** The database after a call. *)
Definition run_call (c : call) (db : DB) : DB :=
  match c with
  | call_EnqueueJob jobType payload priority t ts =>
      snd (EnqueueJob jobType payload priority t ts db)
  | call_GetNextJob t ts => snd (GetNextJob t ts db)
  | call_CompleteJob jobID t => snd (CompleteJob jobID t db)
  | call_FailJob jobID msg retry t ts => snd (FailJob jobID msg retry t ts db)
  | call_process_claimed processors job t ts =>
      process_claimed processors job t ts db
  | call_processNextJob processors claim_Now claim_timestamp
      report_Now report_timestamp =>
      processNextJob processors claim_Now claim_timestamp
        report_Now report_timestamp db
  | call_CreateUser userReq additionalProps t ts =>
      snd (fst (CreateUser userReq additionalProps t ts db))
  end.

(** The database after a sequence of calls, run one after the other. *)
Fixpoint run_calls (cs : list call) (db : DB) : DB :=
  match cs with
  | [] => db
  | c :: rest => run_calls rest (run_call c db)
  end.

End Calls.

(** The columns no statement of queries.sql assigns after the INSERT. *)
Definition same_job (a b : JobQueue) : Prop :=
  ID a = ID b /\ JobType a = JobType b /\ Payload a = Payload b
  /\ Priority a = Priority b /\ MaxRetries a = MaxRetries b
  /\ CreatedAt a = CreatedAt b.

(** How a row may differ after a call: the columns of [same_job] agree and
    the retry counter has not gone down. *)
Definition evolves (a b : JobQueue) : Prop :=
  same_job a b
  /\ forall n, RetryCount a = Some n -> exists m, RetryCount b = Some m /\ n <= m.

(** The four values the code writes into the status column. *)
Definition status_ok (j : JobQueue) : Prop :=
  Status j = "pending" \/ Status j = "processing"
  \/ Status j = "completed" \/ Status j = "failed".

(** Every row of the job table has one of the four statuses. *)
Definition statuses_ok (db : DB) : Prop := Forall status_ok (job_queue db).

(** What the schema keeps of the users table: ids and emails are unique, no
    id is above the AUTOINCREMENT counter, no age is negative. *)
Definition users_invariant (db : DB) : Prop :=
  List.NoDup (map User_ID (users db))
  /\ List.NoDup (map User_Email (users db))
  /\ Forall (fun u => User_ID u <= users_seq db) (users db)
  /\ Forall (fun u => 0 <= User_Age u) (users db).

(** A stand-in for the decoding of a request body: the email is read from
    the key "email", the age from the key "age". *)
Definition sample_decoder : RequestDecoder :=
  {| decode_UserRequest := fun body =>
       match body !! "email", body !! "age" with
       | Some (AnyString email), Some (AnyInt age) =>
           Ok {| req_Email := email; req_Age := age; req_Name := None;
                 req_Bio := None; req_IsActive := None |}
       | _, _ => Err (json_Err "json: cannot unmarshal")
       end |}.

(** A stand-in for strconv.Atoi that knows two numerals. *)
Definition sample_strconv : Strconv :=
  {| strconv_Atoi := fun s =>
       if String.eqb s "7" then Ok 7
       else if String.eqb s "0" then Ok 0
       else Err (json_Err "strconv.Atoi: invalid syntax") |}.

(** A request body with the two required fields and two more. *)
Definition sample_body : gmap string any :=
  <["email" := AnyString "b@example.com"]> (<["age" := AnyInt 41]>
    (<["hobby" := AnyString "chess"]> (<["score" := AnyInt 9]> ∅))).

(** The database after [sample_request] was created in second 05. *)
Definition db_one_user : DB :=
  snd (fst (CreateUser (EJ := sample_json) sample_request []
              (time_Now_at "05") (current_timestamp_at "05") empty_db)).

(** An update of every column of that user that UpdateUser can write. *)
Definition sample_update : UpdateUserParams :=
  {| uu_Email := "c@example.com"; uu_Age := 31; uu_Name := Some "C";
     uu_Bio := Some "hello"; uu_IsActive := false;
     uu_AdditionalData := Some "{}"; uu_ID := 1 |}.

(** The user that [db_one_user] holds, as CreateUser returned it. *)
Definition sample_user : GeneratedUser :=
  {| gen_Id := 1; gen_Email := "a@example.com"; gen_Age := 30;
     gen_Name := Some "A"; gen_Bio := None; gen_IsActive := Some true |}.

(** The in-memory handler after one successful CreateUser per request, in
    the order of the list. *)
Definition InMemory_create_all (reqs : list UserRequest)
    (h : InMemoryUserHandler) : InMemoryUserHandler :=
  fold_left (fun h req => snd (InMemory_CreateUser (Ok req) h)) reqs h.

(** [a <= b] on a nullable column, NULL below every value. *)
Definition null_le (a b : option Z) : Prop :=
  match a, b with
  | None, _ => True
  | Some _, None => False
  | Some x, Some y => x <= y
  end.

(** The same on a nullable text column, texts in the order of the collation
    BINARY. *)
Definition null_le_text (a b : option string) : Prop :=
  match a, b with
  | None, _ => True
  | Some _, None => False
  | Some x, Some y => String.leb x y = true
  end.

(** * Properties *)

(** ** Rows under UPDATE ... WHERE id = ? *)

Lemma filter_update_same (id : Z) (set : JobQueue -> JobQueue) (rows : list JobQueue) :
  (forall j, ID (set j) = ID j) ->
  List.filter (fun j => ID j =? id) (update_where_id id set rows)
  = map set (List.filter (fun j => ID j =? id) rows).
Proof.
  intros Hid. induction rows as [|r rows IH]; simpl; [reflexivity|].
  destruct (ID r =? id) eqn:E; simpl.
  - rewrite Hid, E. simpl. now rewrite <- IH.
  - rewrite E. exact IH.
Qed.

Lemma filter_update_other (id id' : Z) (set : JobQueue -> JobQueue)
    (rows : list JobQueue) :
  (forall j, ID (set j) = ID j) -> id' <> id ->
  List.filter (fun j => ID j =? id') (update_where_id id set rows)
  = List.filter (fun j => ID j =? id') rows.
Proof.
  intros Hid Hne. induction rows as [|r rows IH]; simpl; [reflexivity|].
  destruct (ID r =? id) eqn:E.
  - rewrite Hid. apply Z.eqb_eq in E.
    assert ((ID r =? id') = false) as -> by (apply Z.eqb_neq; congruence).
    exact IH.
  - destruct (ID r =? id'); [f_equal|]; exact IH.
Qed.

Lemma UpdateJobStatus_set_ID (arg : UpdateJobStatusParams) (j : JobQueue) :
  ID (UpdateJobStatus_set arg j) = ID j.
Proof. reflexivity. Qed.

Lemma IncrementJobRetry_set_ID (arg : IncrementJobRetryParams) (t : string) (j : JobQueue) :
  ID (IncrementJobRetry_set arg t j) = ID j.
Proof. reflexivity. Qed.

(** UpdateJobStatus, called for a row that exists, returns and stores that
    row with the four columns overwritten. *)
Lemma UpdateJobStatus_found (arg : UpdateJobStatusParams) (db : DB) (j : JobQueue) :
  GetJobByID (uj_ID arg) db = Ok j ->
  fst (UpdateJobStatus arg db) = Ok (UpdateJobStatus_set arg j)
  /\ GetJobByID (uj_ID arg) (snd (UpdateJobStatus arg db))
     = Ok (UpdateJobStatus_set arg j).
Proof.
  unfold GetJobByID, UpdateJobStatus, returning_one. simpl. intros H.
  rewrite filter_update_same by apply UpdateJobStatus_set_ID.
  destruct (List.filter _ (job_queue db)) as [|r rs]; [discriminate|].
  injection H as ->. split; reflexivity.
Qed.

Lemma UpdateJobStatus_missing (arg : UpdateJobStatusParams) (db : DB) :
  GetJobByID (uj_ID arg) db = Err sql_ErrNoRows ->
  UpdateJobStatus arg db = (Err sql_ErrNoRows, db).
Proof.
  unfold GetJobByID, UpdateJobStatus, returning_one. intros H.
  destruct (List.filter _ (job_queue db)) as [|r rs] eqn:F; [|discriminate].
  f_equal. destruct db as [us useq rows rseq]. simpl in *. f_equal.
  clear H. induction rows as [|r rows IH]; simpl in *; [reflexivity|].
  destruct (ID r =? uj_ID arg); [discriminate|]. f_equal. auto.
Qed.

Lemma UpdateJobStatus_other (arg : UpdateJobStatusParams) (db : DB) (id : Z) :
  id <> uj_ID arg ->
  GetJobByID id (snd (UpdateJobStatus arg db)) = GetJobByID id db.
Proof.
  intros Hne. unfold GetJobByID, UpdateJobStatus. simpl.
  now rewrite filter_update_other by (auto using UpdateJobStatus_set_ID).
Qed.

Lemma IncrementJobRetry_found (arg : IncrementJobRetryParams) (t : string) (db : DB)
    (j : JobQueue) :
  GetJobByID (ir_ID arg) db = Ok j ->
  fst (IncrementJobRetry arg t db) = Ok (IncrementJobRetry_set arg t j)
  /\ GetJobByID (ir_ID arg) (snd (IncrementJobRetry arg t db))
     = Ok (IncrementJobRetry_set arg t j).
Proof.
  unfold GetJobByID, IncrementJobRetry, returning_one. simpl. intros H.
  rewrite filter_update_same by apply IncrementJobRetry_set_ID.
  destruct (List.filter _ (job_queue db)) as [|r rs]; [discriminate|].
  injection H as ->. split; reflexivity.
Qed.

Lemma IncrementJobRetry_other (arg : IncrementJobRetryParams) (t : string) (db : DB)
    (id : Z) :
  id <> ir_ID arg ->
  GetJobByID id (snd (IncrementJobRetry arg t db)) = GetJobByID id db.
Proof.
  intros Hne. unfold GetJobByID, IncrementJobRetry. simpl.
  now rewrite filter_update_other by (auto using IncrementJobRetry_set_ID).
Qed.

(** The service calls, for a job that exists. *)
Lemma CompleteJob_found (id : Z) (t : string) (db : DB) (j : JobQueue) :
  GetJobByID id db = Ok j ->
  fst (CompleteJob id t db) = None
  /\ GetJobByID id (snd (CompleteJob id t db))
     = Ok (UpdateJobStatus_set
             {| uj_ID := id; uj_Status := "completed"; uj_StartedAt := None;
                uj_CompletedAt := Some t; uj_ErrorMessage := None |} j).
Proof.
  intros H. unfold CompleteJob.
  set (arg := {| uj_ID := id |}).
  destruct (UpdateJobStatus_found arg db j H) as [H1 H2].
  destruct (UpdateJobStatus arg db) as [[r|e] db']; simpl in *.
  - split; [reflexivity | exact H2].
  - discriminate.
Qed.

Lemma FailJob_final_found (id : Z) (msg : string) (t ts : string) (db : DB) (j : JobQueue) :
  GetJobByID id db = Ok j ->
  fst (FailJob id msg false t ts db) = None
  /\ GetJobByID id (snd (FailJob id msg false t ts db))
     = Ok (UpdateJobStatus_set
             {| uj_ID := id; uj_Status := "failed"; uj_StartedAt := None;
                uj_CompletedAt := Some t; uj_ErrorMessage := Some msg |} j).
Proof.
  intros H. unfold FailJob.
  set (arg := {| uj_ID := id |}).
  destruct (UpdateJobStatus_found arg db j H) as [H1 H2].
  destruct (UpdateJobStatus arg db) as [[r|e] db']; simpl in *.
  - split; [reflexivity | exact H2].
  - discriminate.
Qed.

Lemma FailJob_retry_found (id : Z) (msg : string) (t ts : string) (db : DB) (j : JobQueue) :
  GetJobByID id db = Ok j ->
  fst (FailJob id msg true t ts db) = None
  /\ GetJobByID id (snd (FailJob id msg true t ts db))
     = Ok (IncrementJobRetry_set
             {| ir_ID := id; ir_ErrorMessage := Some msg |} ts j).
Proof.
  intros H. unfold FailJob.
  set (arg := {| ir_ID := id |}).
  destruct (IncrementJobRetry_found arg ts db j H) as [H1 H2].
  destruct (IncrementJobRetry arg ts db) as [[r|e] db']; simpl in *.
  - split; [reflexivity | exact H2].
  - discriminate.
Qed.

Lemma CompleteJob_other (id id' : Z) (t : string) (db : DB) :
  id' <> id ->
  GetJobByID id' (snd (CompleteJob id t db)) = GetJobByID id' db.
Proof.
  intros Hne. unfold CompleteJob.
  set (arg := {| uj_ID := id |}).
  pose proof (UpdateJobStatus_other arg db id' Hne) as H.
  destruct (UpdateJobStatus arg db) as [[r|e] db']; exact H.
Qed.

Lemma FailJob_other (id id' : Z) (msg : string) (retry : bool) (t ts : string) (db : DB) :
  id' <> id ->
  GetJobByID id' (snd (FailJob id msg retry t ts db)) = GetJobByID id' db.
Proof.
  intros Hne. unfold FailJob. destruct retry.
  - set (arg := {| ir_ID := id |}).
    pose proof (IncrementJobRetry_other arg ts db id' Hne) as H.
    destruct (IncrementJobRetry arg ts db) as [[r|e] db']; exact H.
  - set (arg := {| uj_ID := id |}).
    pose proof (UpdateJobStatus_other arg db id' Hne) as H.
    destruct (UpdateJobStatus arg db) as [[r|e] db']; exact H.
Qed.

(** ** ORDER BY priority DESC, scheduled_at ASC *)

Lemma null_compare_le (a b : option Z) :
  null_compare a b <> Gt <-> null_le a b.
Proof.
  destruct a as [x|], b as [y|]; simpl.
  - apply Z.compare_le_iff.
  - split; [congruence | tauto].
  - split; [tauto | congruence].
  - split; [tauto | congruence].
Qed.

Lemma null_compare_eq (a b : option Z) : null_compare a b = Eq <-> a = b.
Proof.
  destruct a as [x|], b as [y|]; simpl; try (split; congruence).
  rewrite Z.compare_eq_iff. split; congruence.
Qed.

Lemma null_compare_lt_gt (a b : option Z) :
  null_compare a b = Lt <-> null_compare b a = Gt.
Proof.
  destruct a as [x|], b as [y|]; simpl; try (split; congruence).
  rewrite (Z.compare_antisym x y).
  destruct (x ?= y); simpl; split; congruence.
Qed.

Lemma null_le_trans (a b c : option Z) : null_le a b -> null_le b c -> null_le a c.
Proof. destruct a, b, c; simpl; try tauto; lia. Qed.

Lemma null_le_antisym (a b : option Z) : null_le a b -> null_le b a -> a = b.
Proof. destruct a, b; simpl; try tauto. intros. f_equal. lia. Qed.

Lemma null_le_total (a b : option Z) : null_le a b \/ null_le b a.
Proof. destruct a, b; simpl; try tauto. lia. Qed.

(** The order of texts is a total order. *)
Lemma String_compare_refl (s : string) : String.compare s s = Eq.
Proof. now apply OrderedTypeEx.String_as_OT.cmp_eq. Qed.

Lemma String_compare_trans (a b c : string) :
  String.compare a b = Lt -> String.compare b c = Lt -> String.compare a c = Lt.
Proof.
  intros H1 H2. apply OrderedTypeEx.String_as_OT.cmp_lt.
  apply OrderedTypeEx.String_as_OT.cmp_lt in H1, H2.
  eapply OrderedTypeEx.String_as_OT.lt_trans; eassumption.
Qed.

Lemma String_leb_compare (a b : string) :
  String.leb a b = true <-> String.compare a b <> Gt.
Proof.
  unfold String.leb. destruct (String.compare a b); split; congruence.
Qed.

Lemma String_leb_refl (s : string) : String.leb s s = true.
Proof. apply String_leb_compare. rewrite String_compare_refl. discriminate. Qed.

Lemma String_leb_trans (a b c : string) :
  String.leb a b = true -> String.leb b c = true -> String.leb a c = true.
Proof.
  rewrite !String_leb_compare. intros H1 H2.
  destruct (String.compare a b) eqn:E1; [| |congruence].
  - apply String.compare_eq_iff in E1. now subst b.
  - destruct (String.compare b c) eqn:E2; [| |congruence].
    + apply String.compare_eq_iff in E2. subst c. now rewrite E1.
    + now rewrite (String_compare_trans a b c E1 E2).
Qed.

Lemma String_leb_total (a b : string) :
  String.leb a b = true \/ String.leb b a = true.
Proof.
  rewrite !String_leb_compare, (String.compare_antisym a b).
  destruct (String.compare b a); simpl; [left | right | left]; congruence.
Qed.

Lemma null_compare_text_le (a b : option string) :
  null_compare_text a b <> Gt <-> null_le_text a b.
Proof.
  destruct a as [x|], b as [y|]; simpl.
  - symmetry. apply String_leb_compare.
  - split; [congruence | tauto].
  - split; [tauto | congruence].
  - split; [tauto | congruence].
Qed.

Lemma null_compare_text_eq (a b : option string) :
  null_compare_text a b = Eq <-> a = b.
Proof.
  destruct a as [x|], b as [y|]; simpl; try (split; congruence).
  split.
  - intros H. apply String.compare_eq_iff in H. congruence.
  - intros H. injection H as ->. apply String_compare_refl.
Qed.

Lemma null_compare_text_lt_gt (a b : option string) :
  null_compare_text a b = Lt <-> null_compare_text b a = Gt.
Proof.
  destruct a as [x|], b as [y|]; simpl; try (split; congruence).
  rewrite (String.compare_antisym x y).
  destruct (String.compare y x); simpl; split; congruence.
Qed.

Lemma null_le_text_trans (a b c : option string) :
  null_le_text a b -> null_le_text b c -> null_le_text a c.
Proof.
  destruct a, b, c; simpl; try tauto. apply String_leb_trans.
Qed.

Lemma null_le_text_total (a b : option string) :
  null_le_text a b \/ null_le_text b a.
Proof. destruct a, b; simpl; try tauto. apply String_leb_total. Qed.

(** [order_le] in words: a strictly higher priority, or the same priority
    and a scheduled_at whose text is not above. *)
Lemma order_le_spec (a b : JobQueue) :
  order_le a b = true <->
  (null_le (Priority b) (Priority a)
   /\ (Priority b = Priority a ->
       null_le_text (ScheduledAt a) (ScheduledAt b))).
Proof.
  unfold order_le.
  destruct (null_compare (Priority b) (Priority a)) eqn:P.
  - apply null_compare_eq in P as HP.
    destruct (null_compare_text (ScheduledAt a) (ScheduledAt b)) eqn:S.
    + split; [|reflexivity]. intros _. split.
      * apply null_compare_le. congruence.
      * intros _. apply null_compare_text_le. congruence.
    + split; [|reflexivity]. intros _. split.
      * apply null_compare_le. congruence.
      * intros _. apply null_compare_text_le. congruence.
    + split; [discriminate|]. intros [_ H]. specialize (H HP).
      apply null_compare_text_le in H. congruence.
  - split; [|reflexivity]. intros _. split.
    + apply null_compare_le. congruence.
    + intros E. apply null_compare_eq in E. congruence.
  - split; [discriminate|]. intros [H _].
    apply null_compare_le in H. congruence.
Qed.

Lemma order_le_refl (a : JobQueue) : order_le a a = true.
Proof.
  apply order_le_spec. split.
  - destruct (Priority a); simpl; [lia | exact I].
  - intros _. destruct (ScheduledAt a); simpl;
      [apply String_leb_refl | exact I].
Qed.

Lemma order_le_total (a b : JobQueue) : order_le a b = false -> order_le b a = true.
Proof.
  unfold order_le.
  destruct (null_compare (Priority b) (Priority a)) eqn:P.
  - destruct (null_compare_text (ScheduledAt a) (ScheduledAt b)) eqn:S;
      try discriminate.
    intros _. apply null_compare_eq in P.
    assert (null_compare (Priority a) (Priority b) = Eq) as ->
      by (apply null_compare_eq; congruence).
    apply null_compare_text_lt_gt in S. now rewrite S.
  - discriminate.
  - intros _. apply null_compare_lt_gt in P. now rewrite P.
Qed.

Lemma order_le_trans (a b c : JobQueue) :
  order_le a b = true -> order_le b c = true -> order_le a c = true.
Proof.
  rewrite !order_le_spec. intros [P1 S1] [P2 S2]. split.
  - eapply null_le_trans; eassumption.
  - intros E.
    assert (Priority b = Priority a) as Eba.
    { apply null_le_antisym; [exact P1 | rewrite <- E; exact P2]. }
    assert (Priority c = Priority b) as Ecb by congruence.
    eapply null_le_text_trans; eauto.
Qed.

Lemma order_insert_In (x y : JobQueue) (l : list JobQueue) :
  In y (order_insert x l) <-> y = x \/ In y l.
Proof.
  induction l as [|h l IH]; simpl.
  - intuition.
  - destruct (order_le x h); simpl; rewrite ?IH; intuition.
Qed.

Lemma order_by_In (y : JobQueue) (l : list JobQueue) :
  In y (order_by l) <-> In y l.
Proof.
  induction l as [|h l IH]; simpl; [reflexivity|].
  rewrite order_insert_In, IH. intuition.
Qed.

(** The first row of the sorted list stands before every row. *)
Lemma order_by_head (l : list JobQueue) (j : JobQueue) (rest : list JobQueue) :
  order_by l = j :: rest ->
  forall y, In y l -> order_le j y = true.
Proof.
  revert j rest. induction l as [|x l IH]; intros j rest H y Hy.
  - destruct Hy.
  - simpl in H.
    destruct (order_by l) as [|h t] eqn:S.
    + simpl in H. injection H as <- <-.
      destruct Hy as [<-|Hy]; [apply order_le_refl|].
      apply order_by_In in Hy. rewrite S in Hy. destruct Hy.
    + specialize (IH h t eq_refl). simpl in H.
      destruct (order_le x h) eqn:E.
      * injection H as <- <-.
        destruct Hy as [<-|Hy]; [apply order_le_refl|].
        eapply order_le_trans; [exact E | apply IH; exact Hy].
      * injection H as <- <-.
        destruct Hy as [<-|Hy]; [apply order_le_total; exact E|].
        apply IH; exact Hy.
Qed.

(** ** GetNextPendingJob *)

Lemma GetNextPendingJob_Ok (ts : string) (db : DB) (j : JobQueue) :
  GetNextPendingJob ts db = Ok j ->
  In j (job_queue db) /\ eligible ts j = true
  /\ forall other, In other (job_queue db) -> eligible ts other = true ->
       order_le j other = true.
Proof.
  unfold GetNextPendingJob. intros H.
  destruct (order_by (List.filter (eligible ts) (job_queue db))) as [|h t] eqn:S;
    [discriminate|].
  injection H as ->.
  assert (In j (List.filter (eligible ts) (job_queue db))) as Hin.
  { apply order_by_In. rewrite S. now left. }
  apply filter_In in Hin. destruct Hin as [Hin He].
  repeat split; try assumption.
  intros other Ho Hoe. eapply order_by_head; [exact S|].
  apply filter_In. now split.
Qed.

Lemma GetNextPendingJob_some (ts : string) (db : DB) (j : JobQueue) :
  In j (job_queue db) -> eligible ts j = true ->
  exists best, GetNextPendingJob ts db = Ok best.
Proof.
  intros Hin He. unfold GetNextPendingJob.
  destruct (order_by (List.filter (eligible ts) (job_queue db))) as [|h t] eqn:S.
  - exfalso.
    assert (In j (order_by (List.filter (eligible ts) (job_queue db)))) as H.
    { apply order_by_In. apply filter_In. now split. }
    rewrite S in H. destruct H.
  - now exists h.
Qed.

Lemma GetNextPendingJob_none (ts : string) (db : DB) :
  (forall j, In j (job_queue db) -> eligible ts j = false) ->
  GetNextPendingJob ts db = Err sql_ErrNoRows.
Proof.
  intros H. unfold GetNextPendingJob.
  destruct (order_by (List.filter (eligible ts) (job_queue db))) as [|h t] eqn:S;
    [reflexivity|].
  assert (In h (List.filter (eligible ts) (job_queue db))) as Hin.
  { apply order_by_In. rewrite S. now left. }
  apply filter_In in Hin. destruct Hin as [Hin He].
  rewrite (H h Hin) in He. discriminate.
Qed.

(** A row of the table answers to its own id. *)
Lemma GetJobByID_In (db : DB) (j : JobQueue) :
  In j (job_queue db) -> exists r, GetJobByID (ID j) db = Ok r.
Proof.
  intros Hin. unfold GetJobByID.
  destruct (List.filter (fun r => ID r =? ID j) (job_queue db)) as [|h t] eqn:F.
  - exfalso.
    assert (In j (List.filter (fun r => ID r =? ID j) (job_queue db))) as H.
    { apply filter_In. split; [exact Hin | apply Z.eqb_refl]. }
    rewrite F in H. destruct H.
  - now exists h.
Qed.

Lemma GetJobByID_Ok (db : DB) (id : Z) (r : JobQueue) :
  GetJobByID id db = Ok r -> In r (job_queue db) /\ ID r = id.
Proof.
  unfold GetJobByID. intros H.
  destruct (List.filter (fun r => ID r =? id) (job_queue db)) as [|h t] eqn:F;
    [discriminate|].
  injection H as ->.
  assert (In r (List.filter (fun r => ID r =? id) (job_queue db))) as Hin
    by (rewrite F; now left).
  apply filter_In in Hin. destruct Hin as [Hin E].
  split; [exact Hin | now apply Z.eqb_eq].
Qed.

(** Under the primary key, the row of a given id is the only one. *)
Lemma GetJobByID_unique (db : DB) (j : JobQueue) :
  primary_key_ok db -> In j (job_queue db) -> GetJobByID (ID j) db = Ok j.
Proof.
  unfold primary_key_ok, GetJobByID. intros Hnd Hin.
  induction (job_queue db) as [|r rows IH]; [destruct Hin|].
  simpl in *. inversion Hnd as [|? ? Hnotin Hnd']; subst.
  destruct Hin as [->|Hin].
  - now rewrite Z.eqb_refl.
  - destruct (ID r =? ID j) eqn:E.
    + exfalso. apply Z.eqb_eq in E. apply Hnotin. rewrite E.
      now apply in_map.
    + now apply IH.
Qed.

(** ** GetNextJob *)

Lemma claim_update_found (t : string) (db : DB) (j : JobQueue) :
  In j (job_queue db) ->
  exists r,
    UpdateJobStatus (claim_params (ID j) t) db
    = (Ok r, snd (UpdateJobStatus (claim_params (ID j) t) db))
    /\ exists r', GetJobByID (ID j)
                    (snd (UpdateJobStatus (claim_params (ID j) t) db)) = Ok r'.
Proof.
  intros Hin. destruct (GetJobByID_In db j Hin) as [r Hr].
  destruct (UpdateJobStatus_found (claim_params (ID j) t) db r Hr) as [H1 H2].
  exists (UpdateJobStatus_set (claim_params (ID j) t) r). split.
  - destruct (UpdateJobStatus (claim_params (ID j) t) db) as [res db'].
    simpl in *. now rewrite H1.
  - eexists. exact H2.
Qed.

Lemma GetNextJob_selected (t ts : string) (db : DB) (j : JobQueue) :
  GetNextPendingJob ts db = Ok j ->
  GetNextJob t ts db
  = (Ok (Some (mark_processing j)),
     snd (UpdateJobStatus (claim_params (ID j) t) db)).
Proof.
  intros H. unfold GetNextJob. rewrite H.
  apply GetNextPendingJob_Ok in H. destruct H as [Hin _].
  destruct (claim_update_found t db j Hin) as (r & -> & _). reflexivity.
Qed.

(** The two statements of one caller, run back to back, are GetNextJob. *)
Lemma GetNextJob_two_steps (t ts : string) (db : DB) :
  run_schedule [(0%nat, ts); (0%nat, t)] [ClaimStart] db
  = ([ClaimReturned (fst (GetNextJob t ts db))], snd (GetNextJob t ts db)).
Proof.
  unfold GetNextJob. cbn -[UpdateJobStatus GetNextPendingJob].
  destruct (GetNextPendingJob ts db) as [j|e] eqn:S.
  - cbn -[UpdateJobStatus GetNextPendingJob].
    destruct (UpdateJobStatus (claim_params (ID j) t) db) as [[r|e] db'];
      reflexivity.
  - destruct e; reflexivity.
Qed.

(** Two calls of GetNextJob, one after the other, never hand out one id
    twice: the first call leaves every row of that id in status
    'processing'. *)
Lemma GetNextJob_twice_distinct (t1 ts1 t2 ts2 : string) (db db1 db2 : DB)
    (j1 j2 : JobQueue) :
  GetNextJob t1 ts1 db = (Ok (Some j1), db1) ->
  GetNextJob t2 ts2 db1 = (Ok (Some j2), db2) ->
  ID j1 <> ID j2.
Proof.
  intros H1 H2.
  destruct (GetNextPendingJob ts1 db) as [b1|e1] eqn:S1.
  2:{ unfold GetNextJob in H1. rewrite S1 in H1. destruct e1; discriminate. }
  destruct (GetNextPendingJob ts2 db1) as [b2|e2] eqn:S2.
  2:{ unfold GetNextJob in H2. rewrite S2 in H2. destruct e2; discriminate. }
  rewrite (GetNextJob_selected t1 ts1 db b1 S1) in H1.
  rewrite (GetNextJob_selected t2 ts2 db1 b2 S2) in H2.
  injection H1 as <- <-. injection H2 as <- <-. simpl.
  apply GetNextPendingJob_Ok in S2. destruct S2 as (Hin & He & _).
  simpl in Hin. unfold update_where_id in Hin.
  apply in_map_iff in Hin. destruct Hin as (r & Hr & _).
  intros E. unfold eligible in He.
  destruct (ID r =? ID b1) eqn:T.
  - subst b2. simpl in He. discriminate.
  - subst b2. apply Z.eqb_neq in T. congruence.
Qed.

(** C1, as the code has it: when the SELECTs of two callers both run before
    either UPDATE, both calls of GetNextJob return the same job. *)
Theorem GetNextJob_interleaved_duplicate (t t1 t2 : string) (db : DB) (j : JobQueue) :
  GetNextPendingJob t db = Ok j ->
  exists db',
    run_schedule [(0%nat, t); (1%nat, t); (0%nat, t1); (1%nat, t2)]
                 [ClaimStart; ClaimStart] db
    = ([ClaimReturned (Ok (Some (mark_processing j)));
        ClaimReturned (Ok (Some (mark_processing j)))], db').
Proof.
  intros S. pose proof (GetNextPendingJob_Ok t db j S) as (Hin & _).
  destruct (claim_update_found t1 db j Hin) as (r1 & U1 & r1' & G1).
  remember (snd (UpdateJobStatus (claim_params (ID j) t1) db)) as db1 eqn:D1.
  apply GetJobByID_Ok in G1. destruct G1 as [Hin1 E1].
  destruct (claim_update_found t2 db1 r1' Hin1) as (r2 & U2 & _).
  rewrite E1 in U2.
  exists (snd (UpdateJobStatus (claim_params (ID j) t2) db1)).
  cbn -[UpdateJobStatus GetNextPendingJob]. rewrite S.
  cbn -[UpdateJobStatus GetNextPendingJob]. rewrite S.
  cbn -[UpdateJobStatus GetNextPendingJob]. rewrite U1.
  cbn -[UpdateJobStatus GetNextPendingJob]. rewrite U2.
  reflexivity.
Qed.

Lemma GetNextJob_interleaved_duplicate_witness :
  exists db',
    run_schedule [(0%nat, current_timestamp_at "10");
                  (1%nat, current_timestamp_at "10");
                  (0%nat, time_Now_at "11"); (1%nat, time_Now_at "12")]
                 [ClaimStart; ClaimStart] db_one_pending
    = ([ClaimReturned (Ok (Some (mark_processing email_job)));
        ClaimReturned (Ok (Some (mark_processing email_job)))], db').
Proof.
  apply (GetNextJob_interleaved_duplicate (current_timestamp_at "10")
           (time_Now_at "11") (time_Now_at "12") db_one_pending email_job).
  vm_compute. reflexivity.
Defined.

(** Among the jobs its WHERE clause accepts, GetNextJob returns one of the
    highest priority and, among those, of the lowest scheduled_at text; when
    the clause accepts no job it returns none and leaves the database as it
    was. *)
Lemma GetNextJob_best_accepted (time_Now current_timestamp : string) (db : DB) :
  ((exists j, In j (job_queue db) /\ eligible current_timestamp j = true) ->
   exists best db',
     GetNextJob time_Now current_timestamp db
     = (Ok (Some (mark_processing best)), db')
     /\ In best (job_queue db)
     /\ eligible current_timestamp best = true
     /\ forall other,
          In other (job_queue db) -> eligible current_timestamp other = true ->
          null_le (Priority other) (Priority best)
          /\ (Priority other = Priority best ->
              null_le_text (ScheduledAt best) (ScheduledAt other)))
  /\ ((forall j, In j (job_queue db) -> eligible current_timestamp j = false) ->
      GetNextJob time_Now current_timestamp db = (Ok None, db)).
Proof.
  split.
  - intros (j & Hin & He).
    destruct (GetNextPendingJob_some current_timestamp db j Hin He) as [best S].
    exists best. eexists. split.
    + apply GetNextJob_selected. exact S.
    + apply GetNextPendingJob_Ok in S. destruct S as (Hb & Hbe & Hbest).
      repeat split; try assumption.
      * specialize (Hbest other H H0). apply order_le_spec in Hbest. tauto.
      * specialize (Hbest other H H0). apply order_le_spec in Hbest. tauto.
  - intros Hnone. unfold GetNextJob.
    now rewrite (GetNextPendingJob_none current_timestamp db Hnone).
Qed.

(** A text that CURRENT_TIMESTAMP stands strictly below is not at or below
    CURRENT_TIMESTAMP. *)
Lemma sql_text_le_above (scheduled current_timestamp : string) :
  String.ltb current_timestamp scheduled = true ->
  sql_text_le (Some scheduled) (Some current_timestamp) = false.
Proof.
  unfold String.ltb, sql_text_le, String.leb.
  rewrite (String.compare_antisym scheduled current_timestamp).
  destruct (String.compare current_timestamp scheduled); simpl; congruence.
Qed.

(** C2, as the code has it.  Which jobs are due is decided by comparing the
    text stored in scheduled_at with the text of CURRENT_TIMESTAMP, not the
    moments the two texts stand for: when the text of CURRENT_TIMESTAMP is
    strictly below the scheduled_at text of every pending job, GetNextJob
    returns none, whatever priorities and retry counters the jobs have.
    EnqueueJob stores the driver's text of time.Now(), in the zone of the
    host and with fractions of a second, so this is the case for a job
    claimed in the second in which it was enqueued, and, on a host east of
    UTC, for as many hours as its zone is ahead. *)
Theorem GetNextJob_compares_texts (time_Now current_timestamp : string)
    (db : DB) :
  (forall j, In j (job_queue db) -> Status j = "pending" ->
     exists scheduled,
       ScheduledAt j = Some scheduled
       /\ String.ltb current_timestamp scheduled = true) ->
  GetNextJob time_Now current_timestamp db = (Ok None, db).
Proof.
  intros H. unfold GetNextJob.
  rewrite GetNextPendingJob_none; [reflexivity|].
  intros j Hin. unfold eligible.
  destruct (String.eqb_spec (Status j) "pending") as [P|P]; [|reflexivity].
  destruct (H j Hin P) as (scheduled & -> & Hlt).
  now rewrite (sql_text_le_above scheduled current_timestamp Hlt).
Qed.

Lemma GetNextJob_compares_texts_witness :
  GetJobByID 1 db_one_pending_jst = Ok email_job_jst
  /\ GetNextJob "2024-01-01 21:00:03.5 +0900 JST m=+3.100000001"
       "2024-01-01 12:00:03" db_one_pending_jst
     = (Ok None, db_one_pending_jst).
Proof.
  split; [vm_compute; reflexivity|].
  apply (GetNextJob_compares_texts
           "2024-01-01 21:00:03.5 +0900 JST m=+3.100000001"
           "2024-01-01 12:00:03" db_one_pending_jst).
  intros j Hin _. vm_compute in Hin. destruct Hin as [<-|[]].
  eexists. split; [reflexivity | vm_compute; reflexivity].
Defined.

(** The same on a host whose zone is UTC, for a claim in the second of the
    EnqueueJob: the stored text goes on after the seconds, so it is above
    the text of CURRENT_TIMESTAMP. *)
Lemma GetNextJob_same_second :
  GetNextJob (time_Now_at "00") (current_timestamp_at "00") db_one_pending
  = (Ok None, db_one_pending).
Proof. vm_compute. reflexivity. Qed.

(** ** FailJob with retry *)

(** The row IncrementJobRetry writes. *)
Lemma IncrementJobRetry_set_row (arg : IncrementJobRetryParams) (ts : string)
    (j : JobQueue) :
  ScheduledAt (IncrementJobRetry_set arg ts j) = None
  /\ RetryCount (IncrementJobRetry_set arg ts j) = sql_add (RetryCount j) 1
  /\ Status (IncrementJobRetry_set arg ts j) = "pending"
  /\ MaxRetries (IncrementJobRetry_set arg ts j) = MaxRetries j.
Proof.
  simpl. unfold datetime_number_modifier.
  destruct (sql_mul _ 5); repeat split.
Qed.

(** C5, as the code has it.  FailJob with retry adds exactly 1 to
    retry_count and puts the job back to 'pending', but what it stores in
    scheduled_at is NULL, at every retry_count, and not the time of the
    failure plus (retry_count + 1) * 5 minutes: the second argument the
    query passes to datetime is a number, which datetime does not accept as
    a modifier. *)
Theorem FailJob_retry_scheduled_at_null (jobID : Z) (errorMessage : string)
    (time_Now current_timestamp : string) (db : DB) (j : JobQueue)
    (retry_count : Z) :
  GetJobByID jobID db = Ok j ->
  RetryCount j = Some retry_count ->
  exists j',
    GetJobByID jobID
      (snd (FailJob jobID errorMessage true time_Now current_timestamp db))
    = Ok j'
    /\ ScheduledAt j' = None
    /\ RetryCount j' = Some (retry_count + 1)
    /\ Status j' = "pending".
Proof.
  intros Hj Hrc.
  destruct (FailJob_retry_found jobID errorMessage time_Now current_timestamp
              db j Hj) as [_ H].
  eexists. split; [exact H|].
  destruct (IncrementJobRetry_set_row
              {| ir_ID := jobID; ir_ErrorMessage := Some errorMessage |}
              current_timestamp j) as (Hs & Hr & Hst & _).
  rewrite Hrc in Hr. repeat split; assumption.
Qed.

Lemma FailJob_retry_scheduled_at_null_witness :
  exists j',
    GetJobByID 1
      (snd (FailJob 1 "timeout" true
              (time_Now_at "20") (current_timestamp_at "20") db_one_processing))
    = Ok j'
    /\ ScheduledAt j' = None
    /\ RetryCount j' = Some (0 + 1)
    /\ Status j' = "pending".
Proof.
  destruct (GetJobByID 1 db_one_processing) as [j|e] eqn:G;
    [|vm_compute in G; discriminate].
  apply (FailJob_retry_scheduled_at_null 1 "timeout"
           (time_Now_at "20") (current_timestamp_at "20") db_one_processing j 0 G).
  vm_compute in G. injection G as <-. reflexivity.
Defined.

(** ** CompleteJob *)

(** C6, as the code has it: CompleteJob sets status and completed_at, and
    it also overwrites started_at and error_message with NULL, whatever the
    claim had stored there. *)
Theorem CompleteJob_clears_started_at (jobID : Z) (time_Now : string) (db : DB) (j : JobQueue) :
  GetJobByID jobID db = Ok j ->
  exists j',
    GetJobByID jobID (snd (CompleteJob jobID time_Now db)) = Ok j'
    /\ Status j' = "completed"
    /\ CompletedAt j' = Some time_Now
    /\ StartedAt j' = None
    /\ ErrorMessage j' = None.
Proof.
  intros Hj. destruct (CompleteJob_found jobID time_Now db j Hj) as [_ H].
  eexists. split; [exact H|]. repeat split.
Qed.

Lemma CompleteJob_clears_started_at_witness :
  (exists j, GetJobByID 1 db_one_processing = Ok j
             /\ StartedAt j = Some (time_Now_at "10"))
  /\ exists j',
       GetJobByID 1 (snd (CompleteJob 1 (time_Now_at "20") db_one_processing))
       = Ok j'
       /\ Status j' = "completed"
       /\ CompletedAt j' = Some (time_Now_at "20")
       /\ StartedAt j' = None
       /\ ErrorMessage j' = None.
Proof.
  split.
  - eexists. split; vm_compute; reflexivity.
  - eapply (CompleteJob_clears_started_at 1 (time_Now_at "20")
              db_one_processing).
    vm_compute. reflexivity.
Defined.

(** ** Terminal states *)

(** C4 as stated fails: CompleteJob and FailJob, called for a job that is
    already 'failed', change its status. *)
Lemma terminal_status_overwritten :
  job_status 1 db_one_failed = Some "failed"
  /\ job_status 1 (snd (CompleteJob 1 (time_Now_at "30") db_one_failed))
     = Some "completed"
  /\ job_status 1
       (snd (FailJob 1 "again" true
               (time_Now_at "30") (current_timestamp_at "30") db_one_failed))
     = Some "pending".
Proof. repeat split; vm_compute; reflexivity. Qed.

(** C4, amended. A job that is 'completed' or 'failed' is left as it is by
    GetNextJob, and by CompleteJob and FailJob called for another id; called
    for the job's own id, CompleteJob and FailJob do not look at its status
    and overwrite it. *)
Theorem terminal_status_kept (time_Now current_timestamp : string) (db : DB) (j : JobQueue) :
  primary_key_ok db ->
  In j (job_queue db) ->
  is_terminal (Status j) = true ->
  GetJobByID (ID j) (snd (GetNextJob time_Now current_timestamp db)) = Ok j
  /\ (forall id, id <> ID j ->
        GetJobByID (ID j) (snd (CompleteJob id time_Now db)) = Ok j)
  /\ (forall id msg retry, id <> ID j ->
        GetJobByID (ID j)
          (snd (FailJob id msg retry time_Now current_timestamp db)) = Ok j)
  /\ job_status (ID j) (snd (CompleteJob (ID j) time_Now db)) = Some "completed"
  /\ (forall msg,
        job_status (ID j)
          (snd (FailJob (ID j) msg false time_Now current_timestamp db))
        = Some "failed")
  /\ (forall msg,
        job_status (ID j)
          (snd (FailJob (ID j) msg true time_Now current_timestamp db))
        = Some "pending").
Proof.
  intros Hpk Hin Hterm.
  pose proof (GetJobByID_unique db j Hpk Hin) as Hj.
  repeat split.
  - destruct (GetNextPendingJob current_timestamp db) as [b|e] eqn:S.
    + rewrite (GetNextJob_selected time_Now current_timestamp db b S).
      cbn [snd].
      apply GetNextPendingJob_Ok in S. destruct S as (Hb & He & _).
      assert (ID j <> ID b) as Hne.
      { intros E. pose proof (GetJobByID_unique db b Hpk Hb) as Hb'.
        rewrite <- E, Hj in Hb'. injection Hb' as <-.
        unfold eligible in He. unfold is_terminal in Hterm.
        destruct (String.eqb_spec (Status j) "pending") as [P|P];
          [|discriminate].
        rewrite P in Hterm. discriminate. }
      rewrite (UpdateJobStatus_other (claim_params (ID b) time_Now) db (ID j))
        by exact Hne.
      exact Hj.
    + unfold GetNextJob. rewrite S. destruct e; exact Hj.
  - intros id Hne. rewrite CompleteJob_other by congruence. exact Hj.
  - intros id msg retry Hne. rewrite FailJob_other by congruence. exact Hj.
  - unfold job_status.
    destruct (CompleteJob_found (ID j) time_Now db j Hj) as [_ ->]. reflexivity.
  - intros msg. unfold job_status.
    destruct (FailJob_final_found (ID j) msg time_Now current_timestamp db j Hj)
      as [_ ->]. reflexivity.
  - intros msg. unfold job_status.
    destruct (FailJob_retry_found (ID j) msg time_Now current_timestamp db j Hj)
      as [_ ->]. reflexivity.
Qed.

Lemma terminal_status_kept_witness :
  GetJobByID (ID failed_job)
    (snd (GetNextJob (time_Now_at "30") (current_timestamp_at "30")
            db_one_failed))
  = Ok failed_job.
Proof.
  refine (proj1 (terminal_status_kept (time_Now_at "30")
                   (current_timestamp_at "30") db_one_failed failed_job _ _ _)).
  - unfold primary_key_ok. vm_compute. constructor; [|constructor].
    intros H. destruct H.
  - vm_compute. left. reflexivity.
  - reflexivity.
Defined.

(** ** The worker's report *)

Section WorkerProperties.
Context {EJ : EncodingJson}.

Lemma process_claimed_bad_payload (processors : gmap string JobProcessor)
    (job : JobQueue) (t ts : string) (db : DB) (err : error) :
  json_Unmarshal (Payload job) = Err err ->
  process_claimed processors job t ts db
  = snd (FailJob (ID job)
           (String.append "Failed to parse payload: " (Error err)) false
           t ts db).
Proof. intros H. unfold process_claimed. now rewrite H. Qed.

Lemma process_claimed_no_processor (processors : gmap string JobProcessor)
    (job : JobQueue) (t ts : string) (db : DB) (payload : JobPayload) :
  json_Unmarshal (Payload job) = Ok payload ->
  processors !! JobType job = None ->
  process_claimed processors job t ts db
  = snd (FailJob (ID job)
           (String.append "No processor for job type: " (JobType job)) false
           t ts db).
Proof. intros H N. unfold process_claimed. now rewrite H, N. Qed.

(** C7. When the payload of a claimed job cannot be deserialized, or no
    processor is registered for its type, the worker fails the job with
    retry = false: whatever retry_count and max_retries are, the status
    becomes 'failed' and retry_count stays as it was. *)
Theorem process_claimed_permanent_failure (processors : gmap string JobProcessor)
    (job : JobQueue) (time_Now current_timestamp : string) (db : DB) (row : JobQueue) :
  GetJobByID (ID job) db = Ok row ->
  (exists err, json_Unmarshal (Payload job) = Err err)
  \/ processors !! JobType job = None ->
  exists row',
    GetJobByID (ID job)
      (process_claimed processors job time_Now current_timestamp db) = Ok row'
    /\ Status row' = "failed"
    /\ RetryCount row' = RetryCount row.
Proof.
  intros Hrow Hbad.
  destruct (json_Unmarshal (Payload job)) as [payload|err] eqn:U.
  - destruct Hbad as [[err Herr]|Hnone]; [discriminate|].
    rewrite (process_claimed_no_processor processors job time_Now
               current_timestamp db payload U Hnone).
    destruct (FailJob_final_found (ID job)
                (String.append "No processor for job type: " (JobType job))
                time_Now current_timestamp db row Hrow) as [_ H].
    eexists. split; [exact H|]. split; reflexivity.
  - rewrite (process_claimed_bad_payload processors job time_Now
               current_timestamp db err U).
    destruct (FailJob_final_found (ID job)
                (String.append "Failed to parse payload: " (Error err))
                time_Now current_timestamp db row Hrow) as [_ H].
    eexists. split; [exact H|]. split; reflexivity.
Qed.



End WorkerProperties.

Lemma process_claimed_permanent_failure_witness :
  exists row',
    GetJobByID (ID export_job)
      (process_claimed (EJ := sample_json) sample_processors export_job
         (time_Now_at "20") (current_timestamp_at "20") db_three_pending)
    = Ok row'
    /\ Status row' = "failed"
    /\ RetryCount row' = Some 0.
Proof.
  destruct (GetJobByID (ID export_job) db_three_pending) as [row|e] eqn:G;
    [|vm_compute in G; discriminate].
  assert (RetryCount row = Some 0) as <-
    by (vm_compute in G; injection G as <-; reflexivity).
  apply (process_claimed_permanent_failure (EJ := sample_json)
           sample_processors export_job
           (time_Now_at "20") (current_timestamp_at "20")
           db_three_pending row G).
  right. vm_compute. reflexivity.
Defined.


(** The round of the worker that [db_failed_once] stands for: job 1, with
    max_retries 3, is 'pending' after the first failure of its handler, with
    retry_count 1 and no scheduled_at. *)
Lemma db_failed_once_row :
  GetJobByID 1 db_failed_once
  = Ok {| ID := 1; JobType := "email_notification"; Payload := "{hello";
          Status := "pending"; Priority := Some 0;
          MaxRetries := Some 3; RetryCount := Some 1;
          ErrorMessage := Some "smtp: connection refused";
          ScheduledAt := None;
          StartedAt := Some "2024-01-01 12:00:10.5 +0000 UTC m=+0.100000001";
          CompletedAt := None; CreatedAt := Some "2024-01-01 12:00:00" |}.
Proof. vm_compute. reflexivity. Qed.

(** That job is never claimed again: at every later reading of the clocks
    GetNextJob returns none and processNextJob changes nothing. *)
Lemma db_failed_once_stuck (t ts t' ts' : string) :
  GetNextJob t ts db_failed_once = (Ok None, db_failed_once)
  /\ processNextJob (EJ := sample_json) sample_processors t ts t' ts'
       db_failed_once = db_failed_once.
Proof.
  assert (GetNextJob t ts db_failed_once = (Ok None, db_failed_once)) as H.
  { unfold GetNextJob. rewrite GetNextPendingJob_none; [reflexivity|].
    intros j Hin. vm_compute in Hin. destruct Hin as [<-|[]]. reflexivity. }
  split; [exact H|]. unfold processNextJob. now rewrite H.
Qed.

(** A job whose retry_count has reached max_retries is excluded by the
    WHERE clause of GetNextPendingJob as well. *)
Lemma exhausted_job_not_eligible (t : string) (j : JobQueue) :
  RetryCount j = MaxRetries j -> eligible t j = false.
Proof.
  intros E. unfold eligible. rewrite E.
  destruct (MaxRetries j) as [m|]; simpl.
  - rewrite Z.ltb_irrefl. apply andb_false_r.
  - apply andb_false_r.
Qed.

(** ** EnqueueJob and CreateUser *)

Section EnqueueProperties.
Context {EJ : EncodingJson}.

Lemma EnqueueJob_marshalled (jobType : string) (payload : JobPayload)
    (priority : Z) (t ts : string) (db : DB) (payloadJSON : string) :
  json_Marshal payload = Ok payloadJSON ->
  EnqueueJob jobType payload priority t ts db
  = CreateJob {| cj_JobType := jobType; cj_Payload := payloadJSON;
                 cj_Priority := Some priority; cj_MaxRetries := Some 3;
                 cj_ScheduledAt := Some t |} ts db.
Proof. intros H. unfold EnqueueJob. now rewrite H. Qed.

Lemma EnqueueJob_unmarshallable (jobType : string) (payload : JobPayload)
    (priority : Z) (t ts : string) (db : DB) (err : error) :
  json_Marshal payload = Err err ->
  EnqueueJob jobType payload priority t ts db
  = (Err (Errorf "failed to marshal payload" err), db).
Proof. intros H. unfold EnqueueJob. now rewrite H. Qed.

(** C8. A job created by a successful EnqueueJob has status 'pending',
    max_retries 3 (EnqueueJob takes no such argument) and scheduled_at equal
    to the time of the call; and EnqueueJob fails with the serialization
    error exactly when json.Marshal rejects the payload. *)
Theorem EnqueueJob_creates_pending_job (jobType : string) (payload : JobPayload)
    (priority : Z) (time_Now current_timestamp : string) (db : DB) :
  (forall job db',
     EnqueueJob jobType payload priority time_Now current_timestamp db
     = (Ok job, db') ->
     Status job = "pending"
     /\ MaxRetries job = Some 3
     /\ ScheduledAt job = Some time_Now
     /\ In job (job_queue db'))
  /\ ((exists err,
         fst (EnqueueJob jobType payload priority time_Now current_timestamp db)
         = Err (Errorf "failed to marshal payload" err))
      <-> (exists err, json_Marshal payload = Err err)).
Proof.
  split.
  - intros job db' H.
    destruct (json_Marshal payload) as [payloadJSON|err] eqn:M.
    + rewrite (EnqueueJob_marshalled _ _ _ _ _ _ _ M) in H.
      unfold CreateJob in H. injection H as <- <-. simpl.
      repeat split. apply in_or_app. right. now left.
    + rewrite (EnqueueJob_unmarshallable _ _ _ _ _ _ _ M) in H. discriminate.
  - split.
    + intros [err H].
      destruct (json_Marshal payload) as [payloadJSON|err'] eqn:M.
      * rewrite (EnqueueJob_marshalled _ _ _ _ _ _ _ M) in H. discriminate.
      * now exists err'.
    + intros [err M]. exists err.
      now rewrite (EnqueueJob_unmarshallable _ _ _ _ _ _ _ M).
Qed.

(** C10. EnqueueJob does not look at the processors: for every job type it
    succeeds as soon as the payload serializes, and the job carries that
    type.  A type without a processor shows only when a worker runs the
    claimed job: the job is then set to 'failed', with its retry_count
    untouched, and no later claim can select it. *)
Theorem EnqueueJob_accepts_any_job_type (processors : gmap string JobProcessor)
    (jobType : string) (payload : JobPayload) (payloadJSON : string)
    (priority : Z) (time_Now current_timestamp : string) (db : DB) :
  json_Marshal payload = Ok payloadJSON ->
  exists job db',
    EnqueueJob jobType payload priority time_Now current_timestamp db
    = (Ok job, db')
    /\ JobType job = jobType
    /\ In job (job_queue db')
    /\ (processors !! jobType = None ->
        forall claimed t ts db2 row,
          ID claimed = ID job -> JobType claimed = jobType ->
          GetJobByID (ID job) db2 = Ok row ->
          exists row',
            GetJobByID (ID job) (process_claimed processors claimed t ts db2)
            = Ok row'
            /\ Status row' = "failed"
            /\ RetryCount row' = RetryCount row
            /\ forall later, eligible later row' = false).
Proof.
  intros M. rewrite (EnqueueJob_marshalled _ _ _ _ _ _ _ M).
  unfold CreateJob. eexists. eexists. split; [reflexivity|]. simpl.
  split; [reflexivity|]. split; [apply in_or_app; right; now left|].
  intros Hnone claimed t ts db2 row Hid Hty Hrow. rewrite <- Hid in *.
  rewrite <- Hty in Hnone.
  destruct (json_Unmarshal (Payload claimed)) as [p|err] eqn:U.
  - rewrite (process_claimed_no_processor processors claimed t ts db2 p U Hnone).
    destruct (FailJob_final_found (ID claimed)
                (String.append "No processor for job type: " (JobType claimed))
                t ts db2 row Hrow) as [_ H].
    eexists. split; [exact H|]. repeat split.
  - rewrite (process_claimed_bad_payload processors claimed t ts db2 err U).
    destruct (FailJob_final_found (ID claimed)
                (String.append "Failed to parse payload: " (Error err))
                t ts db2 row Hrow) as [_ H].
    eexists. split; [exact H|]. repeat split.
Qed.

(** C9. Once the INSERT of the user has succeeded, CreateUser returns the
    created user and no error, whether or not EnqueueJob succeeds; the user
    stays in the table, and a failure of EnqueueJob is printed, as the one
    line "Failed to enqueue job for user", the id of the user in decimal, a
    colon and the text of the error. *)
Theorem CreateUser_enqueue_failure_ignored (userReq : UserRequest)
    (additionalProps : list (string * any))
    (time_Now current_timestamp : string) (db db1 : DB)
    (additionalData : option string) (dbUser : User) :
  marshal_additional additionalProps = Ok additionalData ->
  CreateUser_query (create_user_params userReq additionalData)
                   current_timestamp db = (Ok dbUser, db1) ->
  exists user db2 out,
    CreateUser userReq additionalProps time_Now current_timestamp db
    = (Ok user, db2, out)
    /\ convertDBUserToGenerated dbUser = Ok user
    /\ In dbUser (users db2)
    /\ forall jobErr db',
         EnqueueJob JobUserCreated (user_created_payload user additionalProps)
                    1 time_Now current_timestamp db1 = (Err jobErr, db') ->
         out = [String.append "Failed to enqueue job for user "
                  (String.append (pretty (gen_Id user))
                     (String.append ": "
                        (String.append (Error jobErr)
                           (String "010"%char EmptyString))))]
         /\ db2 = db'.
Proof.
  intros HM HQ. unfold CreateUser. rewrite HM, HQ.
  assert (In dbUser (users db1)) as Hin.
  { unfold CreateUser_query in HQ.
    destruct (cu_Age _ <? 0); [discriminate|].
    destruct (existsb _ (users db)); [discriminate|].
    injection HQ as <- <-. simpl. apply in_or_app. right. now left. }
  cbn [convertDBUserToGenerated].
  set (user := {| gen_Id := User_ID dbUser |}).
  destruct (json_Marshal (user_created_payload user additionalProps))
    as [payloadJSON|err] eqn:M.
  - rewrite (EnqueueJob_marshalled _ _ _ _ _ _ _ M). unfold CreateJob.
    exists user. eexists. eexists. split; [reflexivity|]. split; [reflexivity|].
    split; [exact Hin|]. intros jobErr db' H.
    rewrite (EnqueueJob_marshalled _ _ _ _ _ _ _ M) in H. discriminate.
  - rewrite (EnqueueJob_unmarshallable _ _ _ _ _ _ _ M).
    exists user. eexists. eexists. split; [reflexivity|]. split; [reflexivity|].
    split; [exact Hin|]. intros jobErr db' H.
    rewrite (EnqueueJob_unmarshallable _ _ _ _ _ _ _ M) in H.
    injection H as <- <-. split; reflexivity.
Qed.

End EnqueueProperties.

Lemma EnqueueJob_creates_pending_job_witness :
  Status email_job = "pending"
  /\ MaxRetries email_job = Some 3
  /\ ScheduledAt email_job = Some (time_Now_at "00")
  /\ In email_job (job_queue db_one_pending).
Proof.
  apply (proj1 (EnqueueJob_creates_pending_job (EJ := sample_json)
                  JobEmailNotification sample_payload 0
                  (time_Now_at "00") (current_timestamp_at "00") empty_db)
               email_job db_one_pending).
  vm_compute. reflexivity.
Defined.

Lemma EnqueueJob_accepts_any_job_type_witness :
  exists job db',
    EnqueueJob (EJ := sample_json) "no_such_type" sample_payload 0
      (time_Now_at "00") (current_timestamp_at "00") empty_db
    = (Ok job, db')
    /\ JobType job = "no_such_type"
    /\ exists row',
         GetJobByID (ID job)
           (process_claimed (EJ := sample_json) sample_processors
              (mark_processing job)
              (time_Now_at "05") (current_timestamp_at "05")
              (snd (GetNextJob (time_Now_at "01") (current_timestamp_at "01")
                      db'))) = Ok row'
         /\ Status row' = "failed"
         /\ RetryCount row' = Some 0.
Proof.
  destruct (EnqueueJob_accepts_any_job_type (EJ := sample_json)
              sample_processors "no_such_type" sample_payload "{hello"
              0 (time_Now_at "00") (current_timestamp_at "00") empty_db eq_refl)
    as (job & db' & H & Hty & Hin & Hlater).
  exists job, db'. split; [exact H|]. split; [exact Hty|].
  vm_compute in H. injection H as <- <-.
  destruct (Hlater eq_refl
              (mark_processing
                 {| ID := 1; JobType := "no_such_type"; Payload := "{hello";
                    Status := "pending"; Priority := Some 0;
                    MaxRetries := Some 3; RetryCount := Some 0;
                    ErrorMessage := None;
                    ScheduledAt := Some (time_Now_at "00");
                    StartedAt := None; CompletedAt := None;
                    CreatedAt := Some (current_timestamp_at "00") |})
              (time_Now_at "05") (current_timestamp_at "05")
              (snd (GetNextJob (time_Now_at "01") (current_timestamp_at "01")
                 {| users := []; users_seq := 0;
                    job_queue :=
                      [{| ID := 1; JobType := "no_such_type";
                          Payload := "{hello";
                          Status := "pending"; Priority := Some 0;
                          MaxRetries := Some 3; RetryCount := Some 0;
                          ErrorMessage := None;
                          ScheduledAt := Some (time_Now_at "00");
                          StartedAt := None; CompletedAt := None;
                          CreatedAt := Some (current_timestamp_at "00") |}];
                    job_queue_seq := 1 |}))
              {| ID := 1; JobType := "no_such_type"; Payload := "{hello";
                 Status := "processing"; Priority := Some 0;
                 MaxRetries := Some 3; RetryCount := Some 0;
                 ErrorMessage := None;
                 ScheduledAt := Some (time_Now_at "00");
                 StartedAt := Some (time_Now_at "01"); CompletedAt := None;
                 CreatedAt := Some (current_timestamp_at "00") |}
              eq_refl eq_refl eq_refl)
    as (row' & G & Hst & Hrc & _).
  exists row'. split; [exact G|]. split; [exact Hst | exact Hrc].
Defined.

Lemma CreateUser_enqueue_failure_ignored_witness :
  exists user db2 out,
    CreateUser (EJ := failing_json) sample_request []
      (time_Now_at "05") (current_timestamp_at "05") empty_db
    = (Ok user, db2, out)
    /\ user = {| gen_Id := 1; gen_Email := "a@example.com"; gen_Age := 30;
                 gen_Name := Some "A"; gen_Bio := None;
                 gen_IsActive := Some true |}
    /\ length (users db2) = 1%nat
    /\ job_queue db2 = []
    /\ out = [String.append
                "Failed to enqueue job for user 1: failed to marshal payload: json: unsupported value"
                (String "010"%char EmptyString)].
Proof.
  destruct (CreateUser_enqueue_failure_ignored (EJ := failing_json)
              sample_request []
              (time_Now_at "05") (current_timestamp_at "05") empty_db
              (snd (CreateUser_query
                      (create_user_params sample_request None)
                      (current_timestamp_at "05") empty_db))
              None
              {| User_ID := 1; User_Email := "a@example.com"; User_Age := 30;
                 User_Name := Some "A"; User_Bio := None;
                 User_IsActive := true; User_AdditionalData := None;
                 User_CreatedAt := Some (current_timestamp_at "05");
                 User_UpdatedAt := Some (current_timestamp_at "05") |}
              eq_refl eq_refl)
    as (user & db2 & out & H & Hconv & Hin & Hfail).
  exists user, db2, out. split; [exact H|].
  injection Hconv as <-.
  destruct (Hfail (Errorf "failed to marshal payload"
                     (json_Err "json: unsupported value"))
                  (snd (CreateUser_query
                          (create_user_params sample_request None)
                          (current_timestamp_at "05") empty_db))
                  eq_refl) as [-> ->].
  repeat split.
Defined.

(** ** What holds in every database the code can build *)

Lemma update_where_id_ids (id : Z) (set : JobQueue -> JobQueue)
    (rows : list JobQueue) :
  (forall j, ID (set j) = ID j) ->
  map ID (update_where_id id set rows) = map ID rows.
Proof.
  intros Hid. unfold update_where_id. rewrite map_map.
  apply map_ext. intros j. destruct (ID j =? id); [apply Hid | reflexivity].
Qed.

Lemma update_where_id_Forall (P : JobQueue -> Prop) (id : Z)
    (set : JobQueue -> JobQueue) (rows : list JobQueue) :
  (forall j, P j -> P (set j)) ->
  Forall P rows -> Forall P (update_where_id id set rows).
Proof.
  intros Hset H. induction H as [|r rows Hr _ IH]; simpl; constructor.
  - destruct (ID r =? id); auto.
  - exact IH.
Qed.

(** An UPDATE that keeps ids and leaves retry counters well formed keeps
    the invariant. *)
Lemma db_invariant_update (id : Z) (set : JobQueue -> JobQueue) (db : DB) :
  (forall j, ID (set j) = ID j) ->
  (forall j, retry_count_ok j -> retry_count_ok (set j)) ->
  db_invariant db ->
  db_invariant {| users := users db; users_seq := users_seq db;
                  job_queue := update_where_id id set (job_queue db);
                  job_queue_seq := job_queue_seq db |}.
Proof.
  unfold db_invariant, primary_key_ok. intros Hid Hrc (Hnd & Hle & Hok). simpl.
  rewrite (update_where_id_ids id set (job_queue db) Hid).
  split; [exact Hnd|]. split.
  - apply update_where_id_Forall; [|exact Hle]. intros j. now rewrite Hid.
  - apply update_where_id_Forall; assumption.
Qed.

Lemma db_invariant_empty : db_invariant empty_db.
Proof.
  split; [unfold primary_key_ok; simpl; constructor|].
  split; constructor.
Qed.

Lemma db_invariant_CreateJob (arg : CreateJobParams) (ts : string) (db : DB) :
  db_invariant db -> db_invariant (snd (CreateJob arg ts db)).
Proof.
  unfold db_invariant, primary_key_ok. intros (Hnd & Hle & Hok). simpl.
  rewrite List.Forall_forall in Hle. split; [|split].
  - rewrite map_app. simpl. apply List.NoDup_app.
    + exact Hnd.
    + constructor; [intros [] | constructor].
    + intros x Hx [<-|[]]. apply in_map_iff in Hx.
      destruct Hx as (r & Hr & Hin). specialize (Hle r Hin). lia.
  - apply List.Forall_forall. intros j Hj. apply in_app_or in Hj.
    destruct Hj as [Hj|[<-|[]]]; [specialize (Hle j Hj); lia | simpl; lia].
  - apply List.Forall_app. split; [exact Hok|].
    constructor; [|constructor]. exists 0. split; [reflexivity | lia].
Qed.

Lemma db_invariant_UpdateJobStatus (arg : UpdateJobStatusParams) (db : DB) :
  db_invariant db -> db_invariant (snd (UpdateJobStatus arg db)).
Proof.
  apply db_invariant_update; [apply UpdateJobStatus_set_ID|].
  intros j H. exact H.
Qed.

Lemma db_invariant_IncrementJobRetry (arg : IncrementJobRetryParams) (ts : string)
    (db : DB) :
  db_invariant db -> db_invariant (snd (IncrementJobRetry arg ts db)).
Proof.
  apply db_invariant_update; [apply IncrementJobRetry_set_ID|].
  intros j (n & Hn & Hpos). exists (n + 1). simpl. rewrite Hn.
  split; [reflexivity | lia].
Qed.

(** Hence the row FailJob works on has a retry counter from 0 up. *)
Lemma db_invariant_retry_count (db : DB) (id : Z) (j : JobQueue) :
  db_invariant db -> GetJobByID id db = Ok j ->
  exists n, RetryCount j = Some n /\ 0 <= n.
Proof.
  intros (_ & _ & Hok) Hj. apply GetJobByID_Ok in Hj. destruct Hj as [Hin _].
  rewrite List.Forall_forall in Hok. exact (Hok j Hin).
Qed.

Lemma db_invariant_primary_key (db : DB) : db_invariant db -> primary_key_ok db.
Proof. intros (H & _). exact H. Qed.

Lemma db_invariant_GetNextJob (t ts : string) (db : DB) :
  db_invariant db -> db_invariant (snd (GetNextJob t ts db)).
Proof.
  intros H. unfold GetNextJob.
  destruct (GetNextPendingJob ts db) as [j|e].
  - pose proof (db_invariant_UpdateJobStatus (claim_params (ID j) t) db H) as H'.
    destruct (UpdateJobStatus (claim_params (ID j) t) db) as [[r|e] db'];
      exact H'.
  - destruct e; exact H.
Qed.

Lemma db_invariant_CompleteJob (id : Z) (t : string) (db : DB) :
  db_invariant db -> db_invariant (snd (CompleteJob id t db)).
Proof.
  intros H. unfold CompleteJob.
  set (arg := {| uj_ID := id |}).
  pose proof (db_invariant_UpdateJobStatus arg db H) as H'.
  destruct (UpdateJobStatus arg db) as [[r|e] db']; exact H'.
Qed.

Lemma db_invariant_FailJob (id : Z) (msg : string) (retry : bool) (t ts : string)
    (db : DB) :
  db_invariant db -> db_invariant (snd (FailJob id msg retry t ts db)).
Proof.
  intros H. unfold FailJob. destruct retry.
  - set (arg := {| ir_ID := id |}).
    pose proof (db_invariant_IncrementJobRetry arg ts db H) as H'.
    destruct (IncrementJobRetry arg ts db) as [[r|e] db']; exact H'.
  - set (arg := {| uj_ID := id |}).
    pose proof (db_invariant_UpdateJobStatus arg db H) as H'.
    destruct (UpdateJobStatus arg db) as [[r|e] db']; exact H'.
Qed.

Section Invariant.
Context {EJ : EncodingJson}.

Lemma db_invariant_EnqueueJob (jobType : string) (payload : JobPayload)
    (priority : Z) (t ts : string) (db : DB) :
  db_invariant db ->
  db_invariant (snd (EnqueueJob jobType payload priority t ts db)).
Proof.
  intros H. unfold EnqueueJob.
  destruct (json_Marshal payload) as [payloadJSON|err]; [|exact H].
  set (arg := {| cj_JobType := jobType |}).
  pose proof (db_invariant_CreateJob arg ts db H) as H'.
  destruct (CreateJob arg ts db) as [[r|e] db']; exact H'.
Qed.

Lemma db_invariant_process_claimed (processors : gmap string JobProcessor)
    (job : JobQueue) (t ts : string) (db : DB) :
  db_invariant db -> db_invariant (process_claimed processors job t ts db).
Proof.
  intros H. unfold process_claimed.
  destruct (json_Unmarshal (Payload job)) as [payload|err];
    [|now apply db_invariant_FailJob].
  destruct (processors !! JobType job) as [processor|];
    [|now apply db_invariant_FailJob].
  destruct (Process processor job payload);
    [now apply db_invariant_FailJob | now apply db_invariant_CompleteJob].
Qed.

Lemma db_invariant_processNextJob (processors : gmap string JobProcessor)
    (claim_Now claim_timestamp report_Now report_timestamp : string) (db : DB) :
  db_invariant db ->
  db_invariant (processNextJob processors claim_Now claim_timestamp
                  report_Now report_timestamp db).
Proof.
  intros H. unfold processNextJob.
  pose proof (db_invariant_GetNextJob claim_Now claim_timestamp db H) as H'.
  destruct (GetNextJob claim_Now claim_timestamp db) as [[[job|]|e] db'];
    simpl in H'; try exact H'.
  now apply db_invariant_process_claimed.
Qed.

Lemma db_invariant_CreateUser (userReq : UserRequest)
    (additionalProps : list (string * any)) (t ts : string) (db : DB) :
  db_invariant db ->
  db_invariant (snd (fst (CreateUser userReq additionalProps t ts db))).
Proof.
  intros H. unfold CreateUser.
  destruct (marshal_additional additionalProps) as [additionalData|err];
    [|exact H].
  assert (db_invariant
            (snd (CreateUser_query
                    (create_user_params userReq additionalData) ts db))) as H1.
  { unfold CreateUser_query.
    destruct (cu_Age _ <? 0); [exact H|].
    destruct (existsb _ (users db)); exact H. }
  destruct (CreateUser_query _ ts db) as [[dbUser|err] db1]; [|exact H1].
  cbn [convertDBUserToGenerated]. simpl in H1.
  match goal with
  | |- context [EnqueueJob ?a ?b ?c ?d ?e ?f] =>
      pose proof (db_invariant_EnqueueJob a b c d e f H1) as H2;
      destruct (EnqueueJob a b c d e f) as [[job|err] db2]; exact H2
  end.
Qed.

End Invariant.

(** * More of the code *)

(** ** Reports for a job that does not exist *)

Lemma update_where_id_absent (id : Z) (set : JobQueue -> JobQueue)
    (rows : list JobQueue) :
  List.filter (fun j => ID j =? id) rows = [] ->
  update_where_id id set rows = rows.
Proof.
  induction rows as [|r rows IH]; simpl; [reflexivity|].
  destruct (ID r =? id); [discriminate|]. intros H. f_equal. auto.
Qed.

Lemma IncrementJobRetry_missing (arg : IncrementJobRetryParams) (ts : string) (db : DB) :
  GetJobByID (ir_ID arg) db = Err sql_ErrNoRows ->
  IncrementJobRetry arg ts db = (Err sql_ErrNoRows, db).
Proof.
  unfold GetJobByID, IncrementJobRetry, returning_one. intros H.
  destruct (List.filter _ (job_queue db)) as [|r rs] eqn:F; [|discriminate].
  rewrite (update_where_id_absent _ _ _ F). destruct db; reflexivity.
Qed.

(** X1. CompleteJob and FailJob, called with an id that no job has, return
    sql.ErrNoRows and leave the database as it was. *)
Theorem report_unknown_job (id : Z) (time_Now current_timestamp : string) (db : DB) :
  GetJobByID id db = Err sql_ErrNoRows ->
  CompleteJob id time_Now db = (Some sql_ErrNoRows, db)
  /\ forall msg retry,
       FailJob id msg retry time_Now current_timestamp db
       = (Some sql_ErrNoRows, db).
Proof.
  intros H. split.
  - unfold CompleteJob.
    now rewrite (UpdateJobStatus_missing
                   {| uj_ID := id; uj_Status := "completed";
                      uj_StartedAt := None; uj_CompletedAt := Some time_Now;
                      uj_ErrorMessage := None |} db H).
  - intros msg retry. unfold FailJob. destruct retry.
    + now rewrite (IncrementJobRetry_missing
                     {| ir_ID := id; ir_ErrorMessage := Some msg |}
                     current_timestamp db H).
    + now rewrite (UpdateJobStatus_missing
                     {| uj_ID := id; uj_Status := "failed";
                        uj_StartedAt := None; uj_CompletedAt := Some time_Now;
                        uj_ErrorMessage := Some msg |} db H).
Qed.

Lemma report_unknown_job_witness :
  CompleteJob 7 (time_Now_at "20") db_one_pending
  = (Some sql_ErrNoRows, db_one_pending)
  /\ forall msg retry,
       FailJob 7 msg retry (time_Now_at "20") (current_timestamp_at "20")
         db_one_pending
       = (Some sql_ErrNoRows, db_one_pending).
Proof.
  apply (report_unknown_job 7 (time_Now_at "20") (current_timestamp_at "20")
           db_one_pending).
  vm_compute. reflexivity.
Defined.

(** ** What a claim writes *)

Lemma GetNextJob_Some_inv (t ts : string) (db db' : DB) (job : JobQueue) :
  GetNextJob t ts db = (Ok (Some job), db') ->
  exists b,
    GetNextPendingJob ts db = Ok b
    /\ job = mark_processing b
    /\ db' = snd (UpdateJobStatus (claim_params (ID b) t) db).
Proof.
  intros H. destruct (GetNextPendingJob ts db) as [b|e] eqn:S.
  - rewrite (GetNextJob_selected t ts db b S) in H.
    injection H as <- <-. now exists b.
  - unfold GetNextJob in H. rewrite S in H. destruct e; discriminate.
Qed.

(** X2. A successful GetNextJob writes one row: the row it selected gets
    status 'processing', started_at = the time.Now() of the call, and NULL
    for completed_at and error_message, its other columns staying as they
    were; every job of another id is as before.  The job handed to the
    caller is the row as it was selected with only its status replaced, so
    it still carries the started_at and error_message of before the
    claim. *)
Theorem GetNextJob_marks_row (time_Now current_timestamp : string)
    (db db' : DB) (job : JobQueue) :
  primary_key_ok db ->
  GetNextJob time_Now current_timestamp db = (Ok (Some job), db') ->
  exists row,
    GetJobByID (ID job) db = Ok row
    /\ Status row = "pending"
    /\ eligible current_timestamp row = true
    /\ job = {| ID := ID row; JobType := JobType row; Payload := Payload row;
                Status := "processing";
                Priority := Priority row; MaxRetries := MaxRetries row;
                RetryCount := RetryCount row;
                ErrorMessage := ErrorMessage row;
                ScheduledAt := ScheduledAt row; StartedAt := StartedAt row;
                CompletedAt := CompletedAt row; CreatedAt := CreatedAt row |}
    /\ GetJobByID (ID job) db'
       = Ok {| ID := ID row; JobType := JobType row; Payload := Payload row;
               Status := "processing";
               Priority := Priority row; MaxRetries := MaxRetries row;
               RetryCount := RetryCount row;
               ErrorMessage := None;
               ScheduledAt := ScheduledAt row; StartedAt := Some time_Now;
               CompletedAt := None; CreatedAt := CreatedAt row |}
    /\ forall id, id <> ID job -> GetJobByID id db' = GetJobByID id db.
Proof.
  intros Hpk H. apply GetNextJob_Some_inv in H.
  destruct H as (b & S & -> & ->).
  apply GetNextPendingJob_Ok in S. destruct S as (Hin & He & _).
  pose proof (GetJobByID_unique db b Hpk Hin) as Hb.
  exists b. cbn [ID mark_processing]. split; [exact Hb|]. split.
  { unfold eligible in He.
    destruct (String.eqb_spec (Status b) "pending"); [assumption|discriminate]. }
  split; [exact He|]. split; [reflexivity|]. split.
  - apply (UpdateJobStatus_found (claim_params (ID b) time_Now) db b Hb).
  - intros id Hne.
    now apply (UpdateJobStatus_other (claim_params (ID b) time_Now) db id).
Qed.

Lemma GetNextJob_marks_row_witness :
  fst (GetNextJob (time_Now_at "10") (current_timestamp_at "10") db_one_pending)
  = Ok (Some {| ID := 1; JobType := "email_notification"; Payload := "{hello";
                Status := "processing"; Priority := Some 0;
                MaxRetries := Some 3; RetryCount := Some 0;
                ErrorMessage := None;
                ScheduledAt :=
                  Some "2024-01-01 12:00:00.5 +0000 UTC m=+0.100000001";
                StartedAt := None; CompletedAt := None;
                CreatedAt := Some "2024-01-01 12:00:00" |})
  /\ GetJobByID 1 db_one_processing
     = Ok {| ID := 1; JobType := "email_notification"; Payload := "{hello";
             Status := "processing"; Priority := Some 0;
             MaxRetries := Some 3; RetryCount := Some 0;
             ErrorMessage := None;
             ScheduledAt :=
               Some "2024-01-01 12:00:00.5 +0000 UTC m=+0.100000001";
             StartedAt :=
               Some "2024-01-01 12:00:10.5 +0000 UTC m=+0.100000001";
             CompletedAt := None;
             CreatedAt := Some "2024-01-01 12:00:00" |}.
Proof.
  destruct (GetNextJob_marks_row (time_Now_at "10") (current_timestamp_at "10")
              db_one_pending db_one_processing (mark_processing email_job))
    as (row & Hrow & _ & _ & _ & Hnew & _).
  - unfold primary_key_ok. vm_compute. constructor; [|constructor].
    intros H. destruct H.
  - vm_compute. reflexivity.
  - vm_compute in Hrow. injection Hrow as <-.
    split; [vm_compute; reflexivity | exact Hnew].
Defined.

(** ** EnqueueJob and the rows already there *)

Section EnqueueMore.
Context {EJ : EncodingJson}.

Lemma EnqueueJob_Ok_inv (jobType : string) (payload : JobPayload)
    (priority : Z) (t ts : string) (db db' : DB) (job : JobQueue) :
  EnqueueJob jobType payload priority t ts db = (Ok job, db') ->
  exists payloadJSON,
    json_Marshal payload = Ok payloadJSON
    /\ job = {| ID := job_queue_seq db + 1; JobType := jobType;
                Payload := payloadJSON; Status := "pending";
                Priority := Some priority; MaxRetries := Some 3;
                RetryCount := Some 0; ErrorMessage := None;
                ScheduledAt := Some t; StartedAt := None;
                CompletedAt := None; CreatedAt := Some ts |}
    /\ db' = {| users := users db; users_seq := users_seq db;
                job_queue := (job_queue db ++ [job])%list;
                job_queue_seq := job_queue_seq db + 1 |}.
Proof.
  intros H. destruct (json_Marshal payload) as [payloadJSON|err] eqn:M.
  - rewrite (EnqueueJob_marshalled _ _ _ _ _ _ _ M) in H.
    unfold CreateJob in H. injection H as <- <-. now exists payloadJSON.
  - rewrite (EnqueueJob_unmarshallable _ _ _ _ _ _ _ M) in H. discriminate.
Qed.

(** X3. EnqueueJob gives the new job an id above every id in the table,
    appends it as the last row, and touches no other row and no user: the
    new job is found under its id, every other id answers as before. *)
Theorem EnqueueJob_fresh_id (jobType : string) (payload : JobPayload)
    (priority : Z) (time_Now current_timestamp : string) (db db' : DB) (job : JobQueue) :
  db_invariant db ->
  EnqueueJob jobType payload priority time_Now current_timestamp db
  = (Ok job, db') ->
  (forall j, In j (job_queue db) -> ID j < ID job)
  /\ job_queue db' = (job_queue db ++ [job])%list
  /\ users db' = users db
  /\ GetJobByID (ID job) db' = Ok job
  /\ forall id, id <> ID job -> GetJobByID id db' = GetJobByID id db.
Proof.
  intros (Hpk & Hle & _) H. apply EnqueueJob_Ok_inv in H.
  destruct H as (payloadJSON & _ & Hjob & ->).
  rewrite List.Forall_forall in Hle.
  assert (forall j, In j (job_queue db) -> ID j < ID job) as Hlt.
  { intros j Hj. specialize (Hle j Hj). subst job. simpl. lia. }
  split; [exact Hlt|]. split; [reflexivity|]. split; [reflexivity|].
  assert (forall id, List.filter (fun r => ID r =? id) (job_queue db ++ [job])%list
                     = (List.filter (fun r => ID r =? id) (job_queue db)
                        ++ (if ID job =? id then [job] else []))%list) as Hf.
  { intros id. rewrite List.filter_app. simpl. now destruct (ID job =? id). }
  split.
  - unfold GetJobByID. simpl. rewrite Hf, Z.eqb_refl.
    destruct (List.filter (fun r => ID r =? ID job) (job_queue db))
      as [|r rs] eqn:F; [reflexivity|].
    exfalso. assert (In r (List.filter (fun r => ID r =? ID job) (job_queue db)))
      as Hr by (rewrite F; now left).
    apply filter_In in Hr. destruct Hr as [Hr E]. apply Z.eqb_eq in E.
    specialize (Hlt r Hr). lia.
  - intros id Hne. unfold GetJobByID. simpl. rewrite Hf.
    assert ((ID job =? id) = false) as -> by (apply Z.eqb_neq; congruence).
    now rewrite app_nil_r.
Qed.

(** X4. A job enqueued with a priority above that of every job the WHERE
    clause of GetNextPendingJob accepts, and whose scheduled_at, the text
    stored for the time.Now() of EnqueueJob, is at or below the text of
    CURRENT_TIMESTAMP at the claim, is the job the next GetNextJob returns;
    in particular on a queue with no job to claim. *)
Theorem EnqueueJob_then_GetNextJob (jobType : string) (payload : JobPayload)
    (payloadJSON : string) (priority : Z)
    (enqueue_Now enqueue_timestamp claim_Now claim_timestamp : string)
    (db : DB) :
  json_Marshal payload = Ok payloadJSON ->
  String.leb enqueue_Now claim_timestamp = true ->
  (forall j, In j (job_queue db) -> eligible claim_timestamp j = true ->
             null_compare (Priority j) (Some priority) = Lt) ->
  exists job db1 db2,
    EnqueueJob jobType payload priority enqueue_Now enqueue_timestamp db
    = (Ok job, db1)
    /\ GetNextJob claim_Now claim_timestamp db1
       = (Ok (Some (mark_processing job)), db2).
Proof.
  intros M Hdue Hlow.
  rewrite (EnqueueJob_marshalled _ _ _ _ _ _ _ M). unfold CreateJob.
  eexists. eexists. eexists. split; [reflexivity|].
  match goal with |- GetNextJob _ _ ?d = _ => set (db1 := d) end.
  match goal with |- _ = (Ok (Some (mark_processing ?r)), _) => set (job := r) end.
  assert (In job (job_queue db1)) as Hin
    by (simpl; apply in_or_app; right; now left).
  assert (eligible claim_timestamp job = true) as He.
  { unfold eligible. simpl. now rewrite Hdue. }
  destruct (GetNextPendingJob_some claim_timestamp db1 job Hin He) as [best S].
  pose proof (GetNextPendingJob_Ok claim_timestamp db1 best S)
    as (Hb & Hbe & Hbest).
  assert (best = job) as ->.
  { simpl in Hb. apply in_app_or in Hb. destruct Hb as [Hb|[<-|[]]];
      [|reflexivity].
    exfalso. specialize (Hbest job Hin He). specialize (Hlow best Hb Hbe).
    unfold order_le, job in Hbest. cbn [Priority cj_Priority] in Hbest.
    apply null_compare_lt_gt in Hlow. rewrite Hlow in Hbest. discriminate. }
  rewrite (GetNextJob_selected claim_Now claim_timestamp db1 job S).
  reflexivity.
Qed.

End EnqueueMore.

Lemma EnqueueJob_fresh_id_witness :
  (forall j, In j (job_queue empty_db) -> ID j < ID email_job)
  /\ job_queue db_one_pending = (job_queue empty_db ++ [email_job])%list
  /\ users db_one_pending = users empty_db
  /\ GetJobByID (ID email_job) db_one_pending = Ok email_job
  /\ forall id, id <> ID email_job ->
       GetJobByID id db_one_pending = GetJobByID id empty_db.
Proof.
  apply (EnqueueJob_fresh_id (EJ := sample_json) JobEmailNotification
           sample_payload 0 (time_Now_at "00") (current_timestamp_at "00")
           empty_db db_one_pending email_job).
  - apply db_invariant_empty.
  - vm_compute. reflexivity.
Defined.

Lemma EnqueueJob_then_GetNextJob_witness :
  exists job db1 db2,
    EnqueueJob (EJ := sample_json) JobDataAnalysis sample_payload 9
      (time_Now_at "04") (current_timestamp_at "04") db_three_pending
    = (Ok job, db1)
    /\ GetNextJob (time_Now_at "10") (current_timestamp_at "10") db1
       = (Ok (Some (mark_processing job)), db2).
Proof.
  apply (EnqueueJob_then_GetNextJob (EJ := sample_json) JobDataAnalysis
           sample_payload "{hello" 9
           (time_Now_at "04") (current_timestamp_at "04")
           (time_Now_at "10") (current_timestamp_at "10") db_three_pending).
  - reflexivity.
  - vm_compute. reflexivity.
  - intros j Hin _. vm_compute in Hin.
    destruct Hin as [<-|[<-|[<-|[]]]]; reflexivity.
Defined.

(** ** What no call changes *)

Lemma evolves_refl (a : JobQueue) : evolves a a.
Proof.
  split; [repeat split|]. intros n H. exists n. split; [exact H | lia].
Qed.

Lemma evolves_trans (a b c : JobQueue) : evolves a b -> evolves b c -> evolves a c.
Proof.
  intros [(A1 & A2 & A3 & A4 & A5 & A6) Ha] [(B1 & B2 & B3 & B4 & B5 & B6) Hb].
  split; [repeat split; congruence|].
  intros n Hn. destruct (Ha n Hn) as (m & Hm & Hle).
  destruct (Hb m Hm) as (k & Hk & Hle'). exists k. split; [exact Hk | lia].
Qed.

Lemma evolves_UpdateJobStatus_set (arg : UpdateJobStatusParams) (j : JobQueue) :
  evolves j (UpdateJobStatus_set arg j).
Proof.
  split; [repeat split|]. intros n H. exists n. split; [exact H | lia].
Qed.

Lemma evolves_IncrementJobRetry_set (arg : IncrementJobRetryParams) (ts : string)
    (j : JobQueue) :
  evolves j (IncrementJobRetry_set arg ts j).
Proof.
  split; [repeat split|]. intros n H. exists (n + 1). simpl. rewrite H.
  split; [reflexivity | lia].
Qed.

Lemma evolves_UpdateJobStatus (arg : UpdateJobStatusParams) (db : DB) (id : Z)
    (j : JobQueue) :
  GetJobByID id db = Ok j ->
  exists j', GetJobByID id (snd (UpdateJobStatus arg db)) = Ok j' /\ evolves j j'.
Proof.
  intros H. destruct (Z.eq_dec id (uj_ID arg)) as [->|Hne].
  - destruct (UpdateJobStatus_found arg db j H) as [_ H'].
    eexists. split; [exact H' | apply evolves_UpdateJobStatus_set].
  - exists j. split; [|apply evolves_refl].
    now rewrite UpdateJobStatus_other.
Qed.

Lemma evolves_IncrementJobRetry (arg : IncrementJobRetryParams) (ts : string)
    (db : DB) (id : Z) (j : JobQueue) :
  GetJobByID id db = Ok j ->
  exists j',
    GetJobByID id (snd (IncrementJobRetry arg ts db)) = Ok j' /\ evolves j j'.
Proof.
  intros H. destruct (Z.eq_dec id (ir_ID arg)) as [->|Hne].
  - destruct (IncrementJobRetry_found arg ts db j H) as [_ H'].
    eexists. split; [exact H' | apply evolves_IncrementJobRetry_set].
  - exists j. split; [|apply evolves_refl].
    now rewrite IncrementJobRetry_other.
Qed.

Lemma evolves_GetNextJob (t ts : string) (db : DB) (id : Z) (j : JobQueue) :
  GetJobByID id db = Ok j ->
  exists j', GetJobByID id (snd (GetNextJob t ts db)) = Ok j' /\ evolves j j'.
Proof.
  intros H. unfold GetNextJob.
  destruct (GetNextPendingJob ts db) as [b|e].
  - pose proof (evolves_UpdateJobStatus (claim_params (ID b) t) db id j H) as H'.
    destruct (UpdateJobStatus (claim_params (ID b) t) db) as [[r|e] db'];
      exact H'.
  - exists j. split; [|apply evolves_refl]. destruct e; exact H.
Qed.

Lemma evolves_CompleteJob (id0 : Z) (t : string) (db : DB) (id : Z) (j : JobQueue) :
  GetJobByID id db = Ok j ->
  exists j', GetJobByID id (snd (CompleteJob id0 t db)) = Ok j' /\ evolves j j'.
Proof.
  intros H. unfold CompleteJob.
  set (arg := {| uj_ID := id0 |}).
  pose proof (evolves_UpdateJobStatus arg db id j H) as H'.
  destruct (UpdateJobStatus arg db) as [[r|e] db']; exact H'.
Qed.

Lemma evolves_FailJob (id0 : Z) (msg : string) (retry : bool) (t ts : string)
    (db : DB) (id : Z) (j : JobQueue) :
  GetJobByID id db = Ok j ->
  exists j',
    GetJobByID id (snd (FailJob id0 msg retry t ts db)) = Ok j' /\ evolves j j'.
Proof.
  intros H. unfold FailJob. destruct retry.
  - set (arg := {| ir_ID := id0 |}).
    pose proof (evolves_IncrementJobRetry arg ts db id j H) as H'.
    destruct (IncrementJobRetry arg ts db) as [[r|e] db']; exact H'.
  - set (arg := {| uj_ID := id0 |}).
    pose proof (evolves_UpdateJobStatus arg db id j H) as H'.
    destruct (UpdateJobStatus arg db) as [[r|e] db']; exact H'.
Qed.

Section CallProperties.
Context {EJ : EncodingJson}.

Lemma GetJobByID_EnqueueJob (jobType : string) (payload : JobPayload)
    (priority : Z) (t ts : string) (db : DB) (id : Z) (j : JobQueue) :
  GetJobByID id db = Ok j ->
  GetJobByID id (snd (EnqueueJob jobType payload priority t ts db)) = Ok j.
Proof.
  intros H. unfold EnqueueJob.
  destruct (json_Marshal payload) as [payloadJSON|err]; [|exact H].
  unfold CreateJob, GetJobByID in *. simpl. rewrite List.filter_app.
  destruct (List.filter (fun r => ID r =? id) (job_queue db)) as [|r rs];
    [discriminate | exact H].
Qed.

Lemma evolves_process_claimed (processors : gmap string JobProcessor)
    (job : JobQueue) (t ts : string) (db : DB) (id : Z) (j : JobQueue) :
  GetJobByID id db = Ok j ->
  exists j',
    GetJobByID id (process_claimed processors job t ts db) = Ok j'
    /\ evolves j j'.
Proof.
  intros H. unfold process_claimed.
  destruct (json_Unmarshal (Payload job)) as [payload|err];
    [|now apply evolves_FailJob].
  destruct (processors !! JobType job) as [processor|];
    [|now apply evolves_FailJob].
  destruct (Process processor job payload);
    [now apply evolves_FailJob | now apply evolves_CompleteJob].
Qed.

Lemma evolves_run_call (c : call) (db : DB) (id : Z) (j : JobQueue) :
  GetJobByID id db = Ok j ->
  exists j', GetJobByID id (run_call c db) = Ok j' /\ evolves j j'.
Proof.
  intros H. destruct c; simpl.
  - exists j. split; [now apply GetJobByID_EnqueueJob | apply evolves_refl].
  - now apply evolves_GetNextJob.
  - now apply evolves_CompleteJob.
  - now apply evolves_FailJob.
  - now apply evolves_process_claimed.
  - unfold processNextJob.
    destruct (evolves_GetNextJob claim_Now claim_timestamp db id j H)
      as (j1 & H1 & E1).
    destruct (GetNextJob claim_Now claim_timestamp db) as [[[job|]|e] db'];
      simpl in H1; try (exists j1; split; assumption).
    destruct (evolves_process_claimed processors job report_Now
                report_timestamp db' id j1 H1) as (j2 & H2 & E2).
    exists j2. split; [exact H2 | eapply evolves_trans; eassumption].
  - exists j. split; [|apply evolves_refl]. unfold CreateUser.
    destruct (marshal_additional additionalProps) as [additionalData|err];
      [|exact H].
    assert (GetJobByID id
              (snd (CreateUser_query
                      (create_user_params userReq additionalData)
                      current_timestamp db)) = Ok j) as H1.
    { unfold CreateUser_query.
      destruct (cu_Age _ <? 0); [exact H|].
      destruct (existsb _ (users db)); exact H. }
    destruct (CreateUser_query _ current_timestamp db) as [[dbUser|err] db1];
      [|exact H1].
    cbn [convertDBUserToGenerated]. simpl in H1.
    match goal with
    | |- context [EnqueueJob ?a ?b ?c ?d ?e ?f] =>
        pose proof (GetJobByID_EnqueueJob a b c d e f id j H1) as H2;
        destruct (EnqueueJob a b c d e f) as [[job|err] db2]; exact H2
    end.
Qed.

Lemma evolves_run_calls (cs : list call) (db : DB) (id : Z) (j : JobQueue) :
  GetJobByID id db = Ok j ->
  exists j', GetJobByID id (run_calls cs db) = Ok j' /\ evolves j j'.
Proof.
  revert db j. induction cs as [|c cs IH]; intros db j H; simpl.
  - exists j. split; [exact H | apply evolves_refl].
  - destruct (evolves_run_call c db id j H) as (j1 & H1 & E1).
    destruct (IH (run_call c db) j1 H1) as (j2 & H2 & E2).
    exists j2. split; [exact H2 | eapply evolves_trans; eassumption].
Qed.

(** X5. No sequence of calls of EnqueueJob, GetNextJob, CompleteJob, FailJob,
    of the worker or of CreateUser removes a job or changes its id, type,
    payload, priority, max_retries or created_at. *)
Theorem calls_keep_job (cs : list call) (db : DB) (id : Z) (j : JobQueue) :
  GetJobByID id db = Ok j ->
  exists j', GetJobByID id (run_calls cs db) = Ok j' /\ same_job j j'.
Proof.
  intros H. destruct (evolves_run_calls cs db id j H) as (j' & H' & E & _).
  now exists j'.
Qed.

(** X6. Along any sequence of such calls the retry_count of a job never
    goes down. *)
Theorem calls_retry_count_monotone (cs : list call) (db : DB) (id : Z)
    (j : JobQueue) (n : Z) :
  GetJobByID id db = Ok j ->
  RetryCount j = Some n ->
  exists j' m,
    GetJobByID id (run_calls cs db) = Ok j' /\ RetryCount j' = Some m /\ n <= m.
Proof.
  intros H Hn. destruct (evolves_run_calls cs db id j H) as (j' & H' & _ & E).
  destruct (E n Hn) as (m & Hm & Hle). now exists j', m.
Qed.

End CallProperties.

Lemma calls_keep_job_witness :
  exists j',
    GetJobByID 1
      (run_calls (EJ := sample_json)
         [call_processNextJob sample_processors
            (time_Now_at "10") (current_timestamp_at "10")
            (time_Now_at "12") (current_timestamp_at "12");
          call_FailJob 1 "stop" false
            (time_Now_at "40") (current_timestamp_at "40");
          call_CompleteJob 1 (time_Now_at "50")] db_one_pending) = Ok j'
    /\ same_job email_job j'.
Proof.
  apply (calls_keep_job (EJ := sample_json)
           [call_processNextJob sample_processors
              (time_Now_at "10") (current_timestamp_at "10")
              (time_Now_at "12") (current_timestamp_at "12");
            call_FailJob 1 "stop" false
              (time_Now_at "40") (current_timestamp_at "40");
            call_CompleteJob 1 (time_Now_at "50")] db_one_pending 1 email_job).
  vm_compute. reflexivity.
Defined.

Lemma calls_retry_count_monotone_witness :
  exists j' m,
    GetJobByID 1
      (run_calls (EJ := sample_json)
         [call_processNextJob sample_processors
            (time_Now_at "10") (current_timestamp_at "10")
            (time_Now_at "12") (current_timestamp_at "12");
          call_FailJob 1 "timeout" true
            (time_Now_at "30") (current_timestamp_at "30")] db_one_pending)
    = Ok j'
    /\ RetryCount j' = Some m /\ 0 <= m.
Proof.
  apply (calls_retry_count_monotone (EJ := sample_json)
           [call_processNextJob sample_processors
              (time_Now_at "10") (current_timestamp_at "10")
              (time_Now_at "12") (current_timestamp_at "12");
            call_FailJob 1 "timeout" true
              (time_Now_at "30") (current_timestamp_at "30")]
           db_one_pending 1 email_job 0).
  - vm_compute. reflexivity.
  - reflexivity.
Defined.

(** ** What every sequence of calls keeps *)

Lemma statuses_ok_update (id : Z) (set : JobQueue -> JobQueue) (db : DB) :
  (forall j, status_ok (set j)) ->
  statuses_ok db ->
  statuses_ok {| users := users db; users_seq := users_seq db;
                 job_queue := update_where_id id set (job_queue db);
                 job_queue_seq := job_queue_seq db |}.
Proof.
  unfold statuses_ok. intros Hset H. simpl.
  induction H as [|r rows Hr _ IH]; simpl; constructor.
  - destruct (ID r =? id); auto.
  - exact IH.
Qed.

Lemma statuses_ok_GetNextJob (t ts : string) (db : DB) :
  statuses_ok db -> statuses_ok (snd (GetNextJob t ts db)).
Proof.
  intros H. unfold GetNextJob.
  destruct (GetNextPendingJob ts db) as [j|e]; [|destruct e; exact H].
  assert (statuses_ok (snd (UpdateJobStatus (claim_params (ID j) t) db))) as H'.
  { apply statuses_ok_update; [|exact H]. intros r. right. left. reflexivity. }
  destruct (UpdateJobStatus (claim_params (ID j) t) db) as [[r|e] db'];
    exact H'.
Qed.

Lemma statuses_ok_CompleteJob (id : Z) (t : string) (db : DB) :
  statuses_ok db -> statuses_ok (snd (CompleteJob id t db)).
Proof.
  intros H. unfold CompleteJob.
  set (arg := {| uj_ID := id |}).
  assert (statuses_ok (snd (UpdateJobStatus arg db))) as H'.
  { apply statuses_ok_update; [|exact H].
    intros r. right. right. left. reflexivity. }
  destruct (UpdateJobStatus arg db) as [[r|e] db']; exact H'.
Qed.

Lemma statuses_ok_FailJob (id : Z) (msg : string) (retry : bool) (t ts : string)
    (db : DB) :
  statuses_ok db -> statuses_ok (snd (FailJob id msg retry t ts db)).
Proof.
  intros H. unfold FailJob. destruct retry.
  - set (arg := {| ir_ID := id |}).
    assert (statuses_ok (snd (IncrementJobRetry arg ts db))) as H'.
    { apply statuses_ok_update; [|exact H]. intros r. left. reflexivity. }
    destruct (IncrementJobRetry arg ts db) as [[r|e] db']; exact H'.
  - set (arg := {| uj_ID := id |}).
    assert (statuses_ok (snd (UpdateJobStatus arg db))) as H'.
    { apply statuses_ok_update; [|exact H].
      intros r. right. right. right. reflexivity. }
    destruct (UpdateJobStatus arg db) as [[r|e] db']; exact H'.
Qed.

Section Reachable.
Context {EJ : EncodingJson}.

Lemma statuses_ok_EnqueueJob (jobType : string) (payload : JobPayload)
    (priority : Z) (t ts : string) (db : DB) :
  statuses_ok db ->
  statuses_ok (snd (EnqueueJob jobType payload priority t ts db)).
Proof.
  intros H. unfold EnqueueJob.
  destruct (json_Marshal payload) as [payloadJSON|err]; [|exact H].
  unfold CreateJob, statuses_ok. simpl. apply List.Forall_app. split; [exact H|].
  constructor; [|constructor]. left. reflexivity.
Qed.

Lemma statuses_ok_process_claimed (processors : gmap string JobProcessor)
    (job : JobQueue) (t ts : string) (db : DB) :
  statuses_ok db -> statuses_ok (process_claimed processors job t ts db).
Proof.
  intros H. unfold process_claimed.
  destruct (json_Unmarshal (Payload job)) as [payload|err];
    [|now apply statuses_ok_FailJob].
  destruct (processors !! JobType job) as [processor|];
    [|now apply statuses_ok_FailJob].
  destruct (Process processor job payload);
    [now apply statuses_ok_FailJob | now apply statuses_ok_CompleteJob].
Qed.

Lemma statuses_ok_run_call (c : call) (db : DB) :
  statuses_ok db -> statuses_ok (run_call c db).
Proof.
  intros H. destruct c; simpl.
  - now apply statuses_ok_EnqueueJob.
  - now apply statuses_ok_GetNextJob.
  - now apply statuses_ok_CompleteJob.
  - now apply statuses_ok_FailJob.
  - now apply statuses_ok_process_claimed.
  - unfold processNextJob.
    pose proof (statuses_ok_GetNextJob claim_Now claim_timestamp db H) as H'.
    destruct (GetNextJob claim_Now claim_timestamp db) as [[[job|]|e] db'];
      simpl in H'; try exact H'.
    now apply statuses_ok_process_claimed.
  - unfold CreateUser.
    destruct (marshal_additional additionalProps) as [additionalData|err];
      [|exact H].
    assert (statuses_ok
              (snd (CreateUser_query
                      (create_user_params userReq additionalData)
                      current_timestamp db))) as H1.
    { unfold CreateUser_query.
      destruct (cu_Age _ <? 0); [exact H|].
      destruct (existsb _ (users db)); exact H. }
    destruct (CreateUser_query _ current_timestamp db) as [[dbUser|err] db1];
      [|exact H1].
    cbn [convertDBUserToGenerated]. simpl in H1.
    match goal with
    | |- context [EnqueueJob ?a ?b ?c ?d ?e ?f] =>
        pose proof (statuses_ok_EnqueueJob a b c d e f H1) as H2;
        destruct (EnqueueJob a b c d e f) as [[job|err] db2]; exact H2
    end.
Qed.

Lemma db_invariant_run_call (c : call) (db : DB) :
  db_invariant db -> db_invariant (run_call c db).
Proof.
  intros H. destruct c; simpl.
  - now apply db_invariant_EnqueueJob.
  - now apply db_invariant_GetNextJob.
  - now apply db_invariant_CompleteJob.
  - now apply db_invariant_FailJob.
  - now apply db_invariant_process_claimed.
  - now apply db_invariant_processNextJob.
  - now apply db_invariant_CreateUser.
Qed.

(** X7. Every sequence of calls keeps the job table well formed: ids stay
    unique and at or below the AUTOINCREMENT counter, every retry_count
    stays a number from 0 up, and every status stays one of 'pending',
    'processing', 'completed' and 'failed'. *)
Theorem calls_keep_invariant (cs : list call) (db : DB) :
  db_invariant db -> statuses_ok db ->
  db_invariant (run_calls cs db) /\ statuses_ok (run_calls cs db).
Proof.
  revert db. induction cs as [|c cs IH]; intros db Hi Hs; simpl.
  - now split.
  - apply IH; [now apply db_invariant_run_call | now apply statuses_ok_run_call].
Qed.

End Reachable.

Lemma calls_keep_invariant_witness :
  db_invariant
    (run_calls (EJ := sample_json)
       [call_EnqueueJob JobDataExport sample_payload 2
          (time_Now_at "00") (current_timestamp_at "00");
        call_processNextJob sample_processors
          (time_Now_at "01") (current_timestamp_at "01")
          (time_Now_at "02") (current_timestamp_at "02")] empty_db)
  /\ statuses_ok
       (run_calls (EJ := sample_json)
          [call_EnqueueJob JobDataExport sample_payload 2
             (time_Now_at "00") (current_timestamp_at "00");
           call_processNextJob sample_processors
             (time_Now_at "01") (current_timestamp_at "01")
             (time_Now_at "02") (current_timestamp_at "02")] empty_db).
Proof.
  apply (calls_keep_invariant (EJ := sample_json)
           [call_EnqueueJob JobDataExport sample_payload 2
              (time_Now_at "00") (current_timestamp_at "00");
            call_processNextJob sample_processors
              (time_Now_at "01") (current_timestamp_at "01")
              (time_Now_at "02") (current_timestamp_at "02")] empty_db).
  - apply db_invariant_empty.
  - constructor.
Defined.

(** ** GetJobStats *)

Lemma count_status_nil (s : string) : count_status s [] = 0.
Proof. reflexivity. Qed.

Lemma count_status_cons (s : string) (r : JobQueue) (rows : list JobQueue) :
  count_status s (r :: rows)
  = (if String.eqb (Status r) s then 1 else 0) + count_status s rows.
Proof.
  unfold count_status. simpl. destruct (String.eqb (Status r) s); simpl; lia.
Qed.

Lemma count_status_app (s : string) (l1 l2 : list JobQueue) :
  count_status s (l1 ++ l2) = count_status s l1 + count_status s l2.
Proof.
  unfold count_status. rewrite List.filter_app, length_app. lia.
Qed.

Lemma count_status_total (rows : list JobQueue) :
  Forall status_ok rows ->
  count_status "pending" rows + count_status "processing" rows
  + count_status "completed" rows + count_status "failed" rows
  = Z.of_nat (length rows).
Proof.
  induction 1 as [|r rows Hr _ IH]; [reflexivity|].
  rewrite !count_status_cons. simpl length. rewrite Nat2Z.inj_succ.
  destruct Hr as [E|[E|[E|E]]]; rewrite E; simpl; lia.
Qed.

(** X8. When every job has one of the four statuses, the four counts of
    GetJobStats add up to the number of jobs in the table. *)
Theorem GetJobStats_total (db : DB) :
  statuses_ok db ->
  exists stats,
    GetJobStats db = Ok stats
    /\ stats_total stats = Z.of_nat (length (job_queue db)).
Proof.
  intros H. eexists. split; [reflexivity|].
  unfold stats_total. simpl. now apply count_status_total.
Qed.

Lemma GetJobStats_total_witness :
  exists stats,
    GetJobStats db_three_pending = Ok stats
    /\ stats_total stats = Z.of_nat (length (job_queue db_three_pending)).
Proof.
  apply (GetJobStats_total db_three_pending).
  unfold statuses_ok. vm_compute.
  repeat constructor.
Defined.

(** Counting a status over a table in which one row changes. *)
Lemma count_status_update (s : string) (set : JobQueue -> JobQueue)
    (rows : list JobQueue) (b : JobQueue) :
  List.NoDup (map ID rows) -> In b rows ->
  count_status s (update_where_id (ID b) set rows)
  = count_status s rows
    - (if String.eqb (Status b) s then 1 else 0)
    + (if String.eqb (Status (set b)) s then 1 else 0).
Proof.
  induction rows as [|r rows IH]; intros Hnd Hin; [destruct Hin|].
  simpl in Hnd. inversion Hnd as [|? ? Hnotin Hnd']; subst.
  cbn [update_where_id map]. rewrite !count_status_cons.
  destruct Hin as [->|Hin].
  - rewrite Z.eqb_refl.
    fold (update_where_id (ID b) set rows).
    rewrite update_where_id_absent; [lia|].
    destruct (List.filter (fun j => ID j =? ID b) rows) as [|x xs] eqn:F;
      [reflexivity|].
    exfalso. assert (In x (List.filter (fun j => ID j =? ID b) rows)) as Hx
      by (rewrite F; now left).
    apply filter_In in Hx. destruct Hx as [Hx E]. apply Z.eqb_eq in E.
    apply Hnotin. rewrite <- E. now apply List.in_map.
  - assert ((ID r =? ID b) = false) as ->.
    { apply Z.eqb_neq. intros E. apply Hnotin. rewrite E.
      now apply List.in_map. }
    fold (update_where_id (ID b) set rows). rewrite (IH Hnd' Hin). lia.
Qed.

Section StatsProperties.
Context {EJ : EncodingJson}.

(** X9. A successful EnqueueJob raises the pending count of GetJobStats by
    one and leaves the other three counts as they were. *)
Theorem GetJobStats_after_EnqueueJob (jobType : string) (payload : JobPayload)
    (priority : Z) (time_Now current_timestamp : string) (db db' : DB) (job : JobQueue)
    (stats : GetJobStatsRow) :
  EnqueueJob jobType payload priority time_Now current_timestamp db
  = (Ok job, db') ->
  GetJobStats db = Ok stats ->
  GetJobStats db'
  = Ok {| PendingCount := PendingCount stats + 1;
          ProcessingCount := ProcessingCount stats;
          CompletedCount := CompletedCount stats;
          FailedCount := FailedCount stats |}.
Proof.
  intros H Hs. apply EnqueueJob_Ok_inv in H.
  destruct H as (payloadJSON & _ & Hjob & ->).
  injection Hs as <-. unfold GetJobStats, GetJobStats_query. simpl.
  rewrite !count_status_app, !count_status_cons, !count_status_nil.
  subst job. simpl. do 2 f_equal; lia.
Qed.

End StatsProperties.

(** X10. A GetNextJob that returns a job lowers the pending count of
    GetJobStats by one and raises the processing count by one; the completed
    and failed counts stay. *)
Theorem GetJobStats_after_GetNextJob (time_Now current_timestamp : string)
    (db db' : DB) (job : JobQueue) (stats : GetJobStatsRow) :
  primary_key_ok db ->
  GetNextJob time_Now current_timestamp db = (Ok (Some job), db') ->
  GetJobStats db = Ok stats ->
  GetJobStats db'
  = Ok {| PendingCount := PendingCount stats - 1;
          ProcessingCount := ProcessingCount stats + 1;
          CompletedCount := CompletedCount stats;
          FailedCount := FailedCount stats |}.
Proof.
  intros Hpk H Hs. apply GetNextJob_Some_inv in H.
  destruct H as (b & S & -> & ->).
  apply GetNextPendingJob_Ok in S. destruct S as (Hin & He & _).
  assert (Status b = "pending") as Hst.
  { unfold eligible in He.
    destruct (String.eqb_spec (Status b) "pending"); [assumption|discriminate]. }
  injection Hs as <-. unfold GetJobStats, GetJobStats_query. simpl.
  rewrite !(count_status_update _ _ _ b Hpk Hin). simpl. rewrite Hst. simpl.
  do 2 f_equal; lia.
Qed.

(** X11. CompleteJob for a job in status 'processing' lowers the processing
    count by one and raises the completed count by one. *)
Theorem GetJobStats_after_CompleteJob (jobID : Z) (time_Now : string) (db : DB)
    (j : JobQueue) (stats : GetJobStatsRow) :
  primary_key_ok db ->
  GetJobByID jobID db = Ok j ->
  Status j = "processing" ->
  GetJobStats db = Ok stats ->
  GetJobStats (snd (CompleteJob jobID time_Now db))
  = Ok {| PendingCount := PendingCount stats;
          ProcessingCount := ProcessingCount stats - 1;
          CompletedCount := CompletedCount stats + 1;
          FailedCount := FailedCount stats |}.
Proof.
  intros Hpk Hj Hst Hs.
  apply GetJobByID_Ok in Hj. destruct Hj as [Hin <-].
  unfold CompleteJob.
  set (arg := {| uj_ID := ID j |}).
  assert (job_queue (snd (UpdateJobStatus arg db))
          = update_where_id (ID j) (UpdateJobStatus_set arg) (job_queue db))
    as Hrows by reflexivity.
  destruct (UpdateJobStatus arg db) as [[r|e] db']; simpl in *;
    injection Hs as <-; unfold GetJobStats, GetJobStats_query; simpl;
    rewrite Hrows, !(count_status_update _ _ _ j Hpk Hin); simpl;
    rewrite Hst; simpl; do 2 f_equal; lia.
Qed.

Lemma GetJobStats_after_EnqueueJob_witness :
  GetJobStats db_one_pending
  = Ok {| PendingCount := 0 + 1; ProcessingCount := 0;
          CompletedCount := 0; FailedCount := 0 |}.
Proof.
  apply (GetJobStats_after_EnqueueJob (EJ := sample_json) JobEmailNotification
           sample_payload 0 (time_Now_at "00") (current_timestamp_at "00")
           empty_db db_one_pending email_job
           {| PendingCount := 0; ProcessingCount := 0;
              CompletedCount := 0; FailedCount := 0 |}).
  - vm_compute. reflexivity.
  - vm_compute. reflexivity.
Defined.

Lemma GetJobStats_after_GetNextJob_witness :
  GetJobStats db_one_processing
  = Ok {| PendingCount := 1 - 1; ProcessingCount := 0 + 1;
          CompletedCount := 0; FailedCount := 0 |}.
Proof.
  apply (GetJobStats_after_GetNextJob (time_Now_at "10")
           (current_timestamp_at "10") db_one_pending db_one_processing
           (mark_processing email_job)
           {| PendingCount := 1; ProcessingCount := 0;
              CompletedCount := 0; FailedCount := 0 |}).
  - unfold primary_key_ok. vm_compute. constructor; [|constructor].
    intros H. destruct H.
  - vm_compute. reflexivity.
  - vm_compute. reflexivity.
Defined.

Lemma GetJobStats_after_CompleteJob_witness :
  GetJobStats (snd (CompleteJob 1 (time_Now_at "20") db_one_processing))
  = Ok {| PendingCount := 0; ProcessingCount := 1 - 1;
          CompletedCount := 0 + 1; FailedCount := 0 |}.
Proof.
  destruct (GetJobByID 1 db_one_processing) as [j|e] eqn:G;
    [|vm_compute in G; discriminate].
  apply (GetJobStats_after_CompleteJob 1 (time_Now_at "20")
           db_one_processing j
           {| PendingCount := 0; ProcessingCount := 1;
              CompletedCount := 0; FailedCount := 0 |}).
  - unfold primary_key_ok. vm_compute. constructor; [|constructor].
    intros H. destruct H.
  - exact G.
  - vm_compute in G. injection G as <-. reflexivity.
  - vm_compute. reflexivity.
Defined.

(** ** Retries and eligibility *)

Lemma FailJob_ids (id : Z) (msg : string) (retry : bool) (t ts : string) (db : DB) :
  map ID (job_queue (snd (FailJob id msg retry t ts db)))
  = map ID (job_queue db).
Proof.
  unfold FailJob. destruct retry.
  - set (arg := {| ir_ID := id |}).
    assert (map ID (job_queue (snd (IncrementJobRetry arg ts db)))
            = map ID (job_queue db)) as H
      by (apply update_where_id_ids, IncrementJobRetry_set_ID).
    destruct (IncrementJobRetry arg ts db) as [[r|e] db']; exact H.
  - set (arg := {| uj_ID := id |}).
    assert (map ID (job_queue (snd (UpdateJobStatus arg db)))
            = map ID (job_queue db)) as H
      by (apply update_where_id_ids, UpdateJobStatus_set_ID).
    destruct (UpdateJobStatus arg db) as [[r|e] db']; exact H.
Qed.

(** A job that the WHERE clause rejects is not the job GetNextJob returns. *)
Lemma GetNextJob_skips_ineligible (t now : string) (db db' : DB) (id : Z)
    (j job : JobQueue) :
  primary_key_ok db ->
  GetJobByID id db = Ok j ->
  eligible now j = false ->
  GetNextJob t now db = (Ok (Some job), db') ->
  ID job <> id.
Proof.
  intros Hpk Hj He H. apply GetNextJob_Some_inv in H.
  destruct H as (b & S & -> & _). simpl.
  apply GetNextPendingJob_Ok in S. destruct S as (Hin & Hbe & _).
  intros E. pose proof (GetJobByID_unique db b Hpk Hin) as Hb.
  rewrite E, Hj in Hb. injection Hb as ->. congruence.
Qed.

(** The row FailJob with retry leaves behind. *)
Lemma retried_job_row (jobID : Z) (msg : string) (t ts : string) (db : DB)
    (j : JobQueue) :
  GetJobByID jobID db = Ok j ->
  exists j',
    GetJobByID jobID (snd (FailJob jobID msg true t ts db)) = Ok j'
    /\ ScheduledAt j' = None
    /\ RetryCount j' = sql_add (RetryCount j) 1
    /\ Status j' = "pending"
    /\ MaxRetries j' = MaxRetries j.
Proof.
  intros Hj.
  destruct (FailJob_retry_found jobID msg t ts db j Hj) as [_ H].
  eexists. split; [exact H|].
  apply IncrementJobRetry_set_row.
Qed.

(** A row without scheduled_at is rejected by the WHERE clause of
    GetNextPendingJob at every time. *)
Lemma unscheduled_job_not_eligible (now : string) (j : JobQueue) :
  ScheduledAt j = None -> eligible now j = false.
Proof.
  intros E. unfold eligible. rewrite E. cbn [sql_text_le].
  now rewrite andb_false_r.
Qed.

(** X12. After FailJob with retry the job is 'pending' and its scheduled_at
    is NULL, whatever its retry_count and max_retries are: the WHERE clause
    of GetNextPendingJob rejects it at every later time, and no later
    GetNextJob returns it. *)
Theorem retried_job_never_eligible (jobID : Z) (errorMessage : string)
    (time_Now current_timestamp : string) (db : DB) (j : JobQueue) :
  primary_key_ok db ->
  GetJobByID jobID db = Ok j ->
  exists j',
    GetJobByID jobID
      (snd (FailJob jobID errorMessage true time_Now current_timestamp db))
    = Ok j'
    /\ Status j' = "pending"
    /\ ScheduledAt j' = None
    /\ (forall now, eligible now j' = false)
    /\ forall claim_Now now job db',
         GetNextJob claim_Now now
           (snd (FailJob jobID errorMessage true time_Now current_timestamp db))
         = (Ok (Some job), db') ->
         ID job <> jobID.
Proof.
  intros Hpk Hj.
  destruct (retried_job_row jobID errorMessage time_Now current_timestamp db j
              Hj) as (j' & H & Hs & _ & Hst & _).
  exists j'. split; [exact H|]. split; [exact Hst|]. split; [exact Hs|].
  split.
  - intros now. now apply unscheduled_job_not_eligible.
  - intros claim_Now now job db' Hc.
    eapply GetNextJob_skips_ineligible; [|exact H| |exact Hc].
    + unfold primary_key_ok. rewrite FailJob_ids. exact Hpk.
    + now apply unscheduled_job_not_eligible.
Qed.

Lemma retried_job_never_eligible_witness :
  exists j',
    GetJobByID 1
      (snd (FailJob 1 "timeout" true
              (time_Now_at "20") (current_timestamp_at "20") db_one_processing))
    = Ok j'
    /\ Status j' = "pending"
    /\ ScheduledAt j' = None
    /\ (forall now, eligible now j' = false)
    /\ forall claim_Now now job db',
         GetNextJob claim_Now now
           (snd (FailJob 1 "timeout" true
                   (time_Now_at "20") (current_timestamp_at "20")
                   db_one_processing))
         = (Ok (Some job), db') ->
         ID job <> 1.
Proof.
  destruct (GetJobByID 1 db_one_processing) as [j|e] eqn:G;
    [|vm_compute in G; discriminate].
  apply (retried_job_never_eligible 1 "timeout"
           (time_Now_at "20") (current_timestamp_at "20") db_one_processing j).
  - unfold primary_key_ok. vm_compute. constructor; [|constructor].
    intros H. destruct H.
  - exact G.
Defined.

(** X13. A job whose retry_count reaches max_retries through FailJob with
    retry is left in status 'pending', and no later GetNextJob, at whatever
    time, returns it. *)
Theorem exhausted_job_stays_pending (jobID : Z) (errorMessage : string)
    (time_Now current_timestamp : string) (db : DB) (j : JobQueue)
    (retry_count : Z) :
  primary_key_ok db ->
  GetJobByID jobID db = Ok j ->
  RetryCount j = Some retry_count ->
  0 <= retry_count ->
  MaxRetries j = Some (retry_count + 1) ->
  job_status jobID
    (snd (FailJob jobID errorMessage true time_Now current_timestamp db))
  = Some "pending"
  /\ forall claim_time now job db',
       GetNextJob claim_time now
         (snd (FailJob jobID errorMessage true time_Now current_timestamp db))
       = (Ok (Some job), db') ->
       ID job <> jobID.
Proof.
  intros Hpk Hj Hrc Hpos Hmr.
  destruct (retried_job_row jobID errorMessage time_Now current_timestamp db j
              Hj) as (j' & H & Hs & Hr & Hst & Hm).
  rewrite Hrc in Hr. cbn [sql_add] in Hr.
  split.
  - unfold job_status. now rewrite H, Hst.
  - intros claim_time now job db' Hc.
    eapply GetNextJob_skips_ineligible; [|exact H| |exact Hc].
    + unfold primary_key_ok. rewrite FailJob_ids. exact Hpk.
    + apply exhausted_job_not_eligible. congruence.
Qed.

Lemma exhausted_job_stays_pending_witness :
  job_status 1
    (snd (FailJob 1 "timeout" true
            (time_Now_at "40") (current_timestamp_at "40") db_retried_twice))
  = Some "pending"
  /\ forall claim_time now job db',
       GetNextJob claim_time now
         (snd (FailJob 1 "timeout" true
                 (time_Now_at "40") (current_timestamp_at "40")
                 db_retried_twice))
       = (Ok (Some job), db') ->
       ID job <> 1.
Proof.
  destruct (GetJobByID 1 db_retried_twice) as [j|e] eqn:G;
    [|vm_compute in G; discriminate].
  apply (exhausted_job_stays_pending 1 "timeout"
           (time_Now_at "40") (current_timestamp_at "40") db_retried_twice j 2).
  - unfold primary_key_ok. vm_compute. constructor; [|constructor].
    intros H. destruct H.
  - exact G.
  - vm_compute in G. injection G as <-. reflexivity.
  - lia.
  - vm_compute in G. injection G as <-. reflexivity.
Defined.

(** ** Sorting and LIMIT *)

Section Sorting.
Context {A : Type} (le : A -> A -> bool).
Hypothesis le_total : forall a b, le a b = false -> le b a = true.
Hypothesis le_trans : forall a b c, le a b = true -> le b c = true -> le a c = true.

Lemma sort_insert_perm (x : A) (l : list A) :
  Permutation (sort_insert le x l) (x :: l).
Proof.
  induction l as [|y l IH]; simpl; [reflexivity|].
  destruct (le x y); [reflexivity|].
  rewrite IH. apply perm_swap.
Qed.

Lemma sort_by_perm (l : list A) : Permutation (sort_by le l) l.
Proof.
  induction l as [|x l IH]; simpl; [reflexivity|].
  rewrite sort_insert_perm. now constructor.
Qed.

Lemma sort_insert_sorted (x : A) (l : list A) :
  StronglySorted (fun a b => le a b = true) l ->
  StronglySorted (fun a b => le a b = true) (sort_insert le x l).
Proof.
  induction 1 as [|y l Hs IH Hy]; simpl.
  - constructor; constructor.
  - destruct (le x y) eqn:E.
    + constructor; [constructor; assumption|].
      constructor; [exact E|].
      rewrite List.Forall_forall in *. intros z Hz.
      eapply le_trans; [exact E | now apply Hy].
    + constructor; [exact IH|].
      rewrite List.Forall_forall in *. intros z Hz.
      apply (Permutation_in _ (sort_insert_perm x l)) in Hz.
      destruct Hz as [<-|Hz]; [now apply le_total | now apply Hy].
Qed.

Lemma sort_by_sorted (l : list A) :
  StronglySorted (fun a b => le a b = true) (sort_by le l).
Proof.
  induction l as [|x l IH]; simpl; [constructor|].
  now apply sort_insert_sorted.
Qed.

End Sorting.

Lemma StronglySorted_app_inv {A : Type} (R : A -> A -> Prop) (l1 l2 : list A) :
  StronglySorted R (l1 ++ l2) ->
  StronglySorted R l1 /\ forall a b, In a l1 -> In b l2 -> R a b.
Proof.
  induction l1 as [|x l1 IH]; simpl; intros H.
  - split; [constructor | intros a b []].
  - inversion H as [|? ? Hs Hx]; subst. destruct (IH Hs) as [Hs1 Hc].
    rewrite List.Forall_forall in Hx. split.
    + constructor; [exact Hs1|]. apply List.Forall_forall. intros z Hz.
      apply Hx. apply in_or_app. now left.
    + intros a b [<-|Ha] Hb; [|now apply Hc].
      apply Hx. apply in_or_app. now right.
Qed.

(** LIMIT keeps a prefix. *)
Lemma sql_limit_prefix {A : Type} (n : Z) (l : list A) :
  exists rest, l = (sql_limit n l ++ rest)%list.
Proof.
  unfold sql_limit. destruct (n <? 0).
  - exists []. now rewrite app_nil_r.
  - exists (skipn (Z.to_nat n) l). now rewrite firstn_skipn.
Qed.

Lemma sql_limit_length {A : Type} (n : Z) (l : list A) :
  Z.of_nat (length (sql_limit n l))
  = if n <? 0 then Z.of_nat (length l) else Z.min n (Z.of_nat (length l)).
Proof.
  unfold sql_limit. destruct (n <? 0) eqn:E; [reflexivity|].
  apply Z.ltb_ge in E. rewrite length_firstn. lia.
Qed.

Lemma created_desc_le (a b : option string) :
  created_desc a b = true <-> null_le_text b a.
Proof.
  unfold created_desc. rewrite <- null_compare_text_le.
  destruct (null_compare_text a b) eqn:C.
  - apply null_compare_text_eq in C. subst b.
    assert (null_compare_text a a = Eq) as ->
      by now apply null_compare_text_eq.
    split; [discriminate | reflexivity].
  - apply null_compare_text_lt_gt in C. rewrite C.
    split; [discriminate | congruence].
  - assert (null_compare_text b a = Lt) as ->
      by now apply null_compare_text_lt_gt.
    split; [discriminate | reflexivity].
Qed.

Lemma created_desc_total (a b : option string) :
  created_desc a b = false -> created_desc b a = true.
Proof.
  intros H. apply created_desc_le.
  destruct (null_le_text_total a b) as [L|L]; [exact L|].
  apply created_desc_le in L. congruence.
Qed.

Lemma created_desc_trans (a b c : option string) :
  created_desc a b = true -> created_desc b c = true -> created_desc a c = true.
Proof.
  rewrite !created_desc_le. intros H1 H2. eapply null_le_text_trans; eassumption.
Qed.

(** ** ListJobs *)

(** X14. ListJobs returns jobs of the table that have the requested status,
    newest created_at first.  With a limit from 0 up it returns that many
    of them or all if there are fewer, with a negative limit all of them;
    and no job of that status that it leaves out was created later than one
    it returns. *)
Theorem ListJobs_newest_first (status : string) (limit : Z) (db : DB) :
  exists jobs,
    ListJobs status limit db = Ok jobs
    /\ (forall j, In j jobs -> In j (job_queue db) /\ Status j = status)
    /\ StronglySorted (fun a b => null_le_text (CreatedAt b) (CreatedAt a)) jobs
    /\ Z.of_nat (length jobs)
       = (if limit <? 0 then count_status status (job_queue db)
          else Z.min limit (count_status status (job_queue db)))
    /\ (forall j k,
          In j jobs -> In k (job_queue db) -> Status k = status ->
          ~ In k jobs -> null_le_text (CreatedAt k) (CreatedAt j)).
Proof.
  unfold ListJobs, ListJobs_query. cbn [lj_Status lj_Limit].
  set (le := fun a b : JobQueue => created_desc (CreatedAt a) (CreatedAt b)).
  set (matching := List.filter (fun j => String.eqb (Status j) status)
                     (job_queue db)).
  set (sorted := sort_by le matching).
  assert (Permutation sorted matching) as Hperm by apply sort_by_perm.
  assert (StronglySorted (fun a b => le a b = true) sorted) as Hsorted.
  { apply sort_by_sorted.
    - intros a b. apply created_desc_total.
    - intros a b c. apply created_desc_trans. }
  destruct (sql_limit_prefix limit sorted) as [rest Hrest].
  rewrite Hrest in Hsorted. apply StronglySorted_app_inv in Hsorted.
  destruct Hsorted as [Hs1 Hcross].
  assert (forall j, In j sorted <-> In j (job_queue db) /\ Status j = status)
    as Hin.
  { intros j. split.
    - intros Hj. apply (Permutation_in _ Hperm) in Hj.
      apply filter_In in Hj. destruct Hj as [Hj E].
      split; [exact Hj | now apply String.eqb_eq].
    - intros [Hj E]. apply (Permutation_in _ (Permutation_sym Hperm)).
      apply filter_In. split; [exact Hj | now apply String.eqb_eq]. }
  exists (sql_limit limit sorted). split; [reflexivity|]. repeat split.
  - apply Hin. rewrite Hrest. apply in_or_app. now left.
  - apply Hin. rewrite Hrest. apply in_or_app. now left.
  - clear -Hs1. induction Hs1 as [|x l Hs IH Hx]; constructor; [exact IH|].
    rewrite List.Forall_forall in *. intros z Hz.
    apply created_desc_le. now apply Hx.
  - rewrite sql_limit_length. unfold count_status. fold matching.
    now rewrite (Permutation_length Hperm).
  - intros j k Hj Hk Hst Hnot.
    assert (In k sorted) as Hks by (apply Hin; now split).
    rewrite Hrest in Hks. apply in_app_or in Hks.
    destruct Hks as [Hks|Hks]; [contradiction|].
    apply created_desc_le. now apply Hcross.
Qed.

(** ** The users table *)

Lemma NoDup_map_filter {A B : Type} (g : A -> B) (p : A -> bool) (l : list A) :
  List.NoDup (map g l) -> List.NoDup (map g (List.filter p l)).
Proof.
  induction l as [|x l IH]; simpl; intros H; [constructor|].
  inversion H as [|? ? Hnotin Hnd]; subst.
  destruct (p x); simpl; [|now apply IH].
  constructor; [|now apply IH].
  intros Hin. apply Hnotin. apply in_map_iff in Hin.
  destruct Hin as (y & <- & Hy). apply filter_In in Hy.
  apply List.in_map. tauto.
Qed.

Lemma CreateUser_query_Ok_inv (arg : CreateUserParams) (ts : string) (db db1 : DB)
    (u : User) :
  CreateUser_query arg ts db = (Ok u, db1) ->
  (forall v, In v (users db) -> User_Email v <> cu_Email arg)
  /\ 0 <= cu_Age arg
  /\ u = {| User_ID := users_seq db + 1; User_Email := cu_Email arg;
            User_Age := cu_Age arg; User_Name := cu_Name arg;
            User_Bio := cu_Bio arg; User_IsActive := cu_IsActive arg;
            User_AdditionalData := cu_AdditionalData arg;
            User_CreatedAt := Some ts; User_UpdatedAt := Some ts |}
  /\ db1 = {| users := (users db ++ [u])%list; users_seq := users_seq db + 1;
              job_queue := job_queue db; job_queue_seq := job_queue_seq db |}.
Proof.
  unfold CreateUser_query. intros H.
  destruct (cu_Age arg <? 0) eqn:G; [discriminate|].
  destruct (existsb _ (users db)) eqn:E; [discriminate|].
  injection H as <- <-. apply Z.ltb_ge in G.
  repeat split; try assumption.
  intros v Hv Hemail.
  assert (existsb (fun u => String.eqb (User_Email u) (cu_Email arg)) (users db)
          = true) as Ht.
  { apply existsb_exists. exists v. split; [exact Hv|].
    now apply String.eqb_eq. }
  congruence.
Qed.

Lemma users_invariant_CreateUser_query (arg : CreateUserParams) (ts : string) (db : DB) :
  users_invariant db -> users_invariant (snd (CreateUser_query arg ts db)).
Proof.
  intros H.
  destruct (CreateUser_query arg ts db) as [[u|e] db1] eqn:Q.
  - apply CreateUser_query_Ok_inv in Q. destruct Q as (Hfresh & Hage & Hu & ->).
    destruct H as (Hid & Hem & Hle & Hag). rewrite List.Forall_forall in Hle.
    unfold users_invariant. simpl. rewrite !map_app. simpl.
    split; [|split; [|split]].
    + apply List.NoDup_app; [exact Hid | constructor; [intros [] | constructor]|].
      intros x Hx [<-|[]]. apply in_map_iff in Hx.
      destruct Hx as (v & Hv & Hin). specialize (Hle v Hin).
      subst u. simpl in Hv. lia.
    + apply List.NoDup_app; [exact Hem | constructor; [intros [] | constructor]|].
      intros x Hx [<-|[]]. apply in_map_iff in Hx.
      destruct Hx as (v & Hv & Hin). apply (Hfresh v Hin).
      subst u. exact Hv.
    + apply List.Forall_app. split.
      * apply List.Forall_forall. intros v Hv. specialize (Hle v Hv). lia.
      * constructor; [subst u; simpl; lia | constructor].
    + apply List.Forall_app. split; [exact Hag|].
      constructor; [subst u; exact Hage | constructor].
  - unfold CreateUser_query in Q.
    destruct (cu_Age arg <? 0); [injection Q as _ <-; exact H|].
    destruct (existsb _ (users db)); [injection Q as _ <-; exact H | discriminate].
Qed.

Lemma map_update_absent (id : Z) (set : User -> User) (rows : list User) :
  ~ In id (map User_ID rows) ->
  map (fun v => if User_ID v =? id then set v else v) rows = rows.
Proof.
  induction rows as [|r rows IH]; simpl; intros H; [reflexivity|].
  destruct (User_ID r =? id) eqn:E.
  - apply Z.eqb_eq in E. exfalso. apply H. now left.
  - f_equal. apply IH. intros Hin. apply H. now right.
Qed.

Lemma NoDup_emails_update (id : Z) (e : string) (set : User -> User)
    (rows : list User) :
  (forall v, User_Email (set v) = e) ->
  List.NoDup (map User_ID rows) ->
  List.NoDup (map User_Email rows) ->
  (forall v, In v rows -> User_ID v <> id -> User_Email v <> e) ->
  List.NoDup
    (map User_Email (map (fun v => if User_ID v =? id then set v else v) rows)).
Proof.
  intros Hset. induction rows as [|r rows IH]; intros Hid Hem Hother;
    [constructor|].
  simpl in Hid, Hem. inversion Hid as [|? ? Hn1 Hid']; subst.
  inversion Hem as [|? ? Hn2 Hem']; subst. cbn [map].
  destruct (User_ID r =? id) eqn:E.
  - apply Z.eqb_eq in E.
    rewrite (map_update_absent id set rows) by (rewrite <- E; exact Hn1).
    constructor; [|exact Hem']. rewrite Hset. intros Hin.
    apply in_map_iff in Hin. destruct Hin as (v & Hv & Hvin).
    apply (Hother v); [now right| |exact Hv].
    intros Ev. apply Hn1. rewrite E, <- Ev. now apply List.in_map.
  - apply Z.eqb_neq in E. constructor.
    + intros Hin. apply in_map_iff in Hin. destruct Hin as (w & Hw & Hwin).
      apply in_map_iff in Hwin. destruct Hwin as (v & <- & Hvin).
      destruct (User_ID v =? id).
      * rewrite Hset in Hw. apply (Hother r); [now left | exact E | now symmetry].
      * apply Hn2. rewrite <- Hw. now apply List.in_map.
    + apply IH; try assumption. intros v Hv. apply Hother. now right.
Qed.

Lemma users_invariant_UpdateUser (arg : UpdateUserParams) (ts : string) (db : DB) :
  users_invariant db -> users_invariant (snd (UpdateUser arg ts db)).
Proof.
  intros H. unfold UpdateUser.
  destruct (List.filter _ (users db)) as [|u us]; [exact H|].
  destruct (uu_Age arg <? 0) eqn:G; [exact H|].
  destruct (existsb _ (users db)) eqn:E; [exact H|].
  apply Z.ltb_ge in G. destruct H as (Hid & Hem & Hle & Hag).
  assert (forall v, In v (users db) -> User_ID v <> uu_ID arg ->
                    User_Email v <> uu_Email arg) as Hother.
  { intros v Hv Hne Hemail.
    assert (existsb (fun v => negb (User_ID v =? uu_ID arg)
                              && String.eqb (User_Email v) (uu_Email arg))
                    (users db) = true) as Ht.
    { apply existsb_exists. exists v. split; [exact Hv|].
      apply andb_true_iff. split.
      - apply negb_true_iff. now apply Z.eqb_neq.
      - now apply String.eqb_eq. }
    congruence. }
  clear E. unfold users_invariant. simpl.
  set (f := fun v => if User_ID v =? uu_ID arg
                     then UpdateUser_set arg ts v else v).
  assert (map User_ID (map f (users db)) = map User_ID (users db)) as Hids.
  { rewrite map_map. apply map_ext. intros v. unfold f.
    now destruct (User_ID v =? uu_ID arg). }
  split; [now rewrite Hids|]. split; [|split].
  - apply (NoDup_emails_update (uu_ID arg) (uu_Email arg)
             (UpdateUser_set arg ts) (users db)); try assumption.
    intros v. reflexivity.
  - apply List.Forall_forall. intros w Hw. apply in_map_iff in Hw.
    destruct Hw as (v & <- & Hv). rewrite List.Forall_forall in Hle.
    specialize (Hle v Hv). unfold f. now destruct (User_ID v =? uu_ID arg).
  - apply List.Forall_forall. intros w Hw. apply in_map_iff in Hw.
    destruct Hw as (v & <- & Hv). rewrite List.Forall_forall in Hag.
    specialize (Hag v Hv). unfold f.
    destruct (User_ID v =? uu_ID arg); [exact G | exact Hag].
Qed.

Lemma users_invariant_DeleteUser (id : Z) (db : DB) :
  users_invariant db -> users_invariant (snd (DeleteUser id db)).
Proof.
  intros (Hid & Hem & Hle & Hag). unfold users_invariant. simpl.
  split; [now apply NoDup_map_filter|]. split; [now apply NoDup_map_filter|].
  rewrite List.Forall_forall in Hle, Hag.
  split; apply List.Forall_forall; intros v Hv; apply filter_In in Hv;
    destruct Hv as [Hv _]; auto.
Qed.

Section UserProperties.
Context {EJ : EncodingJson}.

Lemma CreateUser_Ok_inv (userReq : UserRequest)
    (additionalProps : list (string * any)) (t ts : string) (db db' : DB)
    (user : GeneratedUser) (out : list string) :
  CreateUser userReq additionalProps t ts db = (Ok user, db', out) ->
  exists additionalData dbUser db1,
    marshal_additional additionalProps = Ok additionalData
    /\ CreateUser_query (create_user_params userReq additionalData) ts db
       = (Ok dbUser, db1)
    /\ convertDBUserToGenerated dbUser = Ok user
    /\ db' = snd (EnqueueJob JobUserCreated
                    (user_created_payload user additionalProps) 1 t ts db1).
Proof.
  unfold CreateUser. intros H.
  destruct (marshal_additional additionalProps) as [additionalData|err];
    [|discriminate].
  destruct (CreateUser_query _ ts db) as [[dbUser|err] db1] eqn:Q;
    [|discriminate].
  cbn [convertDBUserToGenerated] in H.
  exists additionalData, dbUser, db1. split; [reflexivity|].
  split; [exact Q|].
  match type of H with
  | context [EnqueueJob ?a ?b ?c ?d ?e ?f] =>
      destruct (EnqueueJob a b c d e f) as [[job|jobErr] db2] eqn:E
  end; injection H as <- <- <-; cbn [convertDBUserToGenerated];
    (split; [reflexivity|]); rewrite E; reflexivity.
Qed.

Lemma EnqueueJob_users (jobType : string) (payload : JobPayload)
    (priority : Z) (t ts : string) (db : DB) :
  users (snd (EnqueueJob jobType payload priority t ts db)) = users db
  /\ users_seq (snd (EnqueueJob jobType payload priority t ts db))
     = users_seq db.
Proof.
  unfold EnqueueJob. destruct (json_Marshal payload); split; reflexivity.
Qed.

Lemma users_invariant_CreateUser (userReq : UserRequest)
    (additionalProps : list (string * any)) (t ts : string) (db : DB) :
  users_invariant db ->
  users_invariant (snd (fst (CreateUser userReq additionalProps t ts db))).
Proof.
  intros H. unfold CreateUser.
  destruct (marshal_additional additionalProps) as [additionalData|err];
    [|exact H].
  pose proof (users_invariant_CreateUser_query
                (create_user_params userReq additionalData) ts db H) as H1.
  destruct (CreateUser_query _ ts db) as [[dbUser|err] db1]; [|exact H1].
  cbn [convertDBUserToGenerated]. simpl in H1.
  match goal with
  | |- context [EnqueueJob ?a ?b ?c ?d ?e ?f] =>
      destruct (EnqueueJob_users a b c d e f) as [Hu Hs];
      destruct (EnqueueJob a b c d e f) as [[job|err] db2]; simpl in *;
      unfold users_invariant; rewrite Hu, Hs; exact H1
  end.
Qed.

(** X15. The users table keeps what its schema declares: after CreateUser,
    and after the queries UpdateUser and DeleteUser, ids and emails are
    still unique, no id is above the AUTOINCREMENT counter and no age is
    negative. *)
Theorem users_invariant_kept (db : DB) :
  users_invariant db ->
  (forall userReq additionalProps t ts,
     users_invariant (snd (fst (CreateUser userReq additionalProps t ts db))))
  /\ (forall arg ts, users_invariant (snd (UpdateUser arg ts db)))
  /\ (forall id, users_invariant (snd (DeleteUser id db))).
Proof.
  intros H. split; [|split].
  - intros. now apply users_invariant_CreateUser.
  - intros. now apply users_invariant_UpdateUser.
  - intros. now apply users_invariant_DeleteUser.
Qed.

End UserProperties.

Lemma users_invariant_kept_witness :
  (forall userReq additionalProps t ts,
     users_invariant
       (snd (fst (CreateUser (EJ := sample_json) userReq additionalProps t ts
                    db_one_user))))
  /\ (forall arg ts, users_invariant (snd (UpdateUser arg ts db_one_user)))
  /\ (forall id, users_invariant (snd (DeleteUser id db_one_user))).
Proof.
  apply (users_invariant_kept (EJ := sample_json) db_one_user).
  apply (users_invariant_CreateUser (EJ := sample_json)).
  unfold users_invariant. simpl. repeat split; constructor.
Defined.

Lemma GetUserByID_query_app (id : Z) (db : DB) (u : User) (rows : list User)
    (seq : Z) (jobs : list JobQueue) (jseq : Z) :
  (forall v, In v (users db) -> User_ID v <> User_ID u) ->
  rows = (users db ++ [u])%list ->
  GetUserByID_query id {| users := rows; users_seq := seq;
                          job_queue := jobs; job_queue_seq := jseq |}
  = if id =? User_ID u then Ok u else GetUserByID_query id db.
Proof.
  intros Hfresh ->. unfold GetUserByID_query. simpl.
  rewrite List.filter_app. simpl. rewrite (Z.eqb_sym id).
  destruct (User_ID u =? id) eqn:E.
  - apply Z.eqb_eq in E.
    destruct (List.filter (fun v => User_ID v =? id) (users db)) as [|r rs] eqn:F;
      [reflexivity|].
    exfalso. assert (In r (List.filter (fun v => User_ID v =? id) (users db)))
      as Hr by (rewrite F; now left).
    apply filter_In in Hr. destruct Hr as [Hr Er]. apply Z.eqb_eq in Er.
    apply (Hfresh r Hr). congruence.
  - now rewrite app_nil_r.
Qed.

Lemma GetUserByID_query_Ok (id : Z) (db : DB) (u : User) :
  GetUserByID_query id db = Ok u -> In u (users db) /\ User_ID u = id.
Proof.
  unfold GetUserByID_query. intros H.
  destruct (List.filter (fun v => User_ID v =? id) (users db)) as [|r rs] eqn:F;
    [discriminate|].
  injection H as ->.
  assert (In u (List.filter (fun v => User_ID v =? id) (users db))) as Hin
    by (rewrite F; now left).
  apply filter_In in Hin. destruct Hin as [Hin E].
  split; [exact Hin | now apply Z.eqb_eq].
Qed.

Lemma GetUserByID_query_unique (db : DB) (u : User) :
  users_invariant db -> In u (users db) ->
  GetUserByID_query (User_ID u) db = Ok u.
Proof.
  intros (Hnd & _) Hin. unfold GetUserByID_query.
  induction (users db) as [|r rows IH]; [destruct Hin|].
  simpl in *. inversion Hnd as [|? ? Hnotin Hnd']; subst.
  destruct Hin as [->|Hin].
  - now rewrite Z.eqb_refl.
  - destruct (User_ID r =? User_ID u) eqn:E.
    + exfalso. apply Z.eqb_eq in E. apply Hnotin. rewrite E.
      now apply List.in_map.
    + now apply IH.
Qed.

Lemma GetUserByID_query_none (id : Z) (db : DB) :
  (forall u, In u (users db) -> User_ID u <> id) ->
  GetUserByID_query id db = Err sql_ErrNoRows.
Proof.
  intros H. unfold GetUserByID_query.
  destruct (List.filter (fun v => User_ID v =? id) (users db)) as [|r rs] eqn:F;
    [reflexivity|].
  exfalso. assert (In r (List.filter (fun v => User_ID v =? id) (users db)))
    as Hr by (rewrite F; now left).
  apply filter_In in Hr. destruct Hr as [Hr E]. apply Z.eqb_eq in E.
  now apply (H r Hr).
Qed.

Section UserRoundTrips.
Context {EJ : EncodingJson}.

(** The users table after a successful CreateUser: the new row, under the
    next id, and the rows that were there. *)
Lemma CreateUser_users (userReq : UserRequest)
    (additionalProps : list (string * any)) (t ts : string)
    (db db' : DB) (user : GeneratedUser) (out : list string) :
  users_invariant db ->
  CreateUser userReq additionalProps t ts db = (Ok user, db', out) ->
  exists dbUser,
    convertDBUserToGenerated dbUser = Ok user
    /\ User_ID dbUser = users_seq db + 1
    /\ User_Email dbUser = req_Email userReq
    /\ User_Age dbUser = req_Age userReq
    /\ User_Name dbUser = req_Name userReq
    /\ User_Bio dbUser = req_Bio userReq
    /\ User_IsActive dbUser = match req_IsActive userReq with
                              | Some b => b
                              | None => true
                              end
    /\ forall id, GetUserByID_query id db'
                  = if id =? User_ID dbUser then Ok dbUser
                    else GetUserByID_query id db.
Proof.
  intros (_ & _ & Hle & _) H. apply CreateUser_Ok_inv in H.
  destruct H as (additionalData & dbUser & db1 & _ & Q & Hconv & ->).
  apply CreateUser_query_Ok_inv in Q. destruct Q as (_ & _ & Hu & ->).
  rewrite List.Forall_forall in Hle.
  assert (forall v, In v (users db) -> User_ID v <> User_ID dbUser) as Hfresh.
  { intros v Hv. specialize (Hle v Hv). subst dbUser. simpl. lia. }
  exists dbUser. split; [exact Hconv|].
  repeat (split; [subst dbUser; reflexivity|]).
  match goal with
  | |- context [EnqueueJob ?a ?b ?c ?d ?e ?f] =>
      destruct (EnqueueJob_users a b c d e f) as [Hus _];
      set (db2 := snd (EnqueueJob a b c d e f)) in *
  end.
  intros id. destruct db2 as [us useq jq jseq]. simpl in Hus.
  now apply GetUserByID_query_app.
Qed.

(** X16. A successful CreateUser returns the user with the next id of the
    AUTOINCREMENT counter, the email, age, name and bio of the request, and
    is_active as requested or true when the request leaves it out;
    GetUserByID of that id then returns this very user, and every other id
    answers as before. *)
Theorem CreateUser_then_GetUserByID (userReq : UserRequest)
    (additionalProps : list (string * any)) (time_Now current_timestamp : string)
    (db db' : DB) (user : GeneratedUser) (out : list string) :
  users_invariant db ->
  CreateUser userReq additionalProps time_Now current_timestamp db
  = (Ok user, db', out) ->
  user = {| gen_Id := users_seq db + 1;
            gen_Email := req_Email userReq;
            gen_Age := req_Age userReq;
            gen_Name := req_Name userReq;
            gen_Bio := req_Bio userReq;
            gen_IsActive := Some (match req_IsActive userReq with
                                  | Some b => b
                                  | None => true
                                  end) |}
  /\ GetUserByID (gen_Id user) db' = inr user
  /\ forall id, id <> gen_Id user -> GetUserByID id db' = GetUserByID id db.
Proof.
  intros Hinv H.
  destruct (CreateUser_users _ _ _ _ _ _ _ _ Hinv H)
    as (dbUser & Hconv & Hid & Hem & Hag & Hna & Hbi & Hact & Hq).
  injection Hconv as <-. split; [congruence|]. split.
  - unfold GetUserByID. rewrite Hq. cbn [gen_Id]. now rewrite Z.eqb_refl.
  - intros id Hne. unfold GetUserByID. rewrite Hq. cbn [gen_Id] in Hne.
    assert ((id =? User_ID dbUser) = false) as -> by now apply Z.eqb_neq.
    reflexivity.
Qed.

(** X17. CreateUser for an email that a user already has, or with a negative
    age, fails with the constraint error wrapped in "failed to create user";
    it stores no user, enqueues no job and prints nothing. *)
Theorem CreateUser_rejected (userReq : UserRequest)
    (additionalProps : list (string * any)) (time_Now current_timestamp : string)
    (db : DB) (additionalData : option string) :
  marshal_additional additionalProps = Ok additionalData ->
  (exists u, In u (users db) /\ User_Email u = req_Email userReq)
  \/ req_Age userReq < 0 ->
  exists msg,
    CreateUser userReq additionalProps time_Now current_timestamp db
    = (Err (Errorf "failed to create user" (sql_ErrConstraint msg)), db, []).
Proof.
  intros HM Hbad. unfold CreateUser, CreateUser_query. rewrite HM.
  cbn [cu_Email cu_Age create_user_params].
  destruct (req_Age userReq <? 0) eqn:G; [eexists; reflexivity|].
  destruct (existsb (fun u => String.eqb (User_Email u) (req_Email userReq))
              (users db)) eqn:E; [eexists; reflexivity|].
  exfalso. destruct Hbad as [(u & Hu & He)|Hage].
  - assert (existsb (fun u => String.eqb (User_Email u) (req_Email userReq))
              (users db) = true) as Ht.
    { apply existsb_exists. exists u. split; [exact Hu|].
      now apply String.eqb_eq. }
    congruence.
  - apply Z.ltb_lt in Hage. congruence.
Qed.

(** X18. After a successful CreateUser whose payload serializes, the job
    table holds exactly one more row, the last one: a 'pending' job of type
    user_created with priority 1, max_retries 3 and the serialized payload;
    nothing is printed. *)
Theorem CreateUser_enqueues_job (userReq : UserRequest)
    (additionalProps : list (string * any)) (time_Now current_timestamp : string)
    (db db' : DB) (user : GeneratedUser) (out : list string)
    (payloadJSON : string) :
  CreateUser userReq additionalProps time_Now current_timestamp db
  = (Ok user, db', out) ->
  json_Marshal (user_created_payload user additionalProps) = Ok payloadJSON ->
  out = []
  /\ job_queue db'
     = (job_queue db
        ++ [{| ID := job_queue_seq db + 1; JobType := "user_created";
               Payload := payloadJSON; Status := "pending";
               Priority := Some 1; MaxRetries := Some 3;
               RetryCount := Some 0; ErrorMessage := None;
               ScheduledAt := Some time_Now; StartedAt := None;
               CompletedAt := None;
               CreatedAt := Some current_timestamp |}])%list.
Proof.
  intros H M.
  destruct (CreateUser_Ok_inv _ _ _ _ _ _ _ _ H)
    as (additionalData & dbUser & db1 & HM & Q & Hconv & _).
  unfold CreateUser in H. rewrite HM, Q in H.
  cbn [convertDBUserToGenerated] in H. injection Hconv as <-.
  rewrite (EnqueueJob_marshalled _ _ _ _ _ _ _ M) in H.
  unfold CreateJob in H. injection H as <- <-.
  apply CreateUser_query_Ok_inv in Q. destruct Q as (_ & _ & _ & ->).
  split; reflexivity.
Qed.

End UserRoundTrips.

(** X19. UserHandler.GetUserById answers 404 "User not found" for an id that
    no user has, and 200 with the user for the id of a stored user. *)
Theorem UserHandler_GetUserById_answers (id : Z) (db : DB) :
  ((forall u, In u (users db) -> User_ID u <> id) ->
   UserHandler_GetUserById id db = JSON_error StatusNotFound "User not found")
  /\ (forall u,
        users_invariant db -> In u (users db) -> User_ID u = id ->
        UserHandler_GetUserById id db
        = JSON_user StatusOK
            {| gen_Id := User_ID u; gen_Email := User_Email u;
               gen_Age := User_Age u; gen_Name := User_Name u;
               gen_Bio := User_Bio u;
               gen_IsActive := Some (User_IsActive u) |}).
Proof.
  split.
  - intros H. unfold UserHandler_GetUserById, GetUserByID.
    now rewrite (GetUserByID_query_none id db H).
  - intros u Hinv Hin <-. unfold UserHandler_GetUserById, GetUserByID.
    now rewrite (GetUserByID_query_unique db u Hinv Hin).
Qed.

(** X20. DeleteUser removes the user of the given id and no other; and since
    the AUTOINCREMENT counter stays, no user created afterwards gets the id
    of the deleted user. *)
Theorem DeleteUser_id_not_reused (id : Z) (db : DB) :
  users_invariant db ->
  GetUserByID_query id (snd (DeleteUser id db)) = Err sql_ErrNoRows
  /\ (forall id', id' <> id ->
        GetUserByID_query id' (snd (DeleteUser id db))
        = GetUserByID_query id' db)
  /\ (forall u arg ts u' db2,
        In u (users db) -> User_ID u = id ->
        CreateUser_query arg ts (snd (DeleteUser id db)) = (Ok u', db2) ->
        User_ID u' <> id).
Proof.
  intros (_ & _ & Hle & _). split; [|split].
  - apply GetUserByID_query_none. simpl. intros u Hu.
    apply filter_In in Hu. destruct Hu as [_ E].
    apply negb_true_iff in E. now apply Z.eqb_neq.
  - intros id' Hne. unfold GetUserByID_query. simpl.
    f_equal. induction (users db) as [|r rows IH]; [reflexivity|].
    simpl. destruct (User_ID r =? id) eqn:E; simpl.
    + apply Z.eqb_eq in E.
      assert ((User_ID r =? id') = false) as ->
        by (apply Z.eqb_neq; congruence).
      apply IH. now inversion Hle.
    + destruct (User_ID r =? id'); [f_equal|]; apply IH; now inversion Hle.
  - intros u arg ts u' db2 Hu <- Q.
    apply CreateUser_query_Ok_inv in Q. destruct Q as (_ & _ & -> & _).
    simpl. rewrite List.Forall_forall in Hle. specialize (Hle u Hu). lia.
Qed.

Lemma CreateUser_then_GetUserByID_witness :
  sample_user
  = {| gen_Id := users_seq empty_db + 1;
       gen_Email := req_Email sample_request;
       gen_Age := req_Age sample_request;
       gen_Name := req_Name sample_request;
       gen_Bio := req_Bio sample_request;
       gen_IsActive := Some (match req_IsActive sample_request with
                             | Some b => b
                             | None => true
                             end) |}
  /\ GetUserByID (gen_Id sample_user) db_one_user = inr sample_user
  /\ forall id, id <> gen_Id sample_user ->
       GetUserByID id db_one_user = GetUserByID id empty_db.
Proof.
  apply (CreateUser_then_GetUserByID (EJ := sample_json) sample_request []
           (time_Now_at "05") (current_timestamp_at "05")
           empty_db db_one_user sample_user []).
  - unfold users_invariant. simpl. repeat split; constructor.
  - vm_compute. reflexivity.
Defined.

Lemma CreateUser_rejected_witness :
  exists msg,
    CreateUser (EJ := sample_json) sample_request []
      (time_Now_at "06") (current_timestamp_at "06") db_one_user
    = (Err (Errorf "failed to create user" (sql_ErrConstraint msg)),
       db_one_user, []).
Proof.
  apply (CreateUser_rejected (EJ := sample_json) sample_request []
           (time_Now_at "06") (current_timestamp_at "06") db_one_user None).
  - reflexivity.
  - left. eexists. split; [vm_compute; left; reflexivity | reflexivity].
Defined.

Lemma CreateUser_enqueues_job_witness :
  @nil string = []
  /\ job_queue db_one_user
     = (job_queue empty_db
        ++ [{| ID := job_queue_seq empty_db + 1; JobType := "user_created";
               Payload := "{"; Status := "pending";
               Priority := Some 1; MaxRetries := Some 3;
               RetryCount := Some 0; ErrorMessage := None;
               ScheduledAt := Some (time_Now_at "05"); StartedAt := None;
               CompletedAt := None;
               CreatedAt := Some (current_timestamp_at "05") |}])%list.
Proof.
  apply (CreateUser_enqueues_job (EJ := sample_json) sample_request []
           (time_Now_at "05") (current_timestamp_at "05")
           empty_db db_one_user sample_user [] "{").
  - vm_compute. reflexivity.
  - reflexivity.
Defined.

Lemma UserHandler_GetUserById_answers_witness :
  UserHandler_GetUserById 9 db_one_user
  = JSON_error StatusNotFound "User not found".
Proof.
  apply (proj1 (UserHandler_GetUserById_answers 9 db_one_user)).
  intros u Hu. vm_compute in Hu. destruct Hu as [<-|[]]. discriminate.
Defined.

Lemma DeleteUser_id_not_reused_witness :
  GetUserByID_query 1 (snd (DeleteUser 1 db_one_user)) = Err sql_ErrNoRows
  /\ (forall id', id' <> 1 ->
        GetUserByID_query id' (snd (DeleteUser 1 db_one_user))
        = GetUserByID_query id' db_one_user)
  /\ (forall u arg ts u' db2,
        In u (users db_one_user) -> User_ID u = 1 ->
        CreateUser_query arg ts (snd (DeleteUser 1 db_one_user)) = (Ok u', db2) ->
        User_ID u' <> 1).
Proof.
  apply (DeleteUser_id_not_reused 1 db_one_user).
  apply (users_invariant_CreateUser (EJ := sample_json)).
  unfold users_invariant. simpl. repeat split; constructor.
Defined.

(** ** The queries by email *)

(** X21. After the INSERT of CreateUser succeeded, GetUserByEmail with the
    inserted email returns the inserted row; and GetUserByEmail with an
    email that no row holds returns sql.ErrNoRows. *)
Theorem GetUserByEmail_after_insert (arg : CreateUserParams) (ts : string)
    (db db1 : DB) (u : User) :
  CreateUser_query arg ts db = (Ok u, db1) ->
  GetUserByEmail (cu_Email arg) db1 = Ok u
  /\ forall email,
       (forall v, In v (users db1) -> User_Email v <> email) ->
       GetUserByEmail email db1 = Err sql_ErrNoRows.
Proof.
  intros Q. apply CreateUser_query_Ok_inv in Q.
  destruct Q as (Hfresh & _ & Hu & ->). split.
  - unfold GetUserByEmail. simpl. rewrite List.filter_app. simpl.
    assert (User_Email u = cu_Email arg) as He by (subst u; reflexivity).
    rewrite He, String.eqb_refl.
    destruct (List.filter _ (users db)) as [|r rs] eqn:F; [reflexivity|].
    exfalso.
    assert (In r (List.filter
                    (fun v => String.eqb (User_Email v) (cu_Email arg))
                    (users db))) as Hr by (rewrite F; now left).
    apply filter_In in Hr. destruct Hr as [Hr E]. apply String.eqb_eq in E.
    now apply (Hfresh r Hr).
  - intros email Hnone. unfold GetUserByEmail.
    destruct (List.filter _ _) as [|r rs] eqn:F; [reflexivity|].
    exfalso.
    match type of F with
    | List.filter ?p ?l = _ =>
        assert (In r (List.filter p l)) as Hr by (rewrite F; now left)
    end.
    apply filter_In in Hr. destruct Hr as [Hr E]. apply String.eqb_eq in E.
    now apply (Hnone r Hr).
Qed.

Lemma GetUserByEmail_after_insert_witness :
  GetUserByEmail (cu_Email (create_user_params sample_request None))
    (snd (CreateUser_query (create_user_params sample_request None)
            (current_timestamp_at "05") empty_db))
  = Ok {| User_ID := 1; User_Email := "a@example.com"; User_Age := 30;
          User_Name := Some "A"; User_Bio := None; User_IsActive := true;
          User_AdditionalData := None;
          User_CreatedAt := Some (current_timestamp_at "05");
          User_UpdatedAt := Some (current_timestamp_at "05") |}
  /\ forall email,
       (forall v,
          In v (users (snd (CreateUser_query
                              (create_user_params sample_request None)
                              (current_timestamp_at "05") empty_db))) ->
          User_Email v <> email) ->
       GetUserByEmail email
         (snd (CreateUser_query (create_user_params sample_request None)
                 (current_timestamp_at "05") empty_db))
       = Err sql_ErrNoRows.
Proof.
  apply (GetUserByEmail_after_insert
           (create_user_params sample_request None)
           (current_timestamp_at "05") empty_db).
  vm_compute. reflexivity.
Defined.

(** ** UserHandler *)

(** X22. The additional properties UserHandler.CreateUser passes on are the
    entries of the request body under every key other than "email", "age",
    "name", "bio" and "is_active": those five keys are left out, every other
    key keeps its value. *)
Theorem additional_props_lookup (rawBody : gmap string any) (key : string) :
  (In key ["email"; "age"; "name"; "bio"; "is_active"] ->
   additional_props rawBody !! key = None)
  /\ (~ In key ["email"; "age"; "name"; "bio"; "is_active"] ->
      additional_props rawBody !! key = rawBody !! key).
Proof.
  assert (is_known key = true
          <-> In key ["email"; "age"; "name"; "bio"; "is_active"]) as Hk.
  { unfold is_known, knownFields. simpl.
    repeat (rewrite lookup_insert; case_decide;
            [subst; simpl; split; [tauto | reflexivity]|]).
    rewrite lookup_empty. simpl. split; [discriminate|].
    intros [?|[?|[?|[?|[?|[]]]]]]; congruence. }
  unfold additional_props. rewrite map_lookup_filter.
  split.
  - intros Hin. apply Hk in Hin.
    destruct (rawBody !! key) as [v|]; [|reflexivity]. simpl.
    rewrite option_guard_False; [reflexivity|]. simpl. congruence.
  - intros Hnot.
    destruct (rawBody !! key) as [v|]; [|reflexivity]. simpl.
    rewrite option_guard_True; [reflexivity|]. simpl.
    destruct (is_known key) eqn:E; [|reflexivity].
    exfalso. apply Hnot. now apply Hk.
Qed.

Section HandlerProperties.
Context {EJ : EncodingJson} {RD : RequestDecoder}.

Lemma CreateUser_Err_unchanged (userReq : UserRequest)
    (additionalProps : list (string * any)) (t ts : string) (db db' : DB)
    (err : error) (out : list string) :
  CreateUser userReq additionalProps t ts db = (Err err, db', out) ->
  db' = db /\ out = [].
Proof.
  unfold CreateUser. intros H.
  destruct (marshal_additional additionalProps) as [additionalData|e];
    [|injection H as _ <- <-; now split].
  destruct (CreateUser_query _ ts db) as [[dbUser|e] db1] eqn:Q.
  - cbn [convertDBUserToGenerated] in H.
    match type of H with
    | context [EnqueueJob ?a ?b ?c ?d ?e ?f] =>
        destruct (EnqueueJob a b c d e f) as [[job|jobErr] db2]
    end; discriminate.
  - injection H as _ <- <-. unfold CreateUser_query in Q.
    destruct (cu_Age _ <? 0); [injection Q as _ <-; now split|].
    destruct (existsb _ (users db)); [injection Q as _ <-; now split | discriminate].
Qed.

(** X23. Whenever UserHandler.CreateUser answers with an error, the status
    code is 400 or 500 and the database is as it was before the request: no
    user was stored, no job was enqueued, nothing was printed. *)
Theorem UserHandler_CreateUser_error_unchanged
    (bound : result (gmap string any)) (time_Now current_timestamp : string)
    (db db' : DB) (code : Z) (message : string) (out : list string) :
  UserHandler_CreateUser bound time_Now current_timestamp db
  = (JSON_error code message, db', out) ->
  db' = db /\ out = []
  /\ (code = StatusBadRequest \/ code = StatusInternalServerError).
Proof.
  unfold UserHandler_CreateUser. intros H.
  destruct bound as [rawBody|e];
    [|injection H as <- _ <- <-; repeat split; now left].
  destruct (decode_UserRequest rawBody) as [userReq|e];
    [|injection H as <- _ <- <-; repeat split; now left].
  destruct (CreateUser userReq _ time_Now current_timestamp db)
    as [[[user|err] db1] out1] eqn:C; [discriminate|].
  injection H as <- _ <- <-.
  destruct (CreateUser_Err_unchanged _ _ _ _ _ _ _ _ C) as [-> ->].
  repeat split. now right.
Qed.

(** X24. When UserHandler.CreateUser answers with a user, the status code is
    201 and a GetUserById for the id of that user answers 200 with the same
    user. *)
Theorem UserHandler_create_then_get (bound : result (gmap string any))
    (time_Now current_timestamp : string) (db db' : DB) (code : Z)
    (user : GeneratedUser) (out : list string) :
  users_invariant db ->
  UserHandler_CreateUser bound time_Now current_timestamp db
  = (JSON_user code user, db', out) ->
  code = StatusCreated
  /\ UserHandler_GetUserById (gen_Id user) db' = JSON_user StatusOK user.
Proof.
  unfold UserHandler_CreateUser. intros Hinv H.
  destruct bound as [rawBody|e]; [|discriminate].
  destruct (decode_UserRequest rawBody) as [userReq|e]; [|discriminate].
  destruct (CreateUser userReq _ time_Now current_timestamp db)
    as [[[user1|err] db1] out1] eqn:C; [|discriminate].
  injection H as <- <- <- <-. split; [reflexivity|].
  destruct (CreateUser_users _ _ _ _ _ _ _ _ Hinv C)
    as (dbUser & Hconv & _ & _ & _ & _ & _ & _ & Hq).
  unfold UserHandler_GetUserById, GetUserByID. rewrite Hq.
  injection Hconv as <-. cbn [gen_Id]. now rewrite Z.eqb_refl.
Qed.

End HandlerProperties.

Lemma UserHandler_CreateUser_error_unchanged_witness :
  db_one_user = db_one_user /\ @nil string = []
  /\ (StatusInternalServerError = StatusBadRequest
      \/ StatusInternalServerError = StatusInternalServerError).
Proof.
  apply (UserHandler_CreateUser_error_unchanged (EJ := sample_json)
           (RD := sample_decoder)
           (Ok (<["email" := AnyString "a@example.com"]>
                  (<["age" := AnyInt 30]> ∅)))
           (time_Now_at "06") (current_timestamp_at "06")
           db_one_user db_one_user StatusInternalServerError
           "Failed to create user: failed to create user: constraint failed: UNIQUE constraint failed: users.email (2067)"
           []).
  vm_compute. reflexivity.
Defined.

Lemma UserHandler_create_then_get_witness :
  StatusCreated = StatusCreated
  /\ UserHandler_GetUserById 2
       (snd (fst (UserHandler_CreateUser (EJ := sample_json)
                    (RD := sample_decoder) (Ok sample_body)
                    (time_Now_at "06") (current_timestamp_at "06")
                    db_one_user)))
     = JSON_user StatusOK
         {| gen_Id := 2; gen_Email := "b@example.com"; gen_Age := 41;
            gen_Name := None; gen_Bio := None; gen_IsActive := Some true |}.
Proof.
  apply (UserHandler_create_then_get (EJ := sample_json)
           (RD := sample_decoder) (Ok sample_body)
           (time_Now_at "06") (current_timestamp_at "06") db_one_user
           (snd (fst (UserHandler_CreateUser (EJ := sample_json)
                        (RD := sample_decoder) (Ok sample_body)
                        (time_Now_at "06") (current_timestamp_at "06")
                        db_one_user)))
           StatusCreated
           {| gen_Id := 2; gen_Email := "b@example.com"; gen_Age := 41;
              gen_Name := None; gen_Bio := None; gen_IsActive := Some true |}
           []).
  - apply (users_invariant_CreateUser (EJ := sample_json)).
    unfold users_invariant. simpl. repeat split; constructor.
  - vm_compute. reflexivity.
Defined.

(** ** InMemoryUserHandler *)

Lemma InMemory_create_all_lookup (reqs : list UserRequest)
    (h : InMemoryUserHandler) :
  nextID (InMemory_create_all reqs h) = nextID h + Z.of_nat (length reqs)
  /\ (forall k req,
        nth_error reqs k = Some req ->
        mem_users (InMemory_create_all reqs h) !! (nextID h + Z.of_nat k)
        = Some {| gen_Id := nextID h + Z.of_nat k;
                  gen_Email := req_Email req; gen_Age := req_Age req;
                  gen_Name := req_Name req; gen_Bio := req_Bio req;
                  gen_IsActive := req_IsActive req |})
  /\ (forall id,
        id < nextID h \/ nextID h + Z.of_nat (length reqs) <= id ->
        mem_users (InMemory_create_all reqs h) !! id = mem_users h !! id).
Proof.
  revert h. induction reqs as [|r rs IH]; intros h.
  - simpl. split; [lia|]. split; [intros [|k] req H; discriminate|].
    intros id _. reflexivity.
  - change (InMemory_create_all (r :: rs) h)
      with (InMemory_create_all rs (snd (InMemory_CreateUser (Ok r) h))).
    remember (snd (InMemory_CreateUser (Ok r) h)) as h1 eqn:Hh1.
    assert (nextID h1 = nextID h + 1) as Hn1 by (subst h1; reflexivity).
    assert (mem_users h1
            = <[nextID h := {| gen_Id := nextID h;
                               gen_Email := req_Email r; gen_Age := req_Age r;
                               gen_Name := req_Name r; gen_Bio := req_Bio r;
                               gen_IsActive := req_IsActive r |}]>
                (mem_users h)) as Hu1 by (subst h1; reflexivity).
    destruct (IH h1) as (Hn & Hin & Hout). rewrite Hn1 in *.
    split; [rewrite Hn; simpl length; lia|]. split.
    + intros [|k] req Hk; simpl in Hk.
      * injection Hk as <-. rewrite Hout by lia.
        rewrite Hu1, Z.add_0_r. apply lookup_insert_eq.
      * specialize (Hin k req Hk).
        replace (nextID h + Z.of_nat (S k)) with (nextID h + 1 + Z.of_nat k)
          by lia.
        exact Hin.
    + intros id Hid. simpl length in Hid.
      rewrite Hout by lia. rewrite Hu1. apply lookup_insert_ne. lia.
Qed.

(** X25. After any number of successful CreateUser requests on a new
    in-memory handler, the user of the k-th request is the one GetUserById
    answers with (status 200) for id k, with the email, age, name, bio and
    is_active of that request as they were sent; for every id below 1 or
    above the number of requests GetUserById answers 404. *)
Theorem InMemory_create_all_get (reqs : list UserRequest) :
  (forall k req,
     nth_error reqs k = Some req ->
     InMemory_GetUserById (Z.of_nat k + 1)
       (InMemory_create_all reqs NewInMemoryUserHandler)
     = JSON_user StatusOK
         {| gen_Id := Z.of_nat k + 1;
            gen_Email := req_Email req; gen_Age := req_Age req;
            gen_Name := req_Name req; gen_Bio := req_Bio req;
            gen_IsActive := req_IsActive req |})
  /\ (forall id,
        id < 1 \/ Z.of_nat (length reqs) < id ->
        InMemory_GetUserById id
          (InMemory_create_all reqs NewInMemoryUserHandler)
        = JSON_error StatusNotFound "User not found").
Proof.
  destruct (InMemory_create_all_lookup reqs NewInMemoryUserHandler)
    as (_ & Hin & Hout).
  cbn [nextID NewInMemoryUserHandler] in *. split.
  - intros k req Hk. unfold InMemory_GetUserById.
    specialize (Hin k req Hk).
    replace (Z.of_nat k + 1) with (1 + Z.of_nat k) by lia.
    now rewrite Hin.
  - intros id Hid. unfold InMemory_GetUserById.
    rewrite Hout by lia. cbn [mem_users NewInMemoryUserHandler].
    now rewrite lookup_empty.
Qed.

Lemma InMemory_create_all_get_witness :
  InMemory_GetUserById (Z.of_nat 0 + 1)
    (InMemory_create_all [sample_request] NewInMemoryUserHandler)
  = JSON_user StatusOK
      {| gen_Id := Z.of_nat 0 + 1;
         gen_Email := req_Email sample_request;
         gen_Age := req_Age sample_request;
         gen_Name := req_Name sample_request;
         gen_Bio := req_Bio sample_request;
         gen_IsActive := req_IsActive sample_request |}.
Proof.
  apply (proj1 (InMemory_create_all_get [sample_request]) 0%nat sample_request).
  reflexivity.
Defined.

(** ** worker-manager: enqueueTestJob *)

Section WorkerManagerProperties.
Context {EJ : EncodingJson} {SC : Strconv}.

Lemma parse_job_type_known (jobTypeStr : string) :
  In jobTypeStr ["user_created"; "data_analysis"; "email_notification";
                 "data_export"] ->
  parse_job_type jobTypeStr = Some jobTypeStr.
Proof.
  intros [<-|[<-|[<-|[<-|[]]]]]; reflexivity.
Qed.

Lemma parse_job_type_unknown (jobTypeStr : string) :
  ~ In jobTypeStr ["user_created"; "data_analysis"; "email_notification";
                   "data_export"] ->
  parse_job_type jobTypeStr = None.
Proof.
  intros H. unfold parse_job_type.
  repeat match goal with
  | |- context [String.eqb jobTypeStr ?s] =>
      destruct (String.eqb_spec jobTypeStr s) as [E|_];
        [exfalso; apply H; rewrite E; simpl; tauto|]
  end.
  reflexivity.
Qed.

(** X26. enqueueTestJob accepts exactly the four job type names
    user_created, data_analysis, email_notification and data_export: for
    any other name it leaves through os.Exit(1) with the database untouched;
    for one of the four, when the payload serializes, it appends one pending
    job of that type, with max_retries 3 and with the priority that
    strconv.Atoi reads from its first optional argument, or 0 when that
    argument is missing or is not a number. *)
Theorem enqueueTestJob_job_types (jobTypeStr message : string)
    (args : list string) (time_Now current_timestamp : string) (db : DB) :
  (In jobTypeStr ["user_created"; "data_analysis"; "email_notification";
                  "data_export"] ->
   forall payloadJSON,
     json_Marshal (test_payload jobTypeStr message) = Ok payloadJSON ->
     exists db',
       enqueueTestJob jobTypeStr message args time_Now current_timestamp db
       = (cli_return, db')
       /\ job_queue db'
          = (job_queue db
             ++ [{| ID := job_queue_seq db + 1; JobType := jobTypeStr;
                    Payload := payloadJSON; Status := "pending";
                    Priority :=
                      Some (match args with
                            | [] => 0
                            | a :: _ => match strconv_Atoi a with
                                        | Ok p => p
                                        | Err _ => 0
                                        end
                            end);
                    MaxRetries := Some 3; RetryCount := Some 0;
                    ErrorMessage := None; ScheduledAt := Some time_Now;
                    StartedAt := None; CompletedAt := None;
                    CreatedAt := Some current_timestamp |}])%list)
  /\ (~ In jobTypeStr ["user_created"; "data_analysis"; "email_notification";
                       "data_export"] ->
      enqueueTestJob jobTypeStr message args time_Now current_timestamp db
      = (cli_Exit 1, db)).
Proof.
  split.
  - intros Hin payloadJSON M. unfold enqueueTestJob.
    rewrite (parse_job_type_known jobTypeStr Hin).
    rewrite (EnqueueJob_marshalled _ _ _ _ _ _ _ M). unfold CreateJob.
    eexists. split; reflexivity.
  - intros Hnot. unfold enqueueTestJob.
    now rewrite (parse_job_type_unknown jobTypeStr Hnot).
Qed.

End WorkerManagerProperties.

Lemma enqueueTestJob_job_types_witness :
  (exists db',
     enqueueTestJob (EJ := sample_json) (SC := sample_strconv)
       "data_export" "nightly" ["7"]
       (time_Now_at "03") (current_timestamp_at "03") db_one_pending
     = (cli_return, db')
     /\ job_queue db'
        = (job_queue db_one_pending
           ++ [{| ID := 2; JobType := "data_export";
                  Payload := "{nightly"; Status := "pending";
                  Priority := Some 7;
                  MaxRetries := Some 3; RetryCount := Some 0;
                  ErrorMessage := None;
                  ScheduledAt := Some (time_Now_at "03");
                  StartedAt := None; CompletedAt := None;
                  CreatedAt := Some (current_timestamp_at "03") |}])%list)
  /\ (exists db',
        enqueueTestJob (EJ := sample_json) (SC := sample_strconv)
          "data_export" "nightly" []
          (time_Now_at "03") (current_timestamp_at "03") db_one_pending
        = (cli_return, db')
        /\ job_queue db'
           = (job_queue db_one_pending
              ++ [{| ID := 2; JobType := "data_export";
                     Payload := "{nightly"; Status := "pending";
                     Priority := Some 0;
                     MaxRetries := Some 3; RetryCount := Some 0;
                     ErrorMessage := None;
                     ScheduledAt := Some (time_Now_at "03");
                     StartedAt := None; CompletedAt := None;
                     CreatedAt := Some (current_timestamp_at "03") |}])%list)
  /\ (exists db',
        enqueueTestJob (EJ := sample_json) (SC := sample_strconv)
          "data_export" "nightly" ["high"]
          (time_Now_at "03") (current_timestamp_at "03") db_one_pending
        = (cli_return, db')
        /\ job_queue db'
           = (job_queue db_one_pending
              ++ [{| ID := 2; JobType := "data_export";
                     Payload := "{nightly"; Status := "pending";
                     Priority := Some 0;
                     MaxRetries := Some 3; RetryCount := Some 0;
                     ErrorMessage := None;
                     ScheduledAt := Some (time_Now_at "03");
                     StartedAt := None; CompletedAt := None;
                     CreatedAt := Some (current_timestamp_at "03") |}])%list)
  /\ enqueueTestJob (EJ := sample_json) (SC := sample_strconv)
       "cleanup" "nightly" ["7"]
       (time_Now_at "03") (current_timestamp_at "03") db_one_pending
     = (cli_Exit 1, db_one_pending).
Proof.
  split; [|split; [|split]].
  - apply (proj1 (enqueueTestJob_job_types (EJ := sample_json)
                    (SC := sample_strconv) "data_export" "nightly" ["7"]
                    (time_Now_at "03") (current_timestamp_at "03")
                    db_one_pending)).
    + simpl. tauto.
    + reflexivity.
  - apply (proj1 (enqueueTestJob_job_types (EJ := sample_json)
                    (SC := sample_strconv) "data_export" "nightly" []
                    (time_Now_at "03") (current_timestamp_at "03")
                    db_one_pending)).
    + simpl. tauto.
    + reflexivity.
  - apply (proj1 (enqueueTestJob_job_types (EJ := sample_json)
                    (SC := sample_strconv) "data_export" "nightly" ["high"]
                    (time_Now_at "03") (current_timestamp_at "03")
                    db_one_pending)).
    + simpl. tauto.
    + reflexivity.
  - apply (proj2 (enqueueTestJob_job_types (EJ := sample_json)
                    (SC := sample_strconv) "cleanup" "nightly" ["7"]
                    (time_Now_at "03") (current_timestamp_at "03")
                    db_one_pending)).
    simpl. intros [H|[H|[H|[H|[]]]]]; discriminate.
Defined.

(** ** formatErrorMessage *)

Lemma strings_ReplaceAll_absent (s old new : string) :
  strings_Contains s old = false -> strings_ReplaceAll s old new = s.
Proof.
  unfold strings_ReplaceAll. induction s as [|c s IH]; [reflexivity|].
  cbn [strings_Contains replace_from]. intros H.
  apply orb_false_iff in H. destruct H as [Hp Hc].
  rewrite Hp. f_equal. now apply IH.
Qed.

(** X27. On a message that holds none of the phrases "doesn't match schema",
    "Error at", "Property" and "minimum", formatErrorMessage does this: a
    message that mentions both "format" and "email" becomes the sentence
    "Email address format is invalid"; otherwise a message that mentions
    "required" has every "property" replaced by "field"; every other
    message comes back unchanged. *)
Theorem formatErrorMessage_plain (message : string) :
  strings_Contains message "doesn't match schema" = false ->
  strings_Contains message "Error at" = false ->
  strings_Contains message "Property" = false ->
  strings_Contains message "minimum" = false ->
  formatErrorMessage message
  = if strings_Contains message "format" && strings_Contains message "email"
    then "Email address format is invalid"
    else if strings_Contains message "required"
         then strings_ReplaceAll message "property" "field"
         else message.
Proof.
  intros H1 H2 H3 H4. unfold formatErrorMessage.
  rewrite (strings_ReplaceAll_absent message _ _ H1).
  rewrite (strings_ReplaceAll_absent message _ _ H2).
  rewrite (strings_ReplaceAll_absent message _ _ H3).
  rewrite H4.
  destruct (strings_Contains message "format"
            && strings_Contains message "email"); reflexivity.
Qed.

Lemma formatErrorMessage_plain_witness :
  formatErrorMessage "property name is required"
  = if strings_Contains "property name is required" "format"
       && strings_Contains "property name is required" "email"
    then "Email address format is invalid"
    else if strings_Contains "property name is required" "required"
         then strings_ReplaceAll "property name is required" "property" "field"
         else "property name is required".
Proof.
  apply (formatErrorMessage_plain "property name is required");
    vm_compute; reflexivity.
Defined.

(** ** ListUsers and UpdateUser *)

(** X28. ListUsers returns active users of the table, newest created_at
    first: with a limit from 0 up that many of them or all if there are
    fewer, with a negative limit all of them. *)
Theorem ListUsers_newest_first (limit : Z) (db : DB) :
  exists rows,
    ListUsers limit db = Ok rows
    /\ (forall u, In u rows -> In u (users db) /\ User_IsActive u = true)
    /\ StronglySorted
         (fun a b => null_le_text (User_CreatedAt b) (User_CreatedAt a))
         rows
    /\ Z.of_nat (length rows)
       = (let active := Z.of_nat (length (List.filter User_IsActive (users db))) in
          if limit <? 0 then active else Z.min limit active).
Proof.
  unfold ListUsers.
  set (le := fun a b : User => created_desc (User_CreatedAt a) (User_CreatedAt b)).
  set (active := List.filter User_IsActive (users db)).
  set (sorted := sort_by le active).
  assert (Permutation sorted active) as Hperm by apply sort_by_perm.
  assert (StronglySorted (fun a b => le a b = true) sorted) as Hsorted.
  { apply sort_by_sorted.
    - intros a b. apply created_desc_total.
    - intros a b c. apply created_desc_trans. }
  destruct (sql_limit_prefix limit sorted) as [rest Hrest].
  rewrite Hrest in Hsorted. apply StronglySorted_app_inv in Hsorted.
  destruct Hsorted as [Hs1 _].
  exists (sql_limit limit sorted). split; [reflexivity|]. split; [|split].
  - intros u Hu.
    assert (In u sorted) as Hs by (rewrite Hrest; apply in_or_app; now left).
    apply (Permutation_in _ Hperm) in Hs. now apply filter_In in Hs.
  - clear -Hs1. induction Hs1 as [|x l Hs IH Hx]; constructor; [exact IH|].
    rewrite List.Forall_forall in *. intros z Hz.
    apply created_desc_le. now apply Hx.
  - rewrite sql_limit_length. cbv zeta.
    now rewrite (Permutation_length Hperm).
Qed.

(** X29. UpdateUser for an id that no user has reports sql.ErrNoRows; an
    UpdateUser that fails, for whatever reason, leaves the database as it
    was; an UpdateUser that succeeds returns the row of that id with the
    email, age, name, bio, is_active and additional_data of the call,
    updated_at set to CURRENT_TIMESTAMP, and the id and created_at it had;
    GetUserByID then finds that row, and every other id answers as
    before. *)
Theorem UpdateUser_outcomes (arg : UpdateUserParams)
    (current_timestamp : string) (db : DB) :
  (GetUserByID_query (uu_ID arg) db = Err sql_ErrNoRows ->
   UpdateUser arg current_timestamp db = (Err sql_ErrNoRows, db))
  /\ (forall err db',
        UpdateUser arg current_timestamp db = (Err err, db') -> db' = db)
  /\ (forall row db',
        UpdateUser arg current_timestamp db = (Ok row, db') ->
        exists u,
          GetUserByID_query (uu_ID arg) db = Ok u
          /\ row = {| User_ID := User_ID u;
                      User_Email := uu_Email arg;
                      User_Age := uu_Age arg;
                      User_Name := uu_Name arg;
                      User_Bio := uu_Bio arg;
                      User_IsActive := uu_IsActive arg;
                      User_AdditionalData := uu_AdditionalData arg;
                      User_CreatedAt := User_CreatedAt u;
                      User_UpdatedAt := Some current_timestamp |}
          /\ GetUserByID_query (uu_ID arg) db' = Ok row
          /\ forall id, id <> uu_ID arg ->
               GetUserByID_query id db' = GetUserByID_query id db).
Proof.
  unfold UpdateUser, GetUserByID_query.
  destruct (List.filter (fun u => User_ID u =? uu_ID arg) (users db))
    as [|u us] eqn:F.
  - split; [reflexivity|]. split; [|discriminate].
    intros err db' H. now injection H as _ <-.
  - split; [discriminate|].
    destruct (uu_Age arg <? 0);
      [split; [intros err db' H; now injection H as _ <- | discriminate]|].
    destruct (existsb _ (users db));
      [split; [intros err db' H; now injection H as _ <- | discriminate]|].
    split; [discriminate|]. intros row db' H. injection H as <- <-.
    exists u. split; [reflexivity|]. split; [reflexivity|]. simpl.
    set (f := fun v => if User_ID v =? uu_ID arg
                       then UpdateUser_set arg current_timestamp v else v).
    assert (forall id rows,
              List.filter (fun v => User_ID v =? id) (map f rows)
              = map f (List.filter (fun v => User_ID v =? id) rows)) as Hf.
    { intros id rows. induction rows as [|r rows IH]; [reflexivity|].
      simpl. assert (User_ID (f r) = User_ID r) as ->
        by (unfold f; now destruct (User_ID r =? uu_ID arg)).
      destruct (User_ID r =? id); simpl; now rewrite IH. }
    split.
    + rewrite Hf, F. simpl. unfold f.
      assert (In u (List.filter (fun u => User_ID u =? uu_ID arg) (users db)))
        as Hu by (rewrite F; now left).
      apply filter_In in Hu. destruct Hu as [_ E]. now rewrite E.
    + intros id Hne. rewrite Hf.
      destruct (List.filter (fun v => User_ID v =? id) (users db))
        as [|r rs] eqn:G; [reflexivity|]. simpl.
      assert (In r (List.filter (fun v => User_ID v =? id) (users db)))
        as Hr by (rewrite G; now left).
      apply filter_In in Hr. destruct Hr as [_ E]. apply Z.eqb_eq in E.
      unfold f.
      assert ((User_ID r =? uu_ID arg) = false) as ->
        by (apply Z.eqb_neq; congruence).
      reflexivity.
Qed.

Lemma ListJobs_newest_first_witness :
  exists jobs,
    ListJobs "pending" 2 db_three_pending = Ok jobs
    /\ (forall j, In j jobs ->
          In j (job_queue db_three_pending) /\ Status j = "pending")
    /\ StronglySorted (fun a b => null_le_text (CreatedAt b) (CreatedAt a)) jobs
    /\ Z.of_nat (length jobs)
       = (if 2 <? 0 then count_status "pending" (job_queue db_three_pending)
          else Z.min 2 (count_status "pending" (job_queue db_three_pending)))
    /\ (forall j k,
          In j jobs -> In k (job_queue db_three_pending) ->
          Status k = "pending" ->
          ~ In k jobs -> null_le_text (CreatedAt k) (CreatedAt j)).
Proof. exact (ListJobs_newest_first "pending" 2 db_three_pending). Defined.

Lemma additional_props_lookup_witness :
  additional_props sample_body !! "email" = None
  /\ additional_props sample_body !! "hobby" = sample_body !! "hobby".
Proof.
  split.
  - apply (proj1 (additional_props_lookup sample_body "email")).
    simpl. tauto.
  - apply (proj2 (additional_props_lookup sample_body "hobby")).
    simpl. intros [H|[H|[H|[H|[H|[]]]]]]; discriminate.
Defined.

Lemma ListUsers_newest_first_witness :
  exists rows,
    ListUsers 10 db_one_user = Ok rows
    /\ (forall u, In u rows ->
          In u (users db_one_user) /\ User_IsActive u = true)
    /\ StronglySorted
         (fun a b => null_le_text (User_CreatedAt b) (User_CreatedAt a))
         rows
    /\ Z.of_nat (length rows)
       = (let active :=
            Z.of_nat (length (List.filter User_IsActive (users db_one_user))) in
          if 10 <? 0 then active else Z.min 10 active).
Proof. exact (ListUsers_newest_first 10 db_one_user). Defined.

Lemma UpdateUser_outcomes_witness :
  UpdateUser {| uu_Email := "c@example.com"; uu_Age := 20; uu_Name := None;
                uu_Bio := None; uu_IsActive := true;
                uu_AdditionalData := None; uu_ID := 9 |}
    (current_timestamp_at "07") db_one_user
  = (Err sql_ErrNoRows, db_one_user)
  /\ fst (UpdateUser sample_update (current_timestamp_at "07") db_one_user)
     = Ok {| User_ID := 1; User_Email := "c@example.com"; User_Age := 31;
             User_Name := Some "C"; User_Bio := Some "hello";
             User_IsActive := false; User_AdditionalData := Some "{}";
             User_CreatedAt := Some "2024-01-01 12:00:05";
             User_UpdatedAt := Some "2024-01-01 12:00:07" |}
  /\ GetUserByID_query 1
       (snd (UpdateUser sample_update (current_timestamp_at "07") db_one_user))
     = Ok {| User_ID := 1; User_Email := "c@example.com"; User_Age := 31;
             User_Name := Some "C"; User_Bio := Some "hello";
             User_IsActive := false; User_AdditionalData := Some "{}";
             User_CreatedAt := Some "2024-01-01 12:00:05";
             User_UpdatedAt := Some "2024-01-01 12:00:07" |}.
Proof.
  split.
  - apply (proj1 (UpdateUser_outcomes
                    {| uu_Email := "c@example.com"; uu_Age := 20;
                       uu_Name := None; uu_Bio := None; uu_IsActive := true;
                       uu_AdditionalData := None; uu_ID := 9 |}
                    (current_timestamp_at "07") db_one_user)).
    vm_compute. reflexivity.
  - destruct (UpdateUser sample_update (current_timestamp_at "07") db_one_user)
      as [[row|e] db'] eqn:U; [|vm_compute in U; discriminate].
    destruct (proj2 (proj2 (UpdateUser_outcomes sample_update
                              (current_timestamp_at "07") db_one_user))
                row db' U) as (u & Hu & Hrow & Hget & _).
    vm_compute in Hu. injection Hu as <-.
    cbn [fst snd]. rewrite Hrow in *. split; [reflexivity | exact Hget].
Defined.

(** ** One round of the worker *)

Section WorkerRound.
Context {EJ : EncodingJson}.

(** X30. One round of processNextJob: with no eligible job it leaves the
    database as it was; with a claimed job whose payload deserializes, whose
    type has a processor and whose handler returns no error, the job ends
    'completed' with completed_at set to the time of the report, and every
    other job is as before the round. *)
Theorem processNextJob_round (processors : gmap string JobProcessor)
    (claim_Now claim_timestamp report_Now report_timestamp : string)
    (db : DB) :
  ((forall j, In j (job_queue db) -> eligible claim_timestamp j = false) ->
   processNextJob processors claim_Now claim_timestamp
     report_Now report_timestamp db = db)
  /\ (forall job db1 payload processor,
        GetNextJob claim_Now claim_timestamp db = (Ok (Some job), db1) ->
        json_Unmarshal (Payload job) = Ok payload ->
        processors !! JobType job = Some processor ->
        Process processor job payload = None ->
        (exists row,
           GetJobByID (ID job)
             (processNextJob processors claim_Now claim_timestamp
                report_Now report_timestamp db) = Ok row
           /\ Status row = "completed"
           /\ CompletedAt row = Some report_Now)
        /\ forall id, id <> ID job ->
             GetJobByID id
               (processNextJob processors claim_Now claim_timestamp
                  report_Now report_timestamp db)
             = GetJobByID id db).
Proof.
  split.
  - intros Hnone. unfold processNextJob, GetNextJob.
    now rewrite (GetNextPendingJob_none claim_timestamp db Hnone).
  - intros job db1 payload processor Hc Hp Hproc Hok.
    unfold processNextJob, process_claimed. rewrite Hc, Hp, Hproc, Hok.
    apply GetNextJob_Some_inv in Hc. destruct Hc as (b & S & -> & ->).
    apply GetNextPendingJob_Ok in S. destruct S as (Hin & _ & _).
    destruct (claim_update_found claim_Now db b Hin) as (r & _ & r' & Hr').
    cbn [ID mark_processing]. split.
    + destruct (CompleteJob_found (ID b) report_Now _ r' Hr') as [_ H].
      eexists. split; [exact H|]. split; reflexivity.
    + intros id Hne. rewrite CompleteJob_other by exact Hne.
      now apply (UpdateJobStatus_other (claim_params (ID b) claim_Now) db id).
Qed.

End WorkerRound.

Lemma processNextJob_round_witness :
  (exists row,
     GetJobByID 3
       (processNextJob (EJ := sample_json) sample_processors
          (time_Now_at "10") (current_timestamp_at "10")
          (time_Now_at "12") (current_timestamp_at "12")
          db_three_pending) = Ok row
     /\ Status row = "completed"
     /\ CompletedAt row = Some (time_Now_at "12"))
  /\ forall id, id <> 3 ->
       GetJobByID id
         (processNextJob (EJ := sample_json) sample_processors
            (time_Now_at "10") (current_timestamp_at "10")
            (time_Now_at "12") (current_timestamp_at "12")
            db_three_pending)
       = GetJobByID id db_three_pending.
Proof.
  destruct (GetNextJob (time_Now_at "10") (current_timestamp_at "10")
              db_three_pending) as [[[job|]|e] db1] eqn:G;
    try (vm_compute in G; discriminate).
  assert (ID job = 3) as Hid by (vm_compute in G; injection G as <- _; reflexivity).
  rewrite <- Hid.
  apply (proj2 (processNextJob_round (EJ := sample_json) sample_processors
                  (time_Now_at "10") (current_timestamp_at "10")
                  (time_Now_at "12") (current_timestamp_at "12")
                  db_three_pending) job db1
               {| UserID := None; UserData := []; AdditionalProps := [];
                  Message := "hello"; Recipients := []; ValidationMode := "" |}
               succeeding_processor G).
  - vm_compute in G. injection G as <- _. reflexivity.
  - vm_compute in G. injection G as <- _. reflexivity.
  - reflexivity.
Defined.
